(** * canoe: the replicated-node orchestrator (raft.go)

    A shallow embedding of the Node orchestrator of canoe: node
    construction, Start, the Ready loop, committed-entry publication,
    snapshot creation, membership proposals and the snapshot metadata
    codec, followed by the properties of the specification that concern
    them.

    Conventions.  Go's [uint64] is [N] (with the 64-bit bound written out
    where the code depends on it), [int] and [time.Duration] are [Z],
    [[]byte] is [list byte], [string] is [string], a Go map is a [gmap].
    Methods on [*Node] are computations in a state monad over [Node] whose
    results distinguish a normal return, a returned [error], a panic and a
    call that has not returned.  Every call that leaves raft.go and can
    change something there is recorded in the node's [trace]; pure queries
    ([Status], [Snapshot], [wal.Exist]) are not. *)

From Stdlib Require Import ZArith NArith Ascii String.
From Stdlib.Strings Require Import Byte.
From stdpp Require Import gmap strings list fin_maps.

Local Open Scope N_scope.

Abbreviation bytes := (list Byte.byte).

(** ** Errors *)

(** Go [error] values.  The three errors that raft.go itself creates are
    constructors of their own; every other error comes from a collaborator
    and carries its message. *)
Inductive error : Type :=
  | ErrorRemovedFromCluster
      (* var ErrorRemovedFromCluster = errors.New("I have been removed from cluster") *)
  | ErrTimedOutWaitingForConfigChange
      (* errors.New("Timed out waiting for config change") *)
  | ErrMustNotDisableSnapshotting
      (* errors.New("Must not disable snapshotting when datadir unspecified") *)
  | ErrExternal (msg : string).

#[global] Instance error_eq_dec : EqDecision error.
Proof. solve_decision. Defined.

(** Outcome of a call. *)
Inductive Res (A : Type) : Type :=
  | Ok (a : A)            (* returned; for [error]-typed functions: nil *)
  | Fail (e : error)      (* returned a non-nil error *)
  | Panic (msg : string)  (* run-time panic *)
  | Blocked.              (* has not returned *)
Arguments Ok {A} a.
Arguments Fail {A} e.
Arguments Panic {A} msg.
Arguments Blocked {A}.

(** ** strconv: decimal rendering and parsing of uint64 *)

Module strconv.

Definition maxUint64 : N := 2 ^ 64 - 1.

Definition digit (d : N) : ascii := ascii_of_N (48 + d).

(** [formatBits] for base 10: digits are produced from the least
    significant one and written in front of what is already there. *)
Fixpoint formatBits (fuel : nat) (u : N) (acc : string) : string :=
  match fuel with
  | O => acc
  | S fuel' =>
      if u <? 10 then String (digit u) acc
      else formatBits fuel' (u / 10) (String (digit (u mod 10)) acc)
  end.

(** [strconv.FormatUint(u, 10)]; a uint64 has at most 20 digits. *)
Definition FormatUint (u : N) : string := formatBits 20 u "".

(** [strconv.Itoa] / the [%d] verb on an [int]. *)
Definition FormatInt (i : Z) : string :=
  if (i <? 0)%Z then String "-" (FormatUint (Z.to_N (- i)))
  else FormatUint (Z.to_N i).

Definition digitVal (c : ascii) : option N :=
  let n := N_of_ascii c in
  if (48 <=? n) && (n <=? 57) then Some (n - 48) else None.

Definition ErrSyntax : error := ErrExternal "strconv.ParseUint: invalid syntax".
Definition ErrRange : error := ErrExternal "strconv.ParseUint: value out of range".

(** The digit loop of [ParseUint(s, 10, 64)]: [cutoff] guards the
    multiplication, the wrapped sum is compared with the old value and
    with [maxVal]. *)
Fixpoint parseDigits (s : string) (n : N) : error + N :=
  match s with
  | EmptyString => inr n
  | String c rest =>
      match digitVal c with
      | None => inl ErrSyntax
      | Some d =>
          if maxUint64 / 10 + 1 <=? n then inl ErrRange
          else
            let n10 := (n * 10) mod 2 ^ 64 in
            let n1 := (n10 + d) mod 2 ^ 64 in
            if (n1 <? n10) || (maxUint64 <? n1) then inl ErrRange
            else parseDigits rest n1
      end
  end.

Definition ParseUint (s : string) : error + N :=
  match s with
  | EmptyString => inl ErrSyntax
  | _ => parseDigits s 0
  end.

End strconv.

Arguments strconv.FormatUint : simpl never.
Arguments strconv.FormatInt : simpl never.

(** ** raftpb: log entries and configuration changes *)

Abbreviation LogData := (list Byte.byte).
Abbreviation SnapshotData := (list Byte.byte).

Inductive EntryType : Type := EntryNormal | EntryConfChange.

Record Entry : Type := mkEntry {
  Entry_Term : N;
  Entry_Index : N;
  Entry_Type : EntryType;
  Entry_Data : bytes;
}.

Inductive ConfChangeType : Type :=
  | ConfChangeAddNode
  | ConfChangeRemoveNode
  | ConfChangeUpdateNode.

Record ConfChange : Type := mkConfChange {
  CC_ID : N;
  CC_Type : ConfChangeType;
  CC_NodeID : N;
  CC_Context : bytes;
}.

Record ConfState : Type := mkConfState { CS_Nodes : list N }.

Record SnapshotMetadata : Type := mkSnapshotMetadata {
  SM_ConfState : ConfState;
  SM_Index : N;
  SM_Term : N;
}.

(** [raftpb.Snapshot] *)
Record RaftSnapshot : Type := mkRaftSnapshot {
  Snap_Data : bytes;
  Snap_Metadata : SnapshotMetadata;
}.

Record HardState : Type := mkHardState { HS_Term : N; HS_Vote : N; HS_Commit : N }.

Record Message : Type := mkMessage { Msg_To : N; Msg_From : N; Msg_Payload : bytes }.

(** [raft.Ready] *)
Record Ready : Type := mkReady {
  Rd_HardState : HardState;
  Rd_Entries : list Entry;
  Rd_Snapshot : RaftSnapshot;
  Rd_CommittedEntries : list Entry;
  Rd_Messages : list Message;
}.

#[global] Instance byte_eq_dec : EqDecision Byte.byte := Byte.byte_eq_dec.
#[global] Instance EntryType_eq_dec : EqDecision EntryType.
Proof. solve_decision. Defined.
#[global] Instance Entry_eq_dec : EqDecision Entry.
Proof. solve_decision. Defined.
#[global] Instance ConfChangeType_eq_dec : EqDecision ConfChangeType.
Proof. solve_decision. Defined.
#[global] Instance ConfChange_eq_dec : EqDecision ConfChange.
Proof. solve_decision. Defined.

(** ** canoe's own data *)

Record confChangeNodeContext : Type := mkCtx {
  IP : string;        (* `json:"ip"` *)
  RaftPort : Z;       (* `json:"raft_port"` *)
  APIPort : Z;        (* `json:"api_port"` *)
}.

#[global] Instance confChangeNodeContext_eq_dec : EqDecision confChangeNodeContext.
Proof. solve_decision. Defined.

#[global] Instance confChangeNodeContext_countable : Countable confChangeNodeContext.
Proof.
  apply (inj_countable' (fun c => (IP c, RaftPort c, APIPort c))
                        (fun t => mkCtx t.1.1 t.1.2 t.2)).
  by intros [].
Defined.

Record SnapshotConfig : Type := mkSnapshotConfig {
  Interval : Z;              (* time.Duration, nanoseconds *)
  MinCommittedLogs : N;
}.

Definition Minute : Z := 60 * 1000 * 1000 * 1000.
Definition Second : Z := 1000 * 1000 * 1000.
Definition Millisecond : Z := 1000 * 1000.

Definition DefaultSnapshotConfig : SnapshotConfig :=
  {| Interval := -1 * Minute; MinCommittedLogs := 0 |}.

(** The two float fields are kept as decimal literals; nothing below
    computes with them. *)
Record InitializationBackoffArgs : Type := mkBackoff {
  InitialInterval : Z;
  Multiplier : string;
  MaxInterval : Z;
  MaxElapsedTime : Z;
  RandomizationFactor : string;
}.

Definition DefaultInitializationBackoffArgs : InitializationBackoffArgs :=
  {| InitialInterval := 500 * Millisecond;
     RandomizationFactor := ".5";
     Multiplier := "2";
     MaxInterval := 5 * Second;
     MaxElapsedTime := 2 * Minute |}.

(** [raft.Config] as raft.go fills it. *)
Record RaftConfig : Type := mkRaftConfig {
  Cfg_ID : N;
  ElectionTick : Z;
  HeartbeatTick : Z;
  MaxSizePerMsg : N;
  MaxInflightMsgs : Z;
  CheckQuorum : bool;
}.

Definition walDirExtension : string := "/wal".
Definition snapDirExtension : string := "/snap".

(** An observer's filter.  The two closures that raft.go builds (in
    [proposePeerAddition] and [proposePeerDeletion]) are kept as data, so
    that their bodies, which call into the Raft engine, can be run against
    the node; a caller's own filter is a function of the entry. *)
Inductive FilterFn : Type :=
  | FilterAddNode (nodeID : N)
  | FilterRemoveNode (nodeID : N)
  | FilterUser (f : Entry -> bool).

(** A channel of observations: [chan_room] sends can succeed without
    blocking (free buffer slots or receivers already waiting);
    [chan_got] is what has been delivered. *)
Record ObsChan : Type := mkChan { chan_room : nat; chan_got : list Entry }.

Record Observer : Type := mkObserver {
  obs_id : N;
  obs_filter : FilterFn;
  obs_channel : ObsChan;
}.

Inductive Logger : Type :=
  | SuppliedLogger (name : string)   (* NodeConfig.Logger *)
  | DefaultStderrLogger.             (* raft.DefaultLogger on os.Stderr, prefix "canoe" *)

(** ** Calls that leave raft.go *)

Inductive Event : Type :=
  | EvFsmApply (d : LogData)
  | EvFsmSnapshot
  | EvFsmRestore (d : SnapshotData)
  | EvApplyConfChange (cc : ConfChange)
  | EvProposeConfChange (cc : ConfChange)
  | EvPropose (d : bytes)
  | EvStep (m : Message)
  | EvTick
  | EvAdvance
  | EvAddPeer (id : N) (urls : list string)
  | EvRemovePeer (id : N)
  | EvTransportStart
  | EvTransportStop
  | EvTransportSend (ms : list Message)
  | EvObserve (e : Entry)
  | EvStorageAppend (es : list Entry)
  | EvCreateSnapshot (i : N) (cs : option ConfState) (data : bytes)
  | EvCompact (i : N)
  | EvApplySnapshot (s : RaftSnapshot)
  | EvWalSave (hs : HardState) (es : list Entry)
  | EvWalClose
  | EvGo (fn : string)      (* go fn(rn) *)
  | EvCall (fn : string).   (* a method of the package that is not in raft.go *)

(** ** Collaborators

    The user's state machine, the etcd packages (raft, rafthttp, wal,
    snap, raftpb) and encoding/json are outside raft.go.  Each is a state
    of unknown type together with the operations raft.go calls on it. *)
Class Collaborators : Type := {
  fsmT : Type;
  raftT : Type;
  storageT : Type;
  transportT : Type;
  walT : Type;
  snapshotterT : Type;
  (* type FSM interface *)
  fsm_Apply : fsmT -> LogData -> fsmT * option error;
  fsm_Snapshot : fsmT -> fsmT * (error + SnapshotData);
  fsm_Restore : fsmT -> SnapshotData -> fsmT * option error;
  (* raft.Node; [raft_nil] is the nil interface value *)
  raft_nil : raftT;
  raft_StartNode : RaftConfig -> list N -> raftT;
  raft_RestartNode : RaftConfig -> raftT;
  raft_Tick : raftT -> raftT;
  raft_ApplyConfChange : raftT -> ConfChange -> raftT * option ConfState;
  raft_ProposeConfChange : raftT -> ConfChange -> raftT * option error;
  raft_Propose : raftT -> bytes -> raftT * option error;
  raft_Step : raftT -> Message -> raftT * option error;
  raft_Status_Applied : raftT -> N;
  raft_Advance : raftT -> raftT;
  raft_IsEmptySnap : RaftSnapshot -> bool;
  (* raft.MemoryStorage *)
  storage_New : storageT;
  storage_Snapshot : storageT -> error + RaftSnapshot;
  storage_LastIndex : storageT -> error + N;
  storage_Append : storageT -> list Entry -> storageT;
  storage_CreateSnapshot :
    storageT -> N -> option ConfState -> bytes -> storageT * (error + RaftSnapshot);
  storage_Compact : storageT -> N -> storageT * option error;
  storage_ApplySnapshot : storageT -> RaftSnapshot -> storageT * option error;
  (* rafthttp.Transport; [transport_nil] is the nil pointer *)
  transport_nil : transportT;
  transport_New : N -> N -> option snapshotterT -> transportT;
  transport_Start : transportT -> transportT * option error;
  transport_Stop : transportT -> transportT;
  transport_AddPeer : transportT -> N -> list string -> transportT;
  transport_RemovePeer : transportT -> N -> transportT;
  transport_Send : transportT -> list Message -> transportT;
  (* wal *)
  wal_Exist : string -> bool;
  wal_Save : walT -> HardState -> list Entry -> walT;
  wal_Close : option walT -> option walT;
  (* raftpb: the ConfChange left in [cc] by [cc.Unmarshal(data)], whose
     error raft.go drops *)
  ConfChange_Unmarshal : bytes -> ConfChange;
  (* encoding/json at the types raft.go uses it at *)
  json_Unmarshal_ctx : bytes -> error + confChangeNodeContext;
  json_Marshal_peers : gmap string confChangeNodeContext -> error + bytes;
  json_Unmarshal_peers : bytes -> error + gmap string confChangeNodeContext;
  json_Marshal_snapshot : bytes -> bytes -> error + bytes;
  json_Unmarshal_snapshot : bytes -> error + (option bytes * bytes);
}.

Section Orchestrator.

Context `{C : Collaborators}.

(** ** The node *)

(** [type Node struct].  [proposeC] and [observersLock] have no role in a
    sequential reading and are left out; two ghost fields are added. *)
Record Node : Type := mkNode {
  node : raftT;   (* the Raft engine, raft.Node *)
  raftStorage : storageT;   (* *raft.MemoryStorage *)
  transport : transportT;   (* *rafthttp.Transport *)
  bootstrapPeers : list string;
  bootstrapNode : bool;
  peerMap : gmap N confChangeNodeContext;
  id : N;
  cid : N;
  raftPort : Z;
  apiPort : Z;
  raftConfig : option RaftConfig;
  started : bool;
  initialized : bool;
  running : bool;
  fsm : fsmT;
  observers : gmap N Observer;
  initBackoffArgs : InitializationBackoffArgs;
  snapshotConfig : SnapshotConfig;
  dataDir : string;
  ss : option snapshotterT;   (* *snap.Snapshotter, nil until persistent storage is opened *)
  wal : option walT;   (* *wal.WAL, nil when nothing is persisted *)
  lastConfState : option ConfState;
  stopc : option bool;   (* nil, or an open (false) or closed (true) channel *)
  logger : Logger;
  nextObserverID : N;   (* ghost: the package's observer-id counter *)
  trace : list Event;   (* ghost: calls made so far, oldest first *)
}.

(** Field updates: [set_f v rn] is [rn] with field [f] replaced by [v]. *)
Definition set_node (v : raftT) (rn : Node) : Node :=
  mkNode v (raftStorage rn) (transport rn) (bootstrapPeers rn) (bootstrapNode rn)
    (peerMap rn) (id rn) (cid rn) (raftPort rn) (apiPort rn) (raftConfig rn)
    (started rn) (initialized rn) (running rn) (fsm rn) (observers rn)
    (initBackoffArgs rn) (snapshotConfig rn) (dataDir rn) (ss rn) (wal rn)
    (lastConfState rn) (stopc rn) (logger rn) (nextObserverID rn) (trace rn).

Definition set_raftStorage (v : storageT) (rn : Node) : Node :=
  mkNode (node rn) v (transport rn) (bootstrapPeers rn) (bootstrapNode rn)
    (peerMap rn) (id rn) (cid rn) (raftPort rn) (apiPort rn) (raftConfig rn)
    (started rn) (initialized rn) (running rn) (fsm rn) (observers rn)
    (initBackoffArgs rn) (snapshotConfig rn) (dataDir rn) (ss rn) (wal rn)
    (lastConfState rn) (stopc rn) (logger rn) (nextObserverID rn) (trace rn).

Definition set_transport (v : transportT) (rn : Node) : Node :=
  mkNode (node rn) (raftStorage rn) v (bootstrapPeers rn) (bootstrapNode rn)
    (peerMap rn) (id rn) (cid rn) (raftPort rn) (apiPort rn) (raftConfig rn)
    (started rn) (initialized rn) (running rn) (fsm rn) (observers rn)
    (initBackoffArgs rn) (snapshotConfig rn) (dataDir rn) (ss rn) (wal rn)
    (lastConfState rn) (stopc rn) (logger rn) (nextObserverID rn) (trace rn).

Definition set_peerMap (v : gmap N confChangeNodeContext) (rn : Node) : Node :=
  mkNode (node rn) (raftStorage rn) (transport rn) (bootstrapPeers rn)
    (bootstrapNode rn) v (id rn) (cid rn) (raftPort rn) (apiPort rn) (raftConfig rn)
    (started rn) (initialized rn) (running rn) (fsm rn) (observers rn)
    (initBackoffArgs rn) (snapshotConfig rn) (dataDir rn) (ss rn) (wal rn)
    (lastConfState rn) (stopc rn) (logger rn) (nextObserverID rn) (trace rn).

Definition set_id (v : N) (rn : Node) : Node :=
  mkNode (node rn) (raftStorage rn) (transport rn) (bootstrapPeers rn)
    (bootstrapNode rn) (peerMap rn) v (cid rn) (raftPort rn) (apiPort rn)
    (raftConfig rn) (started rn) (initialized rn) (running rn) (fsm rn) (observers rn)
    (initBackoffArgs rn) (snapshotConfig rn) (dataDir rn) (ss rn) (wal rn)
    (lastConfState rn) (stopc rn) (logger rn) (nextObserverID rn) (trace rn).

Definition set_cid (v : N) (rn : Node) : Node :=
  mkNode (node rn) (raftStorage rn) (transport rn) (bootstrapPeers rn)
    (bootstrapNode rn) (peerMap rn) (id rn) v (raftPort rn) (apiPort rn)
    (raftConfig rn) (started rn) (initialized rn) (running rn) (fsm rn) (observers rn)
    (initBackoffArgs rn) (snapshotConfig rn) (dataDir rn) (ss rn) (wal rn)
    (lastConfState rn) (stopc rn) (logger rn) (nextObserverID rn) (trace rn).

Definition set_raftConfig (v : option RaftConfig) (rn : Node) : Node :=
  mkNode (node rn) (raftStorage rn) (transport rn) (bootstrapPeers rn)
    (bootstrapNode rn) (peerMap rn) (id rn) (cid rn) (raftPort rn) (apiPort rn) v
    (started rn) (initialized rn) (running rn) (fsm rn) (observers rn)
    (initBackoffArgs rn) (snapshotConfig rn) (dataDir rn) (ss rn) (wal rn)
    (lastConfState rn) (stopc rn) (logger rn) (nextObserverID rn) (trace rn).

Definition set_started (v : bool) (rn : Node) : Node :=
  mkNode (node rn) (raftStorage rn) (transport rn) (bootstrapPeers rn)
    (bootstrapNode rn) (peerMap rn) (id rn) (cid rn) (raftPort rn) (apiPort rn)
    (raftConfig rn) v (initialized rn) (running rn) (fsm rn) (observers rn)
    (initBackoffArgs rn) (snapshotConfig rn) (dataDir rn) (ss rn) (wal rn)
    (lastConfState rn) (stopc rn) (logger rn) (nextObserverID rn) (trace rn).

Definition set_initialized (v : bool) (rn : Node) : Node :=
  mkNode (node rn) (raftStorage rn) (transport rn) (bootstrapPeers rn)
    (bootstrapNode rn) (peerMap rn) (id rn) (cid rn) (raftPort rn) (apiPort rn)
    (raftConfig rn) (started rn) v (running rn) (fsm rn) (observers rn)
    (initBackoffArgs rn) (snapshotConfig rn) (dataDir rn) (ss rn) (wal rn)
    (lastConfState rn) (stopc rn) (logger rn) (nextObserverID rn) (trace rn).

Definition set_running (v : bool) (rn : Node) : Node :=
  mkNode (node rn) (raftStorage rn) (transport rn) (bootstrapPeers rn)
    (bootstrapNode rn) (peerMap rn) (id rn) (cid rn) (raftPort rn) (apiPort rn)
    (raftConfig rn) (started rn) (initialized rn) v (fsm rn) (observers rn)
    (initBackoffArgs rn) (snapshotConfig rn) (dataDir rn) (ss rn) (wal rn)
    (lastConfState rn) (stopc rn) (logger rn) (nextObserverID rn) (trace rn).

Definition set_fsm (v : fsmT) (rn : Node) : Node :=
  mkNode (node rn) (raftStorage rn) (transport rn) (bootstrapPeers rn)
    (bootstrapNode rn) (peerMap rn) (id rn) (cid rn) (raftPort rn) (apiPort rn)
    (raftConfig rn) (started rn) (initialized rn) (running rn) v (observers rn)
    (initBackoffArgs rn) (snapshotConfig rn) (dataDir rn) (ss rn) (wal rn)
    (lastConfState rn) (stopc rn) (logger rn) (nextObserverID rn) (trace rn).

Definition set_observers (v : gmap N Observer) (rn : Node) : Node :=
  mkNode (node rn) (raftStorage rn) (transport rn) (bootstrapPeers rn)
    (bootstrapNode rn) (peerMap rn) (id rn) (cid rn) (raftPort rn) (apiPort rn)
    (raftConfig rn) (started rn) (initialized rn) (running rn) (fsm rn) v
    (initBackoffArgs rn) (snapshotConfig rn) (dataDir rn) (ss rn) (wal rn)
    (lastConfState rn) (stopc rn) (logger rn) (nextObserverID rn) (trace rn).

Definition set_wal (v : option walT) (rn : Node) : Node :=
  mkNode (node rn) (raftStorage rn) (transport rn) (bootstrapPeers rn)
    (bootstrapNode rn) (peerMap rn) (id rn) (cid rn) (raftPort rn) (apiPort rn)
    (raftConfig rn) (started rn) (initialized rn) (running rn) (fsm rn) (observers rn)
    (initBackoffArgs rn) (snapshotConfig rn) (dataDir rn) (ss rn) v (lastConfState rn)
    (stopc rn) (logger rn) (nextObserverID rn) (trace rn).

Definition set_lastConfState (v : option ConfState) (rn : Node) : Node :=
  mkNode (node rn) (raftStorage rn) (transport rn) (bootstrapPeers rn)
    (bootstrapNode rn) (peerMap rn) (id rn) (cid rn) (raftPort rn) (apiPort rn)
    (raftConfig rn) (started rn) (initialized rn) (running rn) (fsm rn) (observers rn)
    (initBackoffArgs rn) (snapshotConfig rn) (dataDir rn) (ss rn) (wal rn) v
    (stopc rn) (logger rn) (nextObserverID rn) (trace rn).

Definition set_stopc (v : option bool) (rn : Node) : Node :=
  mkNode (node rn) (raftStorage rn) (transport rn) (bootstrapPeers rn)
    (bootstrapNode rn) (peerMap rn) (id rn) (cid rn) (raftPort rn) (apiPort rn)
    (raftConfig rn) (started rn) (initialized rn) (running rn) (fsm rn) (observers rn)
    (initBackoffArgs rn) (snapshotConfig rn) (dataDir rn) (ss rn) (wal rn)
    (lastConfState rn) v (logger rn) (nextObserverID rn) (trace rn).

Definition set_nextObserverID (v : N) (rn : Node) : Node :=
  mkNode (node rn) (raftStorage rn) (transport rn) (bootstrapPeers rn)
    (bootstrapNode rn) (peerMap rn) (id rn) (cid rn) (raftPort rn) (apiPort rn)
    (raftConfig rn) (started rn) (initialized rn) (running rn) (fsm rn) (observers rn)
    (initBackoffArgs rn) (snapshotConfig rn) (dataDir rn) (ss rn) (wal rn)
    (lastConfState rn) (stopc rn) (logger rn) v (trace rn).

Definition set_trace (v : list Event) (rn : Node) : Node :=
  mkNode (node rn) (raftStorage rn) (transport rn) (bootstrapPeers rn)
    (bootstrapNode rn) (peerMap rn) (id rn) (cid rn) (raftPort rn) (apiPort rn)
    (raftConfig rn) (started rn) (initialized rn) (running rn) (fsm rn) (observers rn)
    (initBackoffArgs rn) (snapshotConfig rn) (dataDir rn) (ss rn) (wal rn)
    (lastConfState rn) (stopc rn) (logger rn) (nextObserverID rn) v.

(** ** The monad of [*Node] methods *)

Definition M (A : Type) : Type := Node -> Node * Res A.

Definition ret {A : Type} (a : A) : M A := fun rn => (rn, Ok a).

Definition bind {A B : Type} (m : M A) (k : A -> M B) : M B :=
  fun rn =>
    match m rn with
    | (rn', Ok a) => k a rn'
    | (rn', Fail e) => (rn', Fail e)
    | (rn', Panic s) => (rn', Panic s)
    | (rn', Blocked) => (rn', Blocked)
    end.

Definition fail {A : Type} (e : error) : M A := fun rn => (rn, Fail e).
Definition panic {A : Type} (s : string) : M A := fun rn => (rn, Panic s).
Definition get : M Node := fun rn => (rn, Ok rn).
Definition modify (f : Node -> Node) : M unit := fun rn => (f rn, Ok tt).
Definition emit (ev : Event) : M unit :=
  modify (fun rn => set_trace (trace rn ++ [ev]) rn).

(** [if err := f(); err != nil { return err }] *)
Definition check (r : option error) : M unit :=
  match r with
  | None => ret tt
  | Some e => fail e
  end.

(** A call whose returned error is dropped by the caller. *)
Definition ignore_error {A : Type} (m : M A) : M unit :=
  fun rn =>
    match m rn with
    | (rn', Ok _) => (rn', Ok tt)
    | (rn', Fail _) => (rn', Ok tt)
    | (rn', Panic s) => (rn', Panic s)
    | (rn', Blocked) => (rn', Blocked)
    end.

(** [defer cleanup()] around [body]: the deferred call runs however the
    body ends; a body that has not returned has not run it yet. *)
Definition defer (cleanup : Node -> Node) {A : Type} (body : M A) : M A :=
  fun rn =>
    match body rn with
    | (rn', Blocked) => (rn', Blocked)
    | (rn', r) => (cleanup rn', r)
    end.

Notation "x <- m ;; k" := (bind m (fun x => k))
  (at level 100, m at next level, right associativity, only parsing).
Notation "m ;;; k" := (bind m (fun _ => k))
  (at level 100, right associativity, only parsing).

Definition blocked {A : Type} : M A := fun rn => (rn, Blocked).

(** ** Calls on the collaborators *)

Definition call_fsm_Apply (d : LogData) : M unit :=
  emit (EvFsmApply d) ;;;
  rn <- get ;;
  let '(f, r) := fsm_Apply (fsm rn) d in
  modify (set_fsm f) ;;;
  check r.

Definition call_fsm_Snapshot : M SnapshotData :=
  emit EvFsmSnapshot ;;;
  rn <- get ;;
  let '(f, r) := fsm_Snapshot (fsm rn) in
  modify (set_fsm f) ;;;
  match r with
  | inl err => fail err
  | inr d => ret d
  end.

Definition call_fsm_Restore (d : SnapshotData) : M unit :=
  emit (EvFsmRestore d) ;;;
  rn <- get ;;
  let '(f, r) := fsm_Restore (fsm rn) d in
  modify (set_fsm f) ;;;
  check r.

Definition call_ApplyConfChange (cc : ConfChange) : M (option ConfState) :=
  emit (EvApplyConfChange cc) ;;;
  rn <- get ;;
  let '(r, cs) := raft_ApplyConfChange (node rn) cc in
  modify (set_node r) ;;;
  ret cs.

Definition call_ProposeConfChange (cc : ConfChange) : M unit :=
  emit (EvProposeConfChange cc) ;;;
  rn <- get ;;
  let '(r, e) := raft_ProposeConfChange (node rn) cc in
  modify (set_node r) ;;;
  check e.

Definition call_Tick : M unit :=
  emit EvTick ;;;
  modify (fun rn => set_node (raft_Tick (node rn)) rn).

Definition call_Advance : M unit :=
  emit EvAdvance ;;;
  modify (fun rn => set_node (raft_Advance (node rn)) rn).

Definition call_AddPeer (peer : N) (urls : list string) : M unit :=
  emit (EvAddPeer peer urls) ;;;
  modify (fun rn => set_transport (transport_AddPeer (transport rn) peer urls) rn).

Definition call_RemovePeer (peer : N) : M unit :=
  emit (EvRemovePeer peer) ;;;
  modify (fun rn => set_transport (transport_RemovePeer (transport rn) peer) rn).

Definition call_transport_Start : M unit :=
  emit EvTransportStart ;;;
  rn <- get ;;
  let '(t, e) := transport_Start (transport rn) in
  modify (set_transport t) ;;;
  check e.

Definition call_transport_Send (ms : list Message) : M unit :=
  emit (EvTransportSend ms) ;;;
  modify (fun rn => set_transport (transport_Send (transport rn) ms) rn).

Definition call_storage_Append (es : list Entry) : M unit :=
  emit (EvStorageAppend es) ;;;
  modify (fun rn => set_raftStorage (storage_Append (raftStorage rn) es) rn).

Definition call_CreateSnapshot (i : N) (cs : option ConfState) (data : bytes)
  : M RaftSnapshot :=
  emit (EvCreateSnapshot i cs data) ;;;
  rn <- get ;;
  let '(s, r) := storage_CreateSnapshot (raftStorage rn) i cs data in
  modify (set_raftStorage s) ;;;
  match r with
  | inl err => fail err
  | inr snap => ret snap
  end.

Definition call_Compact (i : N) : M unit :=
  emit (EvCompact i) ;;;
  rn <- get ;;
  let '(s, e) := storage_Compact (raftStorage rn) i in
  modify (set_raftStorage s) ;;;
  check e.

Definition call_ApplySnapshot (snap : RaftSnapshot) : M unit :=
  emit (EvApplySnapshot snap) ;;;
  rn <- get ;;
  let '(s, e) := storage_ApplySnapshot (raftStorage rn) snap in
  modify (set_raftStorage s) ;;;
  check e.

(** ** The rest of package canoe

    Methods of [*Node] that raft.go calls and that live in other files of
    the package.  Nothing is known of them here beyond their signatures. *)
Class Package : Type := {
  initPersistentStorage : M unit;
  restoreRaft : M unit;
  persistSnapshot : RaftSnapshot -> M unit;
  requestSelfAddition : M unit;
  requestRejoinCluster : M unit;
  requestSelfDeletion : M unit;
  deletePersistentData : M unit;
  (* how many further attempts backoff.RetryNotify makes before its budget
     is spent *)
  backoff_retries : InitializationBackoffArgs -> nat;
}.

Context `{P : Package}.

Definition call_pkg {A : Type} (fn : string) (m : M A) : M A :=
  emit (EvCall fn) ;;; m.

(** Modelled from the spec: [walDir] is defined outside raft.go.  The
    WAL lives in [<root>/wal] under the data root, and an empty data root
    means nothing is persisted (the empty path). *)
Definition walDir (rn : Node) : string :=
  if decide (dataDir rn = "") then "" else dataDir rn +:+ walDirExtension.

Definition shouldRejoinCluster (rn : Node) : bool :=
  wal_Exist (walDir rn) && bool_decide (walDir rn <> "").

(** ** Observers *)

(** The bodies of the two [filterFn] closures of raft.go, and a caller's
    filter.  The observation is always a [raftpb.Entry] here. *)
Definition runFilter (f : FilterFn) (entry : Entry) : M bool :=
  match f with
  | FilterUser g => ret (g entry)
  | FilterAddNode nodeID =>
      match Entry_Type entry with
      | EntryConfChange =>
          let cc := ConfChange_Unmarshal (Entry_Data entry) in
          call_ApplyConfChange cc ;;;
          match CC_Type cc with
          | ConfChangeAddNode => ret (nodeID =? CC_NodeID cc)
          | _ => ret false
          end
      | _ => ret false
      end
  | FilterRemoveNode nodeID =>
      match Entry_Type entry with
      | EntryConfChange =>
          let cc := ConfChange_Unmarshal (Entry_Data entry) in
          call_ApplyConfChange cc ;;;
          match CC_Type cc with
          | ConfChangeRemoveNode => ret (nodeID =? CC_NodeID cc)
          | _ => ret false
          end
      | _ => ret false
      end
  end.

(** A non-blocking send. *)
Definition trySend (entry : Entry) (o : Observer) : Observer :=
  match chan_room (obs_channel o) with
  | O => o
  | S room =>
      {| obs_id := obs_id o;
         obs_filter := obs_filter o;
         obs_channel := {| chan_room := room;
                           chan_got := chan_got (obs_channel o) ++ [entry] |} |}
  end.

Fixpoint observe_each (obs : list (N * Observer)) (entry : Entry) : M unit :=
  match obs with
  | [] => ret tt
  | (k, o) :: rest =>
      matched <- runFilter (obs_filter o) entry ;;
      (if matched
       then modify (fun rn => set_observers (<[k := trySend entry o]> (observers rn)) rn)
       else ret tt) ;;;
      observe_each rest entry
  end.

(** Modelled from the spec: [observe] is defined outside raft.go.  It
    goes through the registry as it is at the call, applies each
    observer's filter and, where the filter accepts, sends the entry to
    the observer's channel without blocking. *)
Definition observe (entry : Entry) : M unit :=
  emit (EvObserve entry) ;;;
  rn <- get ;;
  observe_each (map_to_list (observers rn)) entry.

(** Modelled from the spec: [NewObserver], [RegisterObserver] and
    [UnregisterObserver] are defined outside raft.go.  An observer is an
    id, a filter and a channel; the registry maps ids to observers. *)
Definition NewObserver (ch : ObsChan) (f : FilterFn) : M Observer :=
  rn <- get ;;
  modify (set_nextObserverID (nextObserverID rn + 1)) ;;;
  ret {| obs_id := nextObserverID rn + 1; obs_filter := f; obs_channel := ch |}.

Definition RegisterObserver (o : Observer) : M unit :=
  modify (fun rn => set_observers (<[obs_id o := o]> (observers rn)) rn).

Definition UnregisterObserver (o : Observer) (rn : Node) : Node :=
  set_observers (delete (obs_id o) (observers rn)) rn.

(** ** Committed entries *)

(** The [switch entry.Type] of the loop of [publishEntries]. *)
Definition publishEntry_switch (entry : Entry) : M unit :=
  match Entry_Type entry with
  | EntryNormal =>
      if (length (Entry_Data entry) =? 0)%nat
      then ret tt                                         (* break *)
      else call_fsm_Apply (Entry_Data entry)
  | EntryConfChange =>
      let cc := ConfChange_Unmarshal (Entry_Data entry) in
      confState <- call_ApplyConfChange cc ;;
      modify (set_lastConfState confState) ;;;
      match CC_Type cc with
      | ConfChangeAddNode =>
          if (0 <? length (CC_Context cc))%nat then
            match json_Unmarshal_ctx (CC_Context cc) with
            | inl err => fail err
            | inr ctxData =>
                let raftURL :=
                  "http://" +:+ IP ctxData +:+ ":" +:+ strconv.FormatInt (RaftPort ctxData) in
                rn <- get ;;
                (if negb (CC_NodeID cc =? id rn)
                 then call_AddPeer (CC_NodeID cc) [raftURL]
                 else ret tt) ;;;
                modify (fun rn => set_peerMap (<[CC_NodeID cc := ctxData]> (peerMap rn)) rn)
            end
          else ret tt
      | ConfChangeRemoveNode =>
          rn <- get ;;
          if CC_NodeID cc =? id rn then fail ErrorRemovedFromCluster
          else
            call_RemovePeer (CC_NodeID cc) ;;;
            modify (fun rn => set_peerMap (delete (CC_NodeID cc) (peerMap rn)) rn)
      | ConfChangeUpdateNode => ret tt
      end
  end.

(** One iteration of the loop: the switch, then [rn.observe(entry)]. *)
Definition publishEntry (entry : Entry) : M unit :=
  publishEntry_switch entry ;;;
  observe entry.

Fixpoint publishEntries (ents : list Entry) : M unit :=
  match ents with
  | [] => ret tt
  | entry :: rest => publishEntry entry ;;; publishEntries rest
  end.

(** ** Snapshot metadata *)

(** [for key, val := range p.Peers { tmpStruct.Peers[FormatUint(key, 10)] = val }]
    over the pairs in the order the iteration yields them. *)
Definition MarshalJSON_loop (kvs : list (N * confChangeNodeContext))
  : gmap string confChangeNodeContext :=
  foldl (fun tmp kv => <[strconv.FormatUint kv.1 := kv.2]> tmp) ∅ kvs.

Definition MarshalJSON (peers : gmap N confChangeNodeContext) : error + bytes :=
  json_Marshal_peers (MarshalJSON_loop (map_to_list peers)).

Fixpoint UnmarshalJSON_loop (kvs : list (string * confChangeNodeContext))
  (peers : gmap N confChangeNodeContext) : error + gmap N confChangeNodeContext :=
  match kvs with
  | [] => inr peers
  | (key, val) :: rest =>
      match strconv.ParseUint key with
      | inl err => inl err
      | inr convKey => UnmarshalJSON_loop rest (<[convKey := val]> peers)
      end
  end.

Definition UnmarshalJSON (data : bytes) : error + gmap N confChangeNodeContext :=
  match json_Unmarshal_peers data with
  | inl err => inl err
  | inr tmpPeers => UnmarshalJSON_loop (map_to_list tmpPeers) ∅
  end.

(** ** Snapshots *)

Definition createSnapAndCompact (force : bool) : M unit :=
  rn <- get ;;
  let index := raft_Status_Applied (node rn) in
  match storage_Snapshot (raftStorage rn) with
  | inl err => fail err
  | inr lastSnap =>
      if (index <=? SM_Index (Snap_Metadata lastSnap)) && negb force
      then ret tt
      else
        fsmData <- call_fsm_Snapshot ;;
        rn <- get ;;
        (* json.Marshal(finalSnap), which runs MarshalJSON on the metadata *)
        match MarshalJSON (peerMap rn) with
        | inl err => fail err
        | inr meta =>
            match json_Marshal_snapshot meta fsmData with
            | inl err => fail err
            | inr data =>
                raftSnap <- call_CreateSnapshot index (lastConfState rn) data ;;
                call_Compact (SM_Index (Snap_Metadata raftSnap)) ;;;
                call_pkg "persistSnapshot" (persistSnapshot raftSnap)
            end
        end
  end.

Fixpoint addPeers (ps : list (N * confChangeNodeContext)) : M unit :=
  match ps with
  | [] => ret tt
  | (peer, info) :: rest =>
      let raftURL :=
        "http://" +:+ IP info +:+ ":" +:+ strconv.FormatInt (RaftPort info) in
      call_AddPeer peer [raftURL] ;;;
      addPeers rest
  end.

(** [json.Unmarshal(raftSnap.Data, &snapStruct)] yields the raw metadata,
    if the document has any, and the data; the metadata then goes through
    [UnmarshalJSON]. *)
Definition restoreFSMFromSnapshot (raftSnap : RaftSnapshot) : M unit :=
  if raft_IsEmptySnap raftSnap then ret tt
  else
    match json_Unmarshal_snapshot (Snap_Data raftSnap) with
    | inl err => fail err
    | inr (metadata, data) =>
        match metadata with
        | None =>
            (* snapStruct.Metadata.Peers with a nil Metadata *)
            panic "invalid memory address or nil pointer dereference"
        | Some raw =>
            match UnmarshalJSON raw with
            | inl err => fail err
            | inr peers =>
                addPeers (map_to_list peers) ;;;
                call_fsm_Restore data
            end
        end
    end.

Definition processSnapshot (raftSnap : RaftSnapshot) : M unit :=
  restoreFSMFromSnapshot raftSnap ;;;
  call_pkg "persistSnapshot" (persistSnapshot raftSnap) ;;;
  call_ApplySnapshot raftSnap.
  (* rn.ReportSnapshot(rn.id, raft.SnapshotFinish) has an empty body *)

(** ** The Ready loop *)

(** What [snapTicker] holds: a ticker of the given period, or one that
    was stopped right after its creation and never fires. *)
Inductive Ticker : Type :=
  | NewTicker (d : Z)
  | StoppedTicker.

(** The case of the [select] that is taken in one turn of the loop. *)
Inductive SelectCase : Type :=
  | RecvStop                 (* <-rn.stopc *)
  | RecvTick                 (* <-ticker.C *)
  | RecvSnapTick             (* <-snapTicker.C *)
  | RecvReady (rd : Ready).  (* rd := <-rn.node.Ready() *)

(** The [if]/[else if]/[else] that sets [snapTicker]; [None] is the nil
    pointer the variable is declared with.  The middle branch evaluates
    [errors.New("Must not disable snapshotting when datadir unspecified")]
    as a statement: the value is dropped and nothing is assigned. *)
Definition scanReady_snapTicker (rn : Node) : option Ticker :=
  if (Interval (snapshotConfig rn) <=? 0)%Z && bool_decide (walDir rn = "")
  then Some StoppedTicker
  else if (Interval (snapshotConfig rn) <=? 0)%Z
  then let _dropped := ErrMustNotDisableSnapshotting in None
  else Some (NewTicker (Interval (snapshotConfig rn))).

Definition scanReady_ready (rd : Ready) : M unit :=
  rn <- get ;;
  match wal rn with
  | Some w =>
      emit (EvWalSave (Rd_HardState rd) (Rd_Entries rd)) ;;;
      modify (set_wal (Some (wal_Save w (Rd_HardState rd) (Rd_Entries rd))))
  | None => ret tt
  end ;;;
  call_storage_Append (Rd_Entries rd) ;;;
  call_transport_Send (Rd_Messages rd) ;;;
  (if negb (raft_IsEmptySnap (Rd_Snapshot rd))
   then processSnapshot (Rd_Snapshot rd)
   else ret tt) ;;;
  publishEntries (Rd_CommittedEntries rd) ;;;
  call_Advance.

(** The [for { select { ... } }]; when the cases run out the loop is
    waiting in its [select].  A stopped ticker delivers nothing, so a
    [RecvSnapTick] turn with one does nothing. *)
Fixpoint scanReady_loop (snapTicker : Ticker) (sel : list SelectCase) : M unit :=
  match sel with
  | [] => blocked
  | RecvStop :: _ => ret tt
  | RecvTick :: rest => call_Tick ;;; scanReady_loop snapTicker rest
  | RecvSnapTick :: rest =>
      match snapTicker with
      | StoppedTicker => scanReady_loop snapTicker rest
      | NewTicker _ => createSnapAndCompact false ;;; scanReady_loop snapTicker rest
      end
  | RecvReady rd :: rest => scanReady_ready rd ;;; scanReady_loop snapTicker rest
  end.

(** The deferred calls of [scanReady], in the order they run. *)
Definition scanReady_deferred (rn : Node) : Node :=
  let rn := set_running false rn in
  set_trace (trace rn ++ [EvWalClose]) (set_wal (wal_Close (wal rn)) rn).

Definition scanReady (sel : list SelectCase) : M unit :=
  defer scanReady_deferred
    (rn <- get ;;
     let snapTicker := scanReady_snapTicker rn in
     (* create initial snapshot *)
     ignore_error (createSnapAndCompact true) ;;;
     match snapTicker with
     | None =>
         (* the select evaluates snapTicker.C *)
         panic "invalid memory address or nil pointer dereference"
     | Some tk => scanReady_loop tk sel
     end).

(** ** Membership proposals *)

(** The case of the final [select] that is taken. *)
Inductive SelectOutcome : Type :=
  | Observed     (* <-observChan *)
  | TimedOut.    (* <-time.After(10 * time.Second) *)

Definition withType (t : ConfChangeType) (cc : ConfChange) : ConfChange :=
  {| CC_ID := CC_ID cc; CC_Type := t; CC_NodeID := CC_NodeID cc;
     CC_Context := CC_Context cc |}.

(** [sel] is the outcome of the wait, [None] while it is still waiting. *)
Definition proposePeerAddition (addReq : ConfChange) (async : bool)
  (sel : option SelectOutcome) : M unit :=
  let addReq := withType ConfChangeAddNode addReq in
  let observChan := {| chan_room := 0; chan_got := [] |} in
  let rest : M unit :=
    call_ProposeConfChange addReq ;;;
    if async then ret tt
    else
      match sel with
      | None => blocked
      | Some Observed => ret tt
      | Some TimedOut => fail ErrTimedOutWaitingForConfigChange
      end in
  if negb async then
    observer <- NewObserver observChan (FilterAddNode (CC_NodeID addReq)) ;;
    RegisterObserver observer ;;;
    defer (UnregisterObserver observer) rest
  else rest.

(** [sels] are the outcomes of the successive waits of the call and of
    the calls it makes to itself. *)
Fixpoint proposePeerDeletion (delReq : ConfChange) (async : bool)
  (sels : list SelectOutcome) : M unit :=
  let delReq := withType ConfChangeRemoveNode delReq in
  let observChan := {| chan_room := 0; chan_got := [] |} in
  let rest : M unit :=
    call_ProposeConfChange delReq ;;;
    if async then ret tt
    else
      match sels with
      | [] => blocked
      | Observed :: _ => ret tt
      | TimedOut :: sels' => proposePeerDeletion delReq async sels'
      end in
  if negb async then
    observer <- NewObserver observChan (FilterRemoveNode (CC_NodeID delReq)) ;;
    RegisterObserver observer ;;;
    defer (UnregisterObserver observer) rest
  else rest.

(** ** Construction *)

Record NodeConfig : Type := mkNodeConfig {
  NC_ID : N;
  NC_ClusterID : N;
  NC_FSM : fsmT;
  NC_RaftPort : Z;
  NC_APIPort : Z;
  NC_BootstrapPeers : list string;
  NC_BootstrapNode : bool;
  NC_DataDir : string;
  NC_InitBackoff : option InitializationBackoffArgs;
  NC_SnapshotConfig : option SnapshotConfig;
  NC_Logger : option string;
}.

Definition clearBootstrapPeers (args : NodeConfig) : NodeConfig :=
  {| NC_ID := NC_ID args; NC_ClusterID := NC_ClusterID args; NC_FSM := NC_FSM args;
     NC_RaftPort := NC_RaftPort args; NC_APIPort := NC_APIPort args;
     NC_BootstrapPeers := [];
     NC_BootstrapNode := NC_BootstrapNode args; NC_DataDir := NC_DataDir args;
     NC_InitBackoff := NC_InitBackoff args;
     NC_SnapshotConfig := NC_SnapshotConfig args; NC_Logger := NC_Logger args |}.

Definition defaultInitBackoff (args : NodeConfig) : NodeConfig :=
  {| NC_ID := NC_ID args; NC_ClusterID := NC_ClusterID args; NC_FSM := NC_FSM args;
     NC_RaftPort := NC_RaftPort args; NC_APIPort := NC_APIPort args;
     NC_BootstrapPeers := NC_BootstrapPeers args;
     NC_BootstrapNode := NC_BootstrapNode args; NC_DataDir := NC_DataDir args;
     NC_InitBackoff := Some DefaultInitializationBackoffArgs;
     NC_SnapshotConfig := NC_SnapshotConfig args; NC_Logger := NC_Logger args |}.

Definition defaultSnapshotConfig (args : NodeConfig) : NodeConfig :=
  {| NC_ID := NC_ID args; NC_ClusterID := NC_ClusterID args; NC_FSM := NC_FSM args;
     NC_RaftPort := NC_RaftPort args; NC_APIPort := NC_APIPort args;
     NC_BootstrapPeers := NC_BootstrapPeers args;
     NC_BootstrapNode := NC_BootstrapNode args; NC_DataDir := NC_DataDir args;
     NC_InitBackoff := NC_InitBackoff args;
     NC_SnapshotConfig := Some DefaultSnapshotConfig; NC_Logger := NC_Logger args |}.

(** [nonInitNode].  [args] is a pointer, so the caller sees the changes
    made to it: the updated config is returned with the node.  [uuid] is
    the value [Uint64UUID()] yields if it is called. *)
Definition nonInitNode (uuid : N) (args : NodeConfig) : NodeConfig * Res Node :=
  let args := if NC_BootstrapNode args then clearBootstrapPeers args else args in
  let args := match NC_InitBackoff args with
              | None => defaultInitBackoff args
              | Some _ => args
              end in
  let args := match NC_SnapshotConfig args with
              | None => defaultSnapshotConfig args
              | Some _ => args
              end in
  let rn :=
    {| node := raft_nil;
       raftStorage := storage_New;
       transport := transport_nil;
       bootstrapPeers := NC_BootstrapPeers args;
       bootstrapNode := NC_BootstrapNode args;
       peerMap := ∅;
       id := NC_ID args;
       cid := NC_ClusterID args;
       raftPort := NC_RaftPort args;
       apiPort := NC_APIPort args;
       raftConfig := None;
       started := false;
       initialized := false;
       running := false;
       fsm := NC_FSM args;
       observers := ∅;
       initBackoffArgs := default DefaultInitializationBackoffArgs (NC_InitBackoff args);
       snapshotConfig := default DefaultSnapshotConfig (NC_SnapshotConfig args);
       dataDir := NC_DataDir args;
       ss := None;
       wal := None;
       lastConfState := None;
       stopc := None;
       logger := match NC_Logger args with
                 | Some l => SuppliedLogger l
                 | None => DefaultStderrLogger
                 end;
       nextObserverID := 0;
       trace := [] |} in
  let rn := if id rn =? 0 then set_id uuid rn else rn in
  let rn := if cid rn =? 0 then set_cid 256 rn else rn in   (* 0x100 *)
  let rn :=
    set_raftConfig
      (Some {| Cfg_ID := id rn;
               ElectionTick := 10;
               HeartbeatTick := 1;
               MaxSizePerMsg := 1024 * 1024;
               MaxInflightMsgs := 256;
               CheckQuorum := true |}) rn in
  (args, Ok rn).

Definition NewNode (uuid : N) (args : NodeConfig) : NodeConfig * Res Node :=
  match nonInitNode uuid args with
  | (args', Ok rn) => (args', Ok rn)
  | (args', Fail err) => (args', Fail err)
  | (args', Panic s) => (args', Panic s)
  | (args', Blocked) => (args', Blocked)
  end.

(** ** Start *)

(** [backoff.RetryNotify(op, expBackoff, notify)]: [op] is tried again
    after each failure until the backoff budget is spent; the last error
    is returned.  The [notify] callback only logs and is left out. *)
Fixpoint RetryNotify (op : M unit) (retries : nat) : M unit :=
  fun rn =>
    match op rn with
    | (rn', Fail e) =>
        match retries with
        | O => (rn', Fail e)
        | S retries' => RetryNotify op retries' rn'
        end
    | r => r
    end.

Definition addSelfToCluster : M unit :=
  rn <- get ;;
  RetryNotify (call_pkg "requestSelfAddition" requestSelfAddition)
              (backoff_retries (initBackoffArgs rn)).

Definition selfRejoinCluster : M unit :=
  rn <- get ;;
  RetryNotify (call_pkg "requestRejoinCluster" requestRejoinCluster)
              (backoff_retries (initBackoffArgs rn)).

Fixpoint tickTimes (n : nat) : M unit :=
  match n with
  | O => ret tt
  | S n' => call_Tick ;;; tickTimes n'
  end.

Definition withRaftConfig {A : Type} (k : RaftConfig -> M A) : M A :=
  rn <- get ;;
  match raftConfig rn with
  | None => panic "invalid memory address or nil pointer dereference"
  | Some cfg => k cfg
  end.

Definition advanceTicksForElection : M unit :=
  withRaftConfig (fun cfg => tickTimes (Z.to_nat (ElectionTick cfg - 1))).

Definition attachTransport : M unit :=
  modify (fun rn => set_transport (transport_New (id rn) (cid rn) (ss rn)) rn).

(** The three [go func(rn *Node) {...}(rn)] statements only record that
    the goroutine was started. *)
Definition Start : M unit :=
  rn <- get ;;
  let walEnabled := bool_decide (walDir rn <> "") in
  let rejoinCluster := shouldRejoinCluster rn in
  if started rn then ret tt
  else
    modify (set_stopc (Some false)) ;;;
    (if walEnabled
     then call_pkg "initPersistentStorage" initPersistentStorage
     else ret tt) ;;;
    (if rejoinCluster then
       call_pkg "restoreRaft" restoreRaft ;;;
       withRaftConfig (fun cfg => modify (set_node (raft_RestartNode cfg)))
     else
       attachTransport ;;;
       call_transport_Start ;;;
       rn <- get ;;
       if bootstrapNode rn
       then withRaftConfig (fun cfg => modify (set_node (raft_StartNode cfg [id rn])))
       else withRaftConfig (fun cfg => modify (set_node (raft_StartNode cfg [])))) ;;;
    advanceTicksForElection ;;;
    modify (set_initialized true) ;;;
    emit (EvGo "scanReady") ;;;
    emit (EvGo "serveHTTP") ;;;
    emit (EvGo "serveRaft") ;;;
    modify (set_started true) ;;;
    (if rejoinCluster then selfRejoinCluster
     else
       rn <- get ;;
       if negb (bootstrapNode rn) then addSelfToCluster else ret tt) ;;;
    modify (set_running true).

(** ** Stop, Destroy and the small methods *)

Definition UniqueID (rn : Node) : N := id rn.

Definition IsRunning (rn : Node) : bool := running rn.

Definition isHealthy (rn : Node) : bool := running rn.

Definition canAlterPeer (rn : Node) : bool := isHealthy rn && initialized rn.

Definition IsIDRemoved (rn : Node) (peer : N) : bool := false.

(** [close(rn.stopc)] *)
Definition close_stopc : M unit :=
  rn <- get ;;
  match stopc rn with
  | None => panic "close of nil channel"
  | Some true => panic "close of closed channel"
  | Some false => modify (set_stopc (Some true))
  end.

Definition call_transport_Stop : M unit :=
  emit EvTransportStop ;;;
  modify (fun rn => set_transport (transport_Stop (transport rn)) rn).

(** [for rn.running { time.Sleep(200 * time.Millisecond) }]: the flag is
    cleared by the Ready loop on its way out, not by this call. *)
Definition await_not_running : M unit :=
  rn <- get ;;
  if running rn then blocked else ret tt.

Definition Stop : M unit :=
  close_stopc ;;;
  call_transport_Stop ;;;
  await_not_running ;;;
  modify (set_started false) ;;;
  modify (set_initialized false).

Definition removeSelfFromCluster : M unit :=
  rn <- get ;;
  RetryNotify (call_pkg "requestSelfDeletion" requestSelfDeletion)
              (backoff_retries (initBackoffArgs rn)).

Definition Destroy : M unit :=
  removeSelfFromCluster ;;;
  close_stopc ;;;
  call_transport_Stop ;;;
  await_not_running ;;;
  ignore_error (call_pkg "deletePersistentData" deletePersistentData) ;;;
  modify (set_running false) ;;;
  modify (set_started false) ;;;
  modify (set_initialized false).

Definition Propose (data : bytes) : M unit :=
  emit (EvPropose data) ;;;
  rn <- get ;;
  let '(r, e) := raft_Propose (node rn) data in
  modify (set_node r) ;;;
  check e.

Definition Process (m : Message) : M unit :=
  emit (EvStep m) ;;;
  rn <- get ;;
  let '(r, e) := raft_Step (node rn) m in
  modify (set_node r) ;;;
  check e.

(** The subtraction is on [uint64]. *)
Definition commitsSinceLastSnap : M N :=
  rn <- get ;;
  match storage_Snapshot (raftStorage rn) with
  | inl err => panic "Snapshot: this should NEVER err"
  | inr raftSnap =>
      match storage_LastIndex (raftStorage rn) with
      | inl err => panic "LastIndex: this should NEVER err"
      | inr curIndex =>
          ret ((curIndex + 2 ^ 64 - SM_Index (Snap_Metadata raftSnap)) mod 2 ^ 64)
      end
  end.

End Orchestrator.

Notation "x <- m ;; k" := (bind m (fun x => k))
  (at level 100, m at next level, right associativity, only parsing).
Notation "m ;;; k" := (bind m (fun _ => k))
  (at level 100, right associativity, only parsing).

(** ** Reading a trace *)

(** The payloads handed to the FSM's [Apply], in call order. *)
Definition fsmApplies (tr : list Event) : list LogData :=
  omap (fun ev => match ev with EvFsmApply d => Some d | _ => None end) tr.

(** The entries handed to [observe], in call order. *)
Definition observed (tr : list Event) : list Entry :=
  omap (fun ev => match ev with EvObserve e => Some e | _ => None end) tr.

(** The calls that change the transport's peer set. *)
Definition isPeerCall (ev : Event) : bool :=
  match ev with
  | EvAddPeer _ _ | EvRemovePeer _ => true
  | _ => false
  end.

Definition peerCalls (tr : list Event) : list Event :=
  filter (fun ev => isPeerCall ev = true) tr.

(** The proposals submitted to the Raft engine. *)
Definition proposals (tr : list Event) : list ConfChange :=
  omap (fun ev => match ev with EvProposeConfChange cc => Some cc | _ => None end) tr.

(** ** The properties' vocabulary *)

Section Vocabulary.

Context `{C : Collaborators}.

(** A normal entry with a payload: the entries [publishEntries] gives to
    the FSM. *)
Definition forFSM (e : Entry) : bool :=
  match Entry_Type e with
  | EntryNormal => negb (length (Entry_Data e) =? 0)%nat
  | EntryConfChange => false
  end.

Definition appliedPayloads (ents : list Entry) : list LogData :=
  Entry_Data <$> filter (fun e => forFSM e = true) ents.

(** A committed RemoveNode for the node [self]. *)
Definition isSelfRemoval (self : N) (e : Entry) : bool :=
  match Entry_Type e with
  | EntryConfChange =>
      let cc := ConfChange_Unmarshal (Entry_Data e) in
      match CC_Type cc with
      | ConfChangeRemoveNode => CC_NodeID cc =? self
      | _ => false
      end
  | EntryNormal => false
  end.

(** The PeerMap update that the specification attaches to one committed
    entry: AddNode with a context inserts the decoded record, RemoveNode
    of another node deletes, everything else leaves the map alone. *)
Definition peerMapStep (self : N) (m : gmap N confChangeNodeContext) (e : Entry)
  : gmap N confChangeNodeContext :=
  match Entry_Type e with
  | EntryConfChange =>
      let cc := ConfChange_Unmarshal (Entry_Data e) in
      match CC_Type cc with
      | ConfChangeAddNode =>
          if (0 <? length (CC_Context cc))%nat then
            match json_Unmarshal_ctx (CC_Context cc) with
            | inr ctxData => <[CC_NodeID cc := ctxData]> m
            | inl _ => m
            end
          else m
      | ConfChangeRemoveNode =>
          if CC_NodeID cc =? self then m else delete (CC_NodeID cc) m
      | ConfChangeUpdateNode => m
      end
  | EntryNormal => m
  end.

Definition peerMapAfter (self : N) (m : gmap N confChangeNodeContext)
  (ents : list Entry) : gmap N confChangeNodeContext :=
  foldl (peerMapStep self) m ents.

(** Events that only tell the Raft engine of a configuration change. *)
Definition isEngineEvent (ev : Event) : Prop :=
  match ev with
  | EvApplyConfChange _ => True
  | _ => False
  end.

(** The part of a node that running observer filters can change. *)
Definition touch (o : gmap N Observer) (r : raftT) (tr : list Event) (rn : Node) : Node :=
  set_observers o (set_node r (set_trace (trace rn ++ tr) rn)).

(** A peer entry with its key rendered as [MarshalJSON] renders it. *)
Definition renderKey (kv : N * confChangeNodeContext) : string * confChangeNodeContext :=
  (strconv.FormatUint kv.1, kv.2).

End Vocabulary.

(** ** A small instance of the collaborators

    An in-memory FSM that logs what it applies and rejects the payload
    [00]; a Raft engine that keeps its applied index and member list; a
    storage that keeps its last snapshot; a transport that is its peer
    table; a conf-change wire format of one type byte, one node-id byte
    and the context; a JSON stand-in that numbers the values of a type.
    It serves to run the definitions on concrete inputs. *)
Module Sim.

Fixpoint pos_to_bytes (p : positive) : bytes :=
  match p with
  | xH => []
  | xO q => x00 :: pos_to_bytes q
  | xI q => x01 :: pos_to_bytes q
  end.

Fixpoint bytes_to_pos (b : bytes) : positive :=
  match b with
  | [] => xH
  | x00 :: r => xO (bytes_to_pos r)
  | _ :: r => xI (bytes_to_pos r)
  end.

Definition rejected : error := ErrExternal "fsm: rejected".

Definition apply (f : list LogData) (d : LogData) : list LogData * option error :=
  if decide (d = [x00]) then (f, Some rejected) else (f ++ [d], None).

Record engine : Type := mkEngine { applied : N; members : list N }.

Definition applyConfChange (r : engine) (cc : ConfChange) : engine * option ConfState :=
  let ms :=
    match CC_Type cc with
    | ConfChangeAddNode => members r ++ [CC_NodeID cc]
    | ConfChangeRemoveNode => filter (fun n => n <> CC_NodeID cc) (members r)
    | ConfChangeUpdateNode => members r
    end in
  ({| applied := applied r; members := ms |}, Some {| CS_Nodes := ms |}).

Definition emptySnapshot : RaftSnapshot :=
  {| Snap_Data := [];
     Snap_Metadata := {| SM_ConfState := {| CS_Nodes := [] |}; SM_Index := 0; SM_Term := 0 |} |}.

Definition createSnapshot (s : RaftSnapshot) (i : N) (cs : option ConfState) (data : bytes)
  : RaftSnapshot * (error + RaftSnapshot) :=
  let snap :=
    {| Snap_Data := data;
       Snap_Metadata := {| SM_ConfState := default {| CS_Nodes := [] |} cs;
                           SM_Index := i; SM_Term := 0 |} |} in
  (snap, inr snap).

Definition unmarshalConfChange (b : bytes) : ConfChange :=
  match b with
  | t :: n :: ctx =>
      {| CC_ID := 0;
         CC_Type := match Byte.to_N t with
                    | 0 => ConfChangeAddNode
                    | 1 => ConfChangeRemoveNode
                    | _ => ConfChangeUpdateNode
                    end;
         CC_NodeID := Byte.to_N n;
         CC_Context := ctx |}
  | _ => {| CC_ID := 0; CC_Type := ConfChangeAddNode; CC_NodeID := 0; CC_Context := [] |}
  end.

Definition unmarshalCtx (b : bytes) : error + confChangeNodeContext :=
  match b with
  | x00 :: _ => inl (ErrExternal "json: invalid character")
  | _ => inr {| IP := string_of_list_byte b; RaftPort := 7001; APIPort := 8001 |}
  end.

Definition marshalPeers (t : gmap string confChangeNodeContext) : error + bytes :=
  inr (pos_to_bytes (encode t)).

Definition unmarshalPeers (b : bytes) : error + gmap string confChangeNodeContext :=
  match decode (bytes_to_pos b) with
  | Some t => inr t
  | None => inl (ErrExternal "json: cannot unmarshal")
  end.

Definition collab : Collaborators :=
  {| fsmT := list LogData;
     raftT := engine;
     storageT := RaftSnapshot;
     transportT := gmap N (list string);
     walT := list Entry;
     snapshotterT := unit;
     fsm_Apply := apply;
     fsm_Snapshot := fun f => (f, inr (concat f));
     fsm_Restore := fun f d => ([d], None);
     raft_nil := {| applied := 0; members := [] |};
     raft_StartNode := fun cfg peers => {| applied := 0; members := peers |};
     raft_RestartNode := fun cfg => {| applied := 0; members := [] |};
     raft_Tick := fun r => r;
     raft_ApplyConfChange := applyConfChange;
     raft_ProposeConfChange := fun r cc => (r, None);
     raft_Propose := fun r d => (r, None);
     raft_Step := fun r m => (r, None);
     raft_Status_Applied := applied;
     raft_Advance := fun r => r;
     raft_IsEmptySnap := fun s => SM_Index (Snap_Metadata s) =? 0;
     storage_New := emptySnapshot;
     storage_Snapshot := fun s => inr s;
     storage_LastIndex := fun s => inr (SM_Index (Snap_Metadata s));
     storage_Append := fun s es => s;
     storage_CreateSnapshot := createSnapshot;
     storage_Compact := fun s i => (s, None);
     storage_ApplySnapshot := fun s snap => (snap, None);
     transport_nil := ∅;
     transport_New := fun i c ss => ∅;
     transport_Start := fun t => (t, None);
     transport_Stop := fun t => t;
     transport_AddPeer := fun t peer urls => <[peer := urls]> t;
     transport_RemovePeer := fun t peer => delete peer t;
     transport_Send := fun t ms => t;
     wal_Exist := fun dir => false;
     wal_Save := fun w hs es => w ++ es;
     wal_Close := fun w => w;
     ConfChange_Unmarshal := unmarshalConfChange;
     json_Unmarshal_ctx := unmarshalCtx;
     json_Marshal_peers := marshalPeers;
     json_Unmarshal_peers := unmarshalPeers;
     json_Marshal_snapshot := fun meta data => inr (meta ++ data);
     json_Unmarshal_snapshot := fun b => inr (Some b, []) |}.

Definition pkg : Package (C := collab) :=
  {| initPersistentStorage := ret tt;
     restoreRaft := ret tt;
     persistSnapshot := fun _ => ret tt;
     requestSelfAddition := ret tt;
     requestRejoinCluster := ret tt;
     requestSelfDeletion := ret tt;
     deletePersistentData := ret tt;
     backoff_retries := fun _ => 3%nat |}.

(** A node as [NewNode] builds it for id 1, with no data directory. *)
Definition config : NodeConfig (C := collab) :=
  mkNodeConfig (C := collab) 1 0 [] 7001 8001 ["localhost:8002"] true "" None None None.

Definition node1 : Node (C := collab) :=
  match NewNode 99 config with
  | (_, Ok rn) => rn
  | _ => mkNode (C := collab) raft_nil storage_New transport_nil [] false ∅ 0 0 0 0 None
           false false false [] ∅ DefaultInitializationBackoffArgs
           DefaultSnapshotConfig "" None None None None DefaultStderrLogger 0 []
  end.

Definition normal (i : N) (d : bytes) : Entry :=
  {| Entry_Term := 1; Entry_Index := i; Entry_Type := EntryNormal; Entry_Data := d |}.

Definition confChange (i : N) (t n : Byte.byte) (ctx : bytes) : Entry :=
  {| Entry_Term := 1; Entry_Index := i; Entry_Type := EntryConfChange;
     Entry_Data := t :: n :: ctx |}.

(** The same node with a data directory and the default snapshot
    configuration. *)
Definition persistentNode : Node (C := collab) :=
  mkNode (C := collab) (node node1) (raftStorage node1) (transport node1)
    (bootstrapPeers node1) (bootstrapNode node1) (peerMap node1) (id node1)
    (cid node1) (raftPort node1) (apiPort node1) (raftConfig node1)
    (started node1) (initialized node1) (running node1) (fsm node1)
    (observers node1) (initBackoffArgs node1) (snapshotConfig node1)
    "/var/lib/canoe" (ss node1) (wal node1) (lastConfState node1)
    (stopc node1) (logger node1) (nextObserverID node1) (trace node1).

(** Node 1 after [Start]. *)
Definition startedNode : Node (C := collab) :=
  (Start (C := collab) (P := pkg) node1).1.

(** A configuration that names no id and no cluster id. *)
Definition anonymousConfig : NodeConfig (C := collab) :=
  mkNodeConfig (C := collab) 0 0 [] 7001 8001 ["localhost:8002"; "localhost:8003"]
    true "" None None None.

(** A peer map with the smallest and the largest id. *)
Definition peers : gmap N confChangeNodeContext :=
  {[ 1 := {| IP := "10.0.0.1"; RaftPort := 7001; APIPort := 8001 |};
     18446744073709551615 := {| IP := "10.0.0.2"; RaftPort := 7002; APIPort := 8002 |} ]}.

(** A conf-change request for node 2, as a caller fills it. *)
Definition request : ConfChange :=
  {| CC_ID := 7; CC_Type := ConfChangeUpdateNode; CC_NodeID := 2; CC_Context := [] |}.

(** Committed batches for node 1. *)
Definition removedThenNormal : list Entry :=
  [confChange 1 x01 x01 []; normal 2 [x61]].

Definition rejectedThenRemoved : list Entry :=
  [normal 1 [x00]; confChange 2 x01 x01 []].

Definition withRejected : list Entry :=
  [normal 1 [x61]; normal 2 [x00]; normal 3 [x62]].

Definition removedInMiddle : list Entry :=
  [normal 1 [x61]; confChange 2 x01 x01 []; normal 3 [x62]].

Definition mixed : list Entry :=
  [normal 1 [x61]; normal 2 []; confChange 3 x00 x02 [x31];
   confChange 4 x00 x03 [x32]; confChange 5 x01 x02 []; normal 6 [x62]].

(** Node 1 once its own addition has been committed: it is in its PeerMap. *)
Definition selfListed : Node (C := collab) :=
  (publishEntries (C := collab) [confChange 1 x00 x01 [x31]] node1).1.


(** Ready batches without snapshot. *)
Definition ready (committed : list Entry) : Ready :=
  {| Rd_HardState := {| HS_Term := 1; HS_Vote := 1; HS_Commit := 6 |};
     Rd_Entries := committed;
     Rd_Snapshot := emptySnapshot;
     Rd_CommittedEntries := committed;
     Rd_Messages := [{| Msg_To := 2; Msg_From := 1; Msg_Payload := [x61] |}] |}.

(** The configuration of node 1 with a data directory. *)
Definition persistentConfig : NodeConfig (C := collab) :=
  mkNodeConfig (C := collab) 1 0 [] 7001 8001 ["localhost:8002"] true "/var/lib/canoe"
    None None None.

(** A string-keyed peer document with a key that is not a decimal number. *)
Definition badKeys : gmap string confChangeNodeContext :=
  {[ "1" := {| IP := "10.0.0.1"; RaftPort := 7001; APIPort := 8001 |};
     "0x2" := {| IP := "10.0.0.2"; RaftPort := 7002; APIPort := 8002 |} ]}.

(** A Ready batch whose snapshot carries that document. *)
Definition badReady : Ready :=
  {| Rd_HardState := {| HS_Term := 1; HS_Vote := 1; HS_Commit := 6 |};
     Rd_Entries := [normal 6 [x61]];
     Rd_Snapshot :=
       {| Snap_Data := pos_to_bytes (encode badKeys);
          Snap_Metadata := {| SM_ConfState := {| CS_Nodes := [1] |}; SM_Index := 5;
                              SM_Term := 1 |} |};
     Rd_CommittedEntries := [normal 6 [x61]];
     Rd_Messages := [] |}.

(** Node 1 while a synchronous proposal to add node 2 is waiting. *)
Definition waitingNode : Node (C := collab) :=
  (RegisterObserver (C := collab)
     {| obs_id := 1; obs_filter := FilterAddNode 2;
        obs_channel := {| chan_room := 1; chan_got := [] |} |} node1).1.

(** Collaborators that fail: the FSM cannot be snapshotted and the
    transport cannot listen.  All else is as in [collab]. *)
Definition busy : error := ErrExternal "listen tcp: address already in use".

Definition faulty : Collaborators :=
  {| fsmT := list LogData;
     raftT := engine;
     storageT := RaftSnapshot;
     transportT := gmap N (list string);
     walT := list Entry;
     snapshotterT := unit;
     fsm_Apply := apply;
     fsm_Snapshot := fun f => (f, inl rejected);
     fsm_Restore := fun f d => ([d], None);
     raft_nil := {| applied := 0; members := [] |};
     raft_StartNode := fun cfg peers => {| applied := 0; members := peers |};
     raft_RestartNode := fun cfg => {| applied := 0; members := [] |};
     raft_Tick := fun r => r;
     raft_ApplyConfChange := applyConfChange;
     raft_ProposeConfChange := fun r cc => (r, None);
     raft_Propose := fun r d => (r, None);
     raft_Step := fun r m => (r, None);
     raft_Status_Applied := applied;
     raft_Advance := fun r => r;
     raft_IsEmptySnap := fun s => SM_Index (Snap_Metadata s) =? 0;
     storage_New := emptySnapshot;
     storage_Snapshot := fun s => inr s;
     storage_LastIndex := fun s => inr (SM_Index (Snap_Metadata s));
     storage_Append := fun s es => s;
     storage_CreateSnapshot := createSnapshot;
     storage_Compact := fun s i => (s, None);
     storage_ApplySnapshot := fun s snap => (snap, None);
     transport_nil := ∅;
     transport_New := fun i c ss => ∅;
     transport_Start := fun t => (t, Some busy);
     transport_Stop := fun t => t;
     transport_AddPeer := fun t peer urls => <[peer := urls]> t;
     transport_RemovePeer := fun t peer => delete peer t;
     transport_Send := fun t ms => t;
     wal_Exist := fun dir => false;
     wal_Save := fun w hs es => w ++ es;
     wal_Close := fun w => w;
     ConfChange_Unmarshal := unmarshalConfChange;
     json_Unmarshal_ctx := unmarshalCtx;
     json_Marshal_peers := marshalPeers;
     json_Unmarshal_peers := unmarshalPeers;
     json_Marshal_snapshot := fun meta data => inr (meta ++ data);
     json_Unmarshal_snapshot := fun b => inr (Some b, []) |}.

Definition faultyPkg : Package (C := faulty) :=
  {| initPersistentStorage := ret tt;
     restoreRaft := ret tt;
     persistSnapshot := fun _ => ret tt;
     requestSelfAddition := ret tt;
     requestRejoinCluster := ret tt;
     requestSelfDeletion := ret tt;
     deletePersistentData := ret tt;
     backoff_retries := fun _ => 3%nat |}.

(** Node 1 over the failing collaborators, as [NewNode] builds it. *)
Definition faultyNode : Node (C := faulty) :=
  match NewNode (C := faulty) 99
          (mkNodeConfig (C := faulty) 1 0 [] 7001 8001 ["localhost:8002"] true ""
             None None None) with
  | (_, Ok rn) => rn
  | _ => mkNode (C := faulty) raft_nil storage_New transport_nil [] false ∅ 0 0 0 0 None
           false false false [] ∅ DefaultInitializationBackoffArgs
           DefaultSnapshotConfig "" None None None None DefaultStderrLogger 0 []
  end.

End Sim.

(** ** Vocabulary of the further properties *)

Section MoreVocabulary.

Context {C : Collaborators}.

(** The fields of a node that committed-entry publication has no business
    with: everything but the FSM, the Raft engine, the transport, the
    PeerMap, [lastConfState], the observers and the trace. *)
Definition keptByPublish (rn rn' : Node) : Prop :=
  raftStorage rn' = raftStorage rn /\
  bootstrapPeers rn' = bootstrapPeers rn /\
  bootstrapNode rn' = bootstrapNode rn /\
  id rn' = id rn /\
  cid rn' = cid rn /\
  raftPort rn' = raftPort rn /\
  apiPort rn' = apiPort rn /\
  raftConfig rn' = raftConfig rn /\
  started rn' = started rn /\
  initialized rn' = initialized rn /\
  running rn' = running rn /\
  initBackoffArgs rn' = initBackoffArgs rn /\
  snapshotConfig rn' = snapshotConfig rn /\
  dataDir rn' = dataDir rn /\
  ss rn' = ss rn /\
  wal rn' = wal rn /\
  stopc rn' = stopc rn /\
  logger rn' = logger rn /\
  nextObserverID rn' = nextObserverID rn.

(** An event that is not a transport call about the node [self]. *)
Definition notSelfPeerCall (self : N) (ev : Event) : Prop :=
  match ev with
  | EvAddPeer i _ | EvRemovePeer i => i <> self
  | _ => True
  end.

(** The configuration changes handed to the Raft engine's
    [ApplyConfChange], in call order. *)
Definition engineCalls (tr : list Event) : list ConfChange :=
  omap (fun ev => match ev with EvApplyConfChange cc => Some cc | _ => None end) tr.

Definition isNormal (e : Entry) : Prop := Entry_Type e = EntryNormal.

(** The select cases other than a snapshot tick. *)
Definition notSnapTick (c : SelectCase) : bool :=
  match c with
  | RecvSnapTick => false
  | _ => true
  end.

Definition dropSnapTicks (sel : list SelectCase) : list SelectCase :=
  filter (fun c => notSnapTick c = true) sel.


(** [n] applications of the engine's [Tick]. *)
Fixpoint ticked (n : nat) (r : raftT) : raftT :=
  match n with
  | O => r
  | S n' => ticked n' (raft_Tick r)
  end.

(** The node after the first three statements of the Ready case of
    [scanReady]: the batch saved to the WAL (if there is one), appended to
    the Raft storage, and its messages handed to the transport. *)
Definition persistedAndSent (rd : Ready) (rn : Node) : Node :=
  let rn1 :=
    match wal rn with
    | Some w =>
        set_wal (Some (wal_Save w (Rd_HardState rd) (Rd_Entries rd)))
          (set_trace (trace rn ++ [EvWalSave (Rd_HardState rd) (Rd_Entries rd)]) rn)
    | None => rn
    end in
  let rn2 :=
    set_raftStorage (storage_Append (raftStorage rn1) (Rd_Entries rd))
      (set_trace (trace rn1 ++ [EvStorageAppend (Rd_Entries rd)]) rn1) in
  set_transport (transport_Send (transport rn2) (Rd_Messages rd))
    (set_trace (trace rn2 ++ [EvTransportSend (Rd_Messages rd)]) rn2).

(** The calls committed-entry publication can make. *)
Definition isPublishEvent (ev : Event) : Prop :=
  match ev with
  | EvFsmApply _ | EvApplyConfChange _ | EvAddPeer _ _ | EvRemovePeer _
  | EvObserve _ => True
  | _ => False
  end.

(** The filters that the synchronous proposals install while they wait,
    as opposed to a caller's own filter. *)
Definition isWaitFilter (f : FilterFn) : bool :=
  match f with
  | FilterAddNode _ | FilterRemoveNode _ => true
  | FilterUser _ => false
  end.

(** How many of the registered observers belong to a waiting proposal. *)
Definition waiting (obs : list (N * Observer)) : nat :=
  length (filter (fun ko => isWaitFilter (obs_filter ko.2) = true) obs).

(** The Raft engine after [n] applications of the same change. *)
Definition applyTimes (n : nat) (cc : ConfChange) (r : raftT) : raftT :=
  Nat.iter n (fun r => (raft_ApplyConfChange r cc).1) r.

End MoreVocabulary.

(** * Properties *)

(** ** Decimal rendering and parsing *)

Section StrconvFacts.

Import strconv.

Example FormatUint_max :
  FormatUint 18446744073709551615 = "18446744073709551615".
Proof. vm_compute. reflexivity. Qed.

Example FormatInt_negative : FormatInt (-45) = "-45".
Proof. vm_compute. reflexivity. Qed.

Example ParseUint_max : ParseUint "18446744073709551615" = inr 18446744073709551615.
Proof. vm_compute. reflexivity. Qed.

Example ParseUint_overflow : ParseUint "18446744073709551616" = inl ErrRange.
Proof. vm_compute. reflexivity. Qed.

Example ParseUint_leading_zeros : ParseUint "007" = inr 7.
Proof. vm_compute. reflexivity. Qed.

Example ParseUint_rejects : ParseUint "" = inl ErrSyntax /\ ParseUint "+1" = inl ErrSyntax.
Proof. vm_compute. done. Qed.

Lemma digitVal_digit (d : N) : d < 10 -> digitVal (digit d) = Some d.
Proof.
  intros Hd. unfold digitVal, digit.
  rewrite N_ascii_embedding by lia.
  replace (48 <=? 48 + d) with true by (symmetry; apply N.leb_le; lia).
  replace (48 + d <=? 57) with true by (symmetry; apply N.leb_le; lia).
  simpl. f_equal. lia.
Qed.

Lemma formatBits_S (fuel : nat) (u : N) (acc : string) :
  formatBits (S fuel) u acc =
  if u <? 10 then String (digit u) acc
  else formatBits fuel (u / 10) (String (digit (u mod 10)) acc).
Proof. reflexivity. Qed.

Lemma formatBits_acc_nonempty (fuel : nat) (u : N) (c : ascii) (acc : string) :
  formatBits fuel u (String c acc) <> EmptyString.
Proof.
  revert u c acc. induction fuel as [|fuel IH]; intros u c acc; [done|].
  rewrite formatBits_S. destruct (u <? 10); [done | apply IH].
Qed.

Lemma FormatUint_nonempty (u : N) : FormatUint u <> EmptyString.
Proof.
  unfold FormatUint. rewrite formatBits_S. destruct (u <? 10); [done|].
  apply formatBits_acc_nonempty.
Qed.

Lemma parseDigits_step (d n : N) (acc : string) :
  d < 10 -> n * 10 + d < 2 ^ 64 ->
  parseDigits (String (digit d) acc) n = parseDigits acc (n * 10 + d).
Proof.
  intros Hd Hn. cbn [parseDigits]. rewrite digitVal_digit by done.
  assert (Hcut : n < maxUint64 / 10 + 1).
  { unfold maxUint64. change (2 ^ 64) with 18446744073709551616 in *.
    change ((18446744073709551616 - 1) / 10 + 1) with 1844674407370955162. lia. }
  replace (maxUint64 / 10 + 1 <=? n) with false by (symmetry; apply N.leb_gt; lia).
  rewrite (N.mod_small (n * 10)) by lia.
  rewrite (N.mod_small (n * 10 + d)) by lia.
  replace (n * 10 + d <? n * 10) with false by (symmetry; apply N.ltb_ge; lia).
  replace (maxUint64 <? n * 10 + d) with false
    by (symmetry; apply N.ltb_ge; unfold maxUint64; lia).
  done.
Qed.

Lemma parseDigits_formatBits (fuel : nat) (u : N) (acc : string) :
  u < 2 ^ 64 -> u < 10 ^ N.of_nat fuel ->
  parseDigits (formatBits fuel u acc) 0 = parseDigits acc u.
Proof.
  revert u acc. induction fuel as [|fuel IH]; intros u acc Hu Hf.
  - simpl in Hf. assert (u = 0) as -> by lia. done.
  - rewrite formatBits_S. destruct (N.ltb_spec u 10) as [Hlt|Hge].
    + rewrite parseDigits_step by (clear Hf; lia). done.
    + pose proof (N.Div0.div_mod u 10) as Hdm.
      pose proof (N.mod_upper_bound u 10 ltac:(lia)) as Hm.
      assert (Hq : u / 10 < 10 ^ N.of_nat fuel).
      { rewrite Nat2N.inj_succ, N.pow_succ_r' in Hf.
        apply N.Div0.div_lt_upper_bound. lia. }
      clear Hf. revert Hq Hdm Hm.
      generalize (u / 10) (u mod 10). intros q r Hq Hdm Hm.
      rewrite IH by (done || lia).
      rewrite parseDigits_step by lia. f_equal. lia.
Qed.

Lemma ParseUint_FormatUint (u : N) :
  u < 2 ^ 64 -> ParseUint (FormatUint u) = inr u.
Proof.
  intros Hu. unfold ParseUint.
  pose proof (FormatUint_nonempty u) as Hne.
  destruct (FormatUint u) eqn:E; [done|]. rewrite <- E.
  unfold FormatUint. apply parseDigits_formatBits; [done|].
  change (10 ^ N.of_nat 20) with 100000000000000000000.
  change (2 ^ 64) with 18446744073709551616 in Hu. lia.
Qed.

Lemma FormatUint_inj (u v : N) :
  u < 2 ^ 64 -> v < 2 ^ 64 -> FormatUint u = FormatUint v -> u = v.
Proof.
  intros Hu Hv E.
  pose proof (ParseUint_FormatUint u Hu) as Pu.
  pose proof (ParseUint_FormatUint v Hv) as Pv.
  rewrite E in Pu. congruence.
Qed.

End StrconvFacts.

(** ** Committed-entry publication *)

Section PublishFacts.

Context `{C : Collaborators}.

Lemma fsmApplies_app (t1 t2 : list Event) :
  fsmApplies (t1 ++ t2) = fsmApplies t1 ++ fsmApplies t2.
Proof. apply omap_app. Qed.

Lemma observed_app (t1 t2 : list Event) :
  observed (t1 ++ t2) = observed t1 ++ observed t2.
Proof. apply omap_app. Qed.

Lemma peerCalls_app (t1 t2 : list Event) :
  peerCalls (t1 ++ t2) = peerCalls t1 ++ peerCalls t2.
Proof. apply filter_app. Qed.

Lemma engineEvents_silent (tr : list Event) :
  Forall isEngineEvent tr ->
  fsmApplies tr = [] /\ observed tr = [] /\ peerCalls tr = [].
Proof.
  induction 1 as [|ev tr Hev _ (IH1 & IH2 & IH3)]; [done|].
  destruct ev; done.
Qed.

Lemma touch_id (rn : Node) : touch (observers rn) (node rn) [] rn = rn.
Proof. destruct rn. unfold touch. cbn. by rewrite app_nil_r. Qed.

Lemma touch_touch o1 r1 tr1 o2 r2 tr2 (rn : Node) :
  touch o2 r2 tr2 (touch o1 r1 tr1 rn) = touch o2 r2 (tr1 ++ tr2) rn.
Proof. unfold touch. cbn. by rewrite app_assoc. Qed.

Lemma runFilter_spec (f : FilterFn) (e : Entry) (rn : Node) :
  exists r tr b,
    runFilter f e rn = (touch (observers rn) r tr rn, Ok b) /\ Forall isEngineEvent tr.
Proof.
  assert (Hid : forall b : bool,
             exists r tr b', (rn, Ok b) = (touch (observers rn) r tr rn, Ok b')
                             /\ Forall isEngineEvent tr).
  { intros b. exists (node rn), [], b. by rewrite touch_id. }
  destruct f as [nodeID|nodeID|g]; cbn [runFilter].
  - destruct (Entry_Type e); [apply Hid|].
    unfold bind, call_ApplyConfChange, emit, modify, get, ret, bind. cbn.
    destruct (raft_ApplyConfChange (node rn) _) as [r cs] eqn:E. cbn.
    destruct (CC_Type _); eexists r, [_], _; (split; [reflexivity|]);
      repeat constructor.
  - destruct (Entry_Type e); [apply Hid|].
    unfold bind, call_ApplyConfChange, emit, modify, get, ret, bind. cbn.
    destruct (raft_ApplyConfChange (node rn) _) as [r cs] eqn:E. cbn.
    destruct (CC_Type _); eexists r, [_], _; (split; [reflexivity|]);
      repeat constructor.
  - apply Hid.
Qed.

Lemma observe_each_spec (obs : list (N * Observer)) (e : Entry) (rn : Node) :
  exists o r tr,
    observe_each obs e rn = (touch o r tr rn, Ok tt) /\ Forall isEngineEvent tr.
Proof.
  revert rn. induction obs as [|[k ob] obs IH]; intros rn.
  - exists (observers rn), (node rn), []. by rewrite touch_id.
  - cbn [observe_each]. unfold bind at 1.
    destruct (runFilter_spec (obs_filter ob) e rn) as (r1 & tr1 & b & -> & Htr1).
    unfold bind at 1.
    set (rn1 := touch (observers rn) r1 tr1 rn).
    assert (exists o1,
               (if b then modify (fun rn => set_observers (<[k := trySend e ob]> (observers rn)) rn)
                else ret tt) rn1 = (touch o1 r1 tr1 rn, Ok tt)) as [o1 Hstep].
    { destruct b; eexists; reflexivity. }
    rewrite Hstep.
    destruct (IH (touch o1 r1 tr1 rn)) as (o2 & r2 & tr2 & -> & Htr2).
    rewrite touch_touch. eexists _, _, _. split; [reflexivity|].
    by apply Forall_app.
Qed.

Lemma observe_spec (e : Entry) (rn : Node) :
  exists o r tr,
    observe e rn = (touch o r (EvObserve e :: tr) rn, Ok tt) /\ Forall isEngineEvent tr.
Proof.
  unfold observe, bind, emit, modify, get. cbv beta iota.
  set (rn0 := set_trace (trace rn ++ [EvObserve e]) rn).
  destruct (observe_each_spec (map_to_list (observers rn0)) e rn0)
    as (o & r & tr & Heq & Htr).
  exists o, r, tr. split; [|done]. rewrite Heq.
  unfold touch, rn0. cbn. by rewrite <- app_assoc.
Qed.

Ltac run_monad :=
  unfold call_fsm_Apply, call_ApplyConfChange, call_AddPeer, call_RemovePeer,
    bind, emit, modify, get, ret, fail, check in *; cbn in *.

Lemma appliedPayloads_one (e : Entry) :
  appliedPayloads [e] = if forFSM e then [Entry_Data e] else [].
Proof.
  unfold appliedPayloads. rewrite filter_cons, filter_nil.
  destruct (forFSM e); done.
Qed.

Lemma appliedPayloads_app (l1 l2 : list Entry) :
  appliedPayloads (l1 ++ l2) = appliedPayloads l1 ++ appliedPayloads l2.
Proof. unfold appliedPayloads. by rewrite filter_app, fmap_app. Qed.

(** What the switch does to the parts of the node the properties read. *)
Lemma switch_spec (e : Entry) (rn rn1 : Node) (r1 : Res unit) :
  publishEntry_switch e rn = (rn1, r1) ->
  id rn1 = id rn /\
  observed (trace rn1) = observed (trace rn) /\
  fsmApplies (trace rn1) = fsmApplies (trace rn) ++ appliedPayloads [e] /\
  ((r1 = Ok tt /\ peerMap rn1 = peerMapStep (id rn) (peerMap rn) e
    /\ isSelfRemoval (id rn) e = false)
   \/ (exists err, r1 = Fail err /\ peerMap rn1 = peerMap rn
                   /\ peerCalls (trace rn1) = peerCalls (trace rn)
                   /\ transport rn1 = transport rn)).
Proof.
  rewrite appliedPayloads_one.
  unfold publishEntry_switch, peerMapStep, isSelfRemoval, forFSM.
  intros H. run_monad.
  repeat (case_match; run_monad; simplify_eq); cbn;
    rewrite ?fsmApplies_app, ?observed_app, ?peerCalls_app, ?app_nil_r; cbn;
    rewrite ?app_nil_r.
  all: try congruence.
  all: split_and!; try done; eauto 10.
Qed.

(** The switch on a RemoveNode of the node itself. *)
Lemma switch_self_removal (e : Entry) (rn : Node) :
  isSelfRemoval (id rn) e = true ->
  publishEntry_switch e rn =
    (let cc := ConfChange_Unmarshal (Entry_Data e) in
     set_lastConfState (raft_ApplyConfChange (node rn) cc).2
       (set_node (raft_ApplyConfChange (node rn) cc).1
          (set_trace (trace rn ++ [EvApplyConfChange cc]) rn)),
     Fail ErrorRemovedFromCluster).
Proof.
  unfold publishEntry_switch, isSelfRemoval. intros H. run_monad.
  destruct (Entry_Type e); [done|].
  destruct (raft_ApplyConfChange _ _) as [r cs]. run_monad.
  destruct (CC_Type _); try done. cbn. by rewrite H.
Qed.

(** The switch on an entry whose [Apply] fails. *)
Lemma switch_apply_error (e : Entry) (rn : Node) (f : fsmT) (err : error) :
  forFSM e = true ->
  fsm_Apply (fsm rn) (Entry_Data e) = (f, Some err) ->
  publishEntry_switch e rn =
    (set_fsm f (set_trace (trace rn ++ [EvFsmApply (Entry_Data e)]) rn), Fail err).
Proof.
  unfold publishEntry_switch, forFSM. intros H Hf. run_monad.
  destruct (Entry_Type e); [|done].
  destruct (length (Entry_Data e) =? 0)%nat; [done|].
  by rewrite Hf.
Qed.

Lemma publishEntry_spec (e : Entry) (rn rn' : Node) (r : Res unit) :
  publishEntry e rn = (rn', r) ->
  id rn' = id rn /\
  fsmApplies (trace rn') = fsmApplies (trace rn) ++ appliedPayloads [e] /\
  ((r = Ok tt
    /\ observed (trace rn') = observed (trace rn) ++ [e]
    /\ peerMap rn' = peerMapStep (id rn) (peerMap rn) e
    /\ isSelfRemoval (id rn) e = false)
   \/ (exists err, r = Fail err
                   /\ publishEntry_switch e rn = (rn', Fail err)
                   /\ observed (trace rn') = observed (trace rn)
                   /\ peerMap rn' = peerMap rn
                   /\ peerCalls (trace rn') = peerCalls (trace rn)
                   /\ transport rn' = transport rn)).
Proof.
  unfold publishEntry, bind.
  destruct (publishEntry_switch e rn) as [rn1 r1] eqn:Hsw.
  destruct (switch_spec _ _ _ _ Hsw) as (Hid & Hobs & Happ & Hcase).
  destruct Hcase as [(-> & Hpm & Hself) | (err & -> & Hpm & Hpc & Htr)].
  - destruct (observe_spec e rn1) as (o & r' & tr & -> & Htr).
    destruct (engineEvents_silent _ Htr) as (Ha & Ho & _).
    intros [= <- <-]. unfold touch.
    cbn [trace id peerMap transport set_observers set_node set_trace].
    rewrite fsmApplies_app, observed_app.
    change (EvObserve e :: tr) with ([EvObserve e] ++ tr).
    rewrite fsmApplies_app, observed_app, Ha, Ho.
    change (fsmApplies [EvObserve e]) with (@nil LogData).
    change (observed [EvObserve e]) with [e].
    rewrite !app_nil_r.
    split_and!; try done. left. by rewrite Hobs.
  - intros [= <- <-]. split_and!; try done. right. eauto 10.
Qed.

Lemma publishEntries_cons (e : Entry) (rest : list Entry) (rn : Node) :
  publishEntries (e :: rest) rn =
  match publishEntry e rn with
  | (rn1, Ok _) => publishEntries rest rn1
  | (rn1, Fail err) => (rn1, Fail err)
  | (rn1, Panic msg) => (rn1, Panic msg)
  | (rn1, Blocked) => (rn1, Blocked)
  end.
Proof. reflexivity. Qed.

Lemma publishEntries_app_ok (pre post : list Entry) (rn rn1 : Node) :
  publishEntries pre rn = (rn1, Ok tt) ->
  publishEntries (pre ++ post) rn = publishEntries post rn1.
Proof.
  revert rn. induction pre as [|e pre IH]; intros rn.
  - by intros [= ->].
  - rewrite <- app_comm_cons, !publishEntries_cons.
    destruct (publishEntry e rn) as [rn2 [[]| | |]]; try done. apply IH.
Qed.

Lemma publishEntries_app_stop (pre post : list Entry) (rn rn1 : Node) (err : error) :
  publishEntries pre rn = (rn1, Fail err) ->
  publishEntries (pre ++ post) rn = (rn1, Fail err).
Proof.
  revert rn. induction pre as [|e pre IH]; intros rn.
  - done.
  - rewrite <- app_comm_cons, !publishEntries_cons.
    destruct (publishEntry e rn) as [rn2 [[]| | |]]; try done. apply IH.
Qed.

(** A run that returns nil has gone through every entry. *)
Lemma publishEntries_ok_spec (ents : list Entry) (rn rn' : Node) :
  publishEntries ents rn = (rn', Ok tt) ->
  id rn' = id rn /\
  fsmApplies (trace rn') = fsmApplies (trace rn) ++ appliedPayloads ents /\
  observed (trace rn') = observed (trace rn) ++ ents /\
  peerMap rn' = peerMapAfter (id rn) (peerMap rn) ents /\
  Forall (fun e => isSelfRemoval (id rn) e = false) ents.
Proof.
  revert rn. induction ents as [|e ents IH]; intros rn.
  - intros [= <-]. unfold appliedPayloads. cbn. by rewrite !app_nil_r.
  - rewrite publishEntries_cons.
    destruct (publishEntry e rn) as [rn1 r1] eqn:He.
    destruct (publishEntry_spec _ _ _ _ He) as (Hid & Happ & Hcase).
    destruct Hcase as [(-> & Hobs & Hpm & Hself) | (err & -> & _)]; [|done].
    intros Hrest. destruct (IH _ Hrest) as (Hid' & Happ' & Hobs' & Hpm' & Hall).
    rewrite Hid in *. split_and!.
    + done.
    + rewrite Happ', Happ, <- app_assoc. f_equal.
      by rewrite <- appliedPayloads_app.
    + by rewrite Hobs', Hobs, <- app_assoc.
    + by rewrite Hpm', Hpm.
    + by constructor.
Qed.

(** A run that returns an error stopped at the first entry whose switch
    returned it. *)
Lemma publishEntries_fail_split (ents : list Entry) (rn rn' : Node) (err : error) :
  publishEntries ents rn = (rn', Fail err) ->
  exists pre x post rn1,
    ents = pre ++ x :: post /\
    publishEntries pre rn = (rn1, Ok tt) /\
    publishEntry_switch x rn1 = (rn', Fail err).
Proof.
  revert rn. induction ents as [|e ents IH]; intros rn; [done|].
  rewrite publishEntries_cons.
  destruct (publishEntry e rn) as [rn1 r1] eqn:He.
  destruct (publishEntry_spec _ _ _ _ He) as (_ & _ & Hcase).
  destruct Hcase as [(-> & _) | (err' & -> & Hsw & _)].
  - intros Hrest. destruct (IH _ Hrest) as (pre & x & post & rn2 & -> & Hpre & Hx).
    exists (e :: pre), x, post, rn2. split_and!; try done.
    by rewrite publishEntries_cons, He.
  - intros [= <- <-]. by exists [], e, ents, rn.
Qed.

(** A run that returns an error leaves the PeerMap as the entries before
    the failing one made it: the failing entry writes nothing. *)
Lemma publishEntries_failed_run_peerMap (ents : list Entry) (rn rn' : Node) (err : error) :
  publishEntries ents rn = (rn', Fail err) ->
  exists pre x post,
    ents = pre ++ x :: post /\
    peerMap rn' = peerMapAfter (id rn) (peerMap rn) pre.
Proof.
  intros H.
  destruct (publishEntries_fail_split _ _ _ _ H) as (pre & x & post & rn1 & -> & Hpre & Hx).
  exists pre, x, post. split; [done|].
  destruct (publishEntries_ok_spec _ _ _ Hpre) as (_ & _ & _ & Hpm & _).
  destruct (switch_spec _ _ _ _ Hx) as (_ & _ & _ & [(? & _) | (e & _ & Hsame & _)]);
    [done|].
  by rewrite Hsame.
Qed.

Lemma publishEntries_result (ents : list Entry) (rn : Node) :
  (exists rn', publishEntries ents rn = (rn', Ok tt)) \/
  (exists rn' err, publishEntries ents rn = (rn', Fail err)).
Proof.
  revert rn. induction ents as [|e ents IH]; intros rn; [left; by eexists|].
  rewrite publishEntries_cons.
  destruct (publishEntry e rn) as [rn1 r1] eqn:He.
  destruct (publishEntry_spec _ _ _ _ He) as (_ & _ & Hcase).
  destruct Hcase as [(-> & _) | (err' & -> & _)]; [apply IH | right; eauto].
Qed.

(** C9.  When [publishEntries] goes through a list of committed entries
    and returns nil, [observe] has been called exactly once for each entry
    of the list, in list order: for normal entries with a payload, for
    normal entries without one (which the FSM never sees) and for
    configuration changes alike. *)
Theorem publishEntries_observes_every_entry (ents : list Entry) (rn rn' : Node) :
  publishEntries ents rn = (rn', Ok tt) ->
  observed (trace rn') = observed (trace rn) ++ ents.
Proof.
  intros H. by destruct (publishEntries_ok_spec _ _ _ H) as (_ & _ & Hobs & _).
Qed.

(** C4.  When [publishEntries] goes through a list of committed entries
    and returns nil, the PeerMap it leaves is the PeerMap it started from,
    updated entry by entry in list order: a committed AddNode with a
    non-empty context inserts the decoded context under the node id, a
    committed RemoveNode of another node deletes that id, and nothing else
    in the run touches the map. *)
Theorem publishEntries_peerMap (ents : list Entry) (rn rn' : Node) :
  publishEntries ents rn = (rn', Ok tt) ->
  peerMap rn' = peerMapAfter (id rn) (peerMap rn) ents.
Proof.
  intros H. by destruct (publishEntries_ok_spec _ _ _ H) as (_ & _ & _ & Hpm & _).
Qed.

(** C1, as amended.  For every list of committed entries, the FSM's
    [Apply] is called exactly once, in list order, for each normal entry
    with a payload among the entries the loop reaches, and never for a
    normal entry without payload.  The loop reaches the whole list when
    [publishEntries] returns nil; otherwise it returns an error and has
    stopped at the first entry whose switch returned that error.  In
    particular, when an [Apply] call returns an error, [publishEntries]
    returns that error and the node is left as that call left it: no later
    entry is applied. *)
Theorem publishEntries_applies_reached_entries
  (ents : list Entry) (rn rn' : Node) (r : Res unit) :
  publishEntries ents rn = (rn', r) ->
  (exists reached rest,
      ents = reached ++ rest /\
      fsmApplies (trace rn') = fsmApplies (trace rn) ++ appliedPayloads reached /\
      ((r = Ok tt /\ rest = []) \/
       (exists err pre x rn1,
           r = Fail err /\ reached = pre ++ [x] /\
           publishEntries pre rn = (rn1, Ok tt) /\
           publishEntry_switch x rn1 = (rn', Fail err)))) /\
  (forall pre x post rn1 f err,
      ents = pre ++ x :: post ->
      publishEntries pre rn = (rn1, Ok tt) ->
      forFSM x = true ->
      fsm_Apply (fsm rn1) (Entry_Data x) = (f, Some err) ->
      r = Fail err /\
      rn' = set_fsm f (set_trace (trace rn1 ++ [EvFsmApply (Entry_Data x)]) rn1)).
Proof.
  intros H. split.
  - destruct (publishEntries_result ents rn) as [[rn2 H2] | (rn2 & err & H2)];
      rewrite H2 in H; injection H as <- <-.
    + exists ents, []. rewrite app_nil_r.
      destruct (publishEntries_ok_spec _ _ _ H2) as (_ & Happ & _).
      split_and!; [done | done | by left].
    + destruct (publishEntries_fail_split _ _ _ _ H2)
        as (pre & x & post & rn1 & -> & Hpre & Hx).
      exists (pre ++ [x]), post. rewrite <- app_assoc. split_and!; [done | |].
      * destruct (publishEntries_ok_spec _ _ _ Hpre) as (_ & Happ & _).
        destruct (switch_spec _ _ _ _ Hx) as (_ & _ & Happ' & _).
        by rewrite Happ', Happ, appliedPayloads_app, app_assoc.
      * right. by exists err, pre, x, rn1.
  - intros pre x post rn1 f err -> Hpre Hx Hf.
    rewrite (publishEntries_app_ok _ _ _ _ Hpre), publishEntries_cons in H.
    unfold publishEntry, bind in H.
    rewrite (switch_apply_error _ _ _ _ Hx Hf) in H. by injection H as <- <-.
Qed.

(** C2, as amended.  Let a list of committed entries contain a RemoveNode
    of the node itself.  Then [publishEntries] returns an error and what
    follows that entry has no effect at all: the outcome is the outcome on
    the list cut after it.  When the entries before it go through without
    error (so that it is the first of its kind), the error is
    [ErrorRemovedFromCluster], and neither that entry nor any later one is
    applied to the FSM, to the PeerMap or to the transport, or handed to
    the observers. *)
Theorem publishEntries_self_removal_stops
  (pre post : list Entry) (e : Entry) (rn : Node) :
  isSelfRemoval (id rn) e = true ->
  publishEntries (pre ++ e :: post) rn = publishEntries (pre ++ [e]) rn /\
  (exists rn' err, publishEntries (pre ++ e :: post) rn = (rn', Fail err)) /\
  (forall rn1,
      publishEntries pre rn = (rn1, Ok tt) ->
      exists rn',
        publishEntries (pre ++ e :: post) rn = (rn', Fail ErrorRemovedFromCluster) /\
        fsm rn' = fsm rn1 /\
        fsmApplies (trace rn') = fsmApplies (trace rn1) /\
        peerMap rn' = peerMap rn1 /\
        transport rn' = transport rn1 /\
        peerCalls (trace rn') = peerCalls (trace rn1) /\
        observers rn' = observers rn1 /\
        observed (trace rn') = observed (trace rn1)).
Proof.
  intros Hself.
  assert (Hok : forall rn1 tl,
             publishEntries pre rn = (rn1, Ok tt) ->
             publishEntries (pre ++ e :: tl) rn =
               (let cc := ConfChange_Unmarshal (Entry_Data e) in
                set_lastConfState (raft_ApplyConfChange (node rn1) cc).2
                  (set_node (raft_ApplyConfChange (node rn1) cc).1
                     (set_trace (trace rn1 ++ [EvApplyConfChange cc]) rn1)),
                Fail ErrorRemovedFromCluster)).
  { intros rn1 tl Hpre.
    destruct (publishEntries_ok_spec _ _ _ Hpre) as (Hid & _).
    rewrite (publishEntries_app_ok _ _ _ _ Hpre), publishEntries_cons.
    unfold publishEntry, bind. rewrite switch_self_removal; [done|].
    by rewrite Hid. }
  destruct (publishEntries_result pre rn) as [[rn1 Hpre] | (rn1 & err & Hpre)].
  - split_and!.
    + by rewrite !(Hok rn1).
    + rewrite (Hok rn1) by done. eauto.
    + intros rn2 Hpre2. rewrite Hpre in Hpre2. injection Hpre2 as <-.
      eexists. split; [by apply Hok|]. cbn.
      rewrite fsmApplies_app, peerCalls_app, observed_app. cbn.
      by rewrite !app_nil_r.
  - split_and!.
    + by rewrite !(publishEntries_app_stop _ _ _ _ _ Hpre).
    + rewrite (publishEntries_app_stop _ _ _ _ _ Hpre). eauto.
    + intros rn2 Hpre2. by rewrite Hpre in Hpre2.
Qed.

End PublishFacts.

(** ** Snapshots, Start and construction *)

Section NodeFacts.

Context {C : Collaborators} {P : @Package C}.

(** C5.  A call [createSnapAndCompact(false)] made when the Raft
    engine's applied index is at most the index of the last stored
    snapshot returns nil and leaves the node exactly as it was: the FSM's
    [Snapshot] is not called, no Raft snapshot is created or persisted,
    the log is not compacted. *)
Theorem createSnapAndCompact_unforced_noop (rn : Node) (lastSnap : RaftSnapshot) :
  storage_Snapshot (raftStorage rn) = inr lastSnap ->
  raft_Status_Applied (node rn) <= SM_Index (Snap_Metadata lastSnap) ->
  createSnapAndCompact false rn = (rn, Ok tt).
Proof.
  intros Hsnap Hle. unfold createSnapAndCompact, bind, get. cbv beta iota.
  rewrite Hsnap. apply N.leb_le in Hle. by rewrite Hle.
Qed.

(** C10.  [Start] on a node whose [started] flag is set returns nil at
    once and leaves the whole node as it was: flags, Raft engine, storage,
    transport, PeerMap and everything else. *)
Theorem Start_started_noop (rn : Node) :
  started rn = true -> Start rn = (rn, Ok tt).
Proof.
  intros H. unfold Start, bind, get. cbv beta iota zeta. by rewrite H.
Qed.

(** C8.  The node [NewNode] builds.  A zero [ID] is replaced by the
    generated UUID and any other [ID] is kept, so the node's id is
    non-zero as soon as the generated value is; a zero [ClusterID] is
    replaced by [0x100] and any other is kept; and a bootstrap node has an
    empty bootstrap-peer list, whatever list was supplied. *)
Theorem NewNode_identity (uuid : N) (args : NodeConfig) :
  exists args' rn,
    NewNode uuid args = (args', Ok rn) /\
    (NC_ID args = 0 -> id rn = uuid) /\
    (NC_ID args <> 0 -> id rn = NC_ID args) /\
    (uuid <> 0 -> id rn <> 0) /\
    (NC_ClusterID args = 0 -> cid rn = 256) /\
    (NC_ClusterID args <> 0 -> cid rn = NC_ClusterID args) /\
    (NC_BootstrapNode args = true -> bootstrapPeers rn = [] /\ NC_BootstrapPeers args' = []) /\
    (NC_BootstrapNode args = false -> bootstrapPeers rn = NC_BootstrapPeers args).
Proof.
  destruct args as [i c f rp ap bp bn dd ib sc lg].
  unfold NewNode, nonInitNode.
  destruct bn, ib, sc; cbn;
    destruct (N.eqb_spec i 0); cbn; destruct (N.eqb_spec c 0); cbn;
    (eexists _, _; split; [reflexivity|]); cbn.
  all: split_and!; intros; subst; done.
Qed.

End NodeFacts.

(** ** The Ready loop and membership proposals *)

Section LoopFacts.

Context {C : Collaborators} {P : @Package C}.

Lemma scanReady_snapTicker_disabled (rn : Node) :
  (Interval (snapshotConfig rn) <= 0)%Z -> walDir rn = "" ->
  scanReady_snapTicker rn = Some StoppedTicker.
Proof.
  intros Hi Hw. unfold scanReady_snapTicker.
  apply Z.leb_le in Hi. rewrite Hi. by rewrite bool_decide_eq_true_2.
Qed.

Lemma scanReady_snapTicker_nil (rn : Node) :
  (Interval (snapshotConfig rn) <= 0)%Z -> walDir rn <> "" ->
  scanReady_snapTicker rn = None.
Proof.
  intros Hi Hw. unfold scanReady_snapTicker.
  apply Z.leb_le in Hi. rewrite Hi. by rewrite bool_decide_eq_false_2.
Qed.

(** With a stopped ticker the snapshot case of the select does nothing. *)
Lemma scanReady_loop_stopped_ticker (sel : list SelectCase) (rn : Node) :
  scanReady_loop StoppedTicker (RecvSnapTick :: sel) rn =
  scanReady_loop StoppedTicker sel rn.
Proof. reflexivity. Qed.

(** With snapshots disabled and a data directory, [scanReady] never
    returns the configuration error it builds, nor any other error, and
    never returns nil either: it ends in a panic, unless the initial
    snapshot does not come back. *)
Lemma scanReady_nil_ticker (sel : list SelectCase) (rn : Node) :
  (Interval (snapshotConfig rn) <= 0)%Z -> walDir rn <> "" ->
  (exists msg, (scanReady sel rn).2 = Panic msg) \/ (scanReady sel rn).2 = Blocked.
Proof.
  intros Hi Hw. unfold scanReady, defer, bind, get. cbv beta iota.
  rewrite (scanReady_snapTicker_nil _ Hi Hw).
  unfold ignore_error.
  destruct (createSnapAndCompact true rn) as [rn1 [[]|e|msg|]]; cbn; eauto.
Qed.

Lemma withType_idem (t : ConfChangeType) (cc : ConfChange) :
  withType t (withType t cc) = withType t cc.
Proof. reflexivity. Qed.

Lemma proposals_app (t1 t2 : list Event) :
  proposals (t1 ++ t2) = proposals t1 ++ proposals t2.
Proof. apply omap_app. Qed.

Ltac run_proposal :=
  unfold NewObserver, RegisterObserver, call_ProposeConfChange, defer, check, bind,
    emit, modify, get, ret, fail, blocked;
  cbv beta iota zeta;
  cbn [node trace set_trace set_observers set_nextObserverID set_node
       UnregisterObserver fst snd].

(** How a synchronous [proposePeerDeletion] can end. *)
Lemma proposePeerDeletion_spec (req : ConfChange) (sels : list SelectOutcome)
  (rn rn' : Node) (r : Res unit) :
  proposePeerDeletion req false sels rn = (rn', r) ->
  match r with
  | Ok _ =>
      exists n rest,
        sels = replicate n TimedOut ++ Observed :: rest /\
        proposals (trace rn') =
          proposals (trace rn) ++ replicate (S n) (withType ConfChangeRemoveNode req)
  | Fail e =>
      exists n rest r0,
        sels = replicate n TimedOut ++ rest /\
        (raft_ProposeConfChange r0 (withType ConfChangeRemoveNode req)).2 = Some e /\
        proposals (trace rn') =
          proposals (trace rn) ++ replicate (S n) (withType ConfChangeRemoveNode req)
  | Blocked =>
      exists n,
        sels = replicate n TimedOut /\
        proposals (trace rn') =
          proposals (trace rn) ++ replicate (S n) (withType ConfChangeRemoveNode req)
  | Panic _ => False
  end.
Proof.
  revert req rn rn' r.
  induction sels as [|s sels IH]; intros req rn rn' r;
    cbn [proposePeerDeletion negb]; run_proposal;
    destruct (raft_ProposeConfChange (node rn) (withType ConfChangeRemoveNode req))
      as [r1 [e|]] eqn:Hp; run_proposal.
  - intros [= <- <-]. exists 0%nat, [], (node rn). rewrite Hp.
    cbn. by rewrite proposals_app.
  - intros [= <- <-]. exists 0%nat. cbn. by rewrite proposals_app.
  - intros [= <- <-]. exists 0%nat, (s :: sels), (node rn). rewrite Hp.
    cbn. by rewrite proposals_app.
  - destruct s.
    + intros [= <- <-]. exists 0%nat, sels. cbn. by rewrite proposals_app.
    + match goal with
      | |- context [proposePeerDeletion ?q false sels ?st] =>
          destruct (proposePeerDeletion q false sels st) as [rn4 r4] eqn:Hrec
      end.
      apply IH in Hrec. rewrite withType_idem in Hrec.
      cbn [trace set_trace set_observers set_nextObserverID set_node] in Hrec.
      rewrite proposals_app in Hrec.
      change (proposals [EvProposeConfChange (withType ConfChangeRemoveNode req)])
        with [withType ConfChangeRemoveNode req] in Hrec.
      destruct r4 as [[]|e|msg|]; intros [= <- <-]; run_proposal.
      * destruct Hrec as (n & rest & -> & Htr). exists (S n), rest.
        split; [done|]. rewrite Htr, <- app_assoc. done.
      * destruct Hrec as (n & rest & r0 & -> & He & Htr). exists (S n), rest, r0.
        split_and!; [done|done|]. rewrite Htr, <- app_assoc. done.
      * done.
      * destruct Hrec as (n & -> & Htr). exists (S n).
        split; [done|]. rewrite Htr, <- app_assoc. done.
Qed.

(** C6.  Synchronous membership proposals and the 10-second wait.  When
    the wait times out, [proposePeerAddition] returns an error; if the
    proposal went through it is the time-out error (and the call returns
    nil if the commit is observed).
    [proposePeerDeletion] has no time-out outcome: it returns nil only
    when a wait ends with the matching commit observed, and an error only
    when that error came out of [ProposeConfChange]; in between it has
    proposed the deletion once per time-out and once more.  So, as long as
    the proposals go through, after any number of time-outs in a row it
    has proposed again and has not returned, and it returns nil as soon as
    the commit is observed. *)
Theorem proposals_on_timeout (req : ConfChange) (rn : Node) :
  (exists e, (proposePeerAddition req false (Some TimedOut) rn).2 = Fail e) /\
  ((raft_ProposeConfChange (node rn) (withType ConfChangeAddNode req)).2 = None ->
   (proposePeerAddition req false (Some TimedOut) rn).2
     = Fail ErrTimedOutWaitingForConfigChange /\
   (proposePeerAddition req false (Some Observed) rn).2 = Ok tt) /\
  (forall sels rn' r,
      proposePeerDeletion req false sels rn = (rn', r) ->
      match r with
      | Ok _ =>
          exists n rest,
            sels = replicate n TimedOut ++ Observed :: rest /\
            proposals (trace rn') =
              proposals (trace rn) ++ replicate (S n) (withType ConfChangeRemoveNode req)
      | Fail e =>
          exists n rest r0,
            sels = replicate n TimedOut ++ rest /\
            (raft_ProposeConfChange r0 (withType ConfChangeRemoveNode req)).2 = Some e /\
            proposals (trace rn') =
              proposals (trace rn) ++ replicate (S n) (withType ConfChangeRemoveNode req)
      | Blocked =>
          exists n,
            sels = replicate n TimedOut /\
            proposals (trace rn') =
              proposals (trace rn) ++ replicate (S n) (withType ConfChangeRemoveNode req)
      | Panic _ => False
      end) /\
  ((forall r cc, (raft_ProposeConfChange r cc).2 = None) ->
   forall n,
     (proposePeerDeletion req false (replicate n TimedOut) rn).2 = Blocked /\
     proposals (trace (proposePeerDeletion req false (replicate n TimedOut) rn).1) =
       proposals (trace rn) ++ replicate (S n) (withType ConfChangeRemoveNode req) /\
     forall rest,
       (proposePeerDeletion req false (replicate n TimedOut ++ Observed :: rest) rn).2
         = Ok tt).
Proof.
  split_and!.
  - unfold proposePeerAddition. cbn [negb]. run_proposal.
    destruct (raft_ProposeConfChange _ _) as [r1 [e|]]; run_proposal; eauto.
  - intros Hp.
    assert (Hadd : forall sel,
               (proposePeerAddition req false (Some sel) rn).2 =
               match sel with
               | Observed => Ok tt
               | TimedOut => Fail ErrTimedOutWaitingForConfigChange
               end).
    { intros sel. unfold proposePeerAddition. cbn [negb]. run_proposal.
      destruct (raft_ProposeConfChange _ _) as [r1 [e|]]; [done|].
      run_proposal. by destruct sel. }
    split; apply Hadd.
  - intros sels rn' r. apply proposePeerDeletion_spec.
  - intros Hprop n.
    assert (Hnofail : forall sels e, (proposePeerDeletion req false sels rn).2 <> Fail e).
    { intros sels e Hr.
      destruct (proposePeerDeletion req false sels rn) as [rn' r] eqn:Hrun.
      cbn in Hr. subst r. apply proposePeerDeletion_spec in Hrun.
      destruct Hrun as (m & rest & r0 & _ & He & _). by rewrite Hprop in He. }
    assert (Hnot : forall m k tl,
               replicate m TimedOut <> replicate k TimedOut ++ Observed :: tl).
    { intros m k tl Heq.
      assert (Hin : Observed ∈ replicate m TimedOut).
      { rewrite Heq. apply elem_of_app. right. constructor. }
      by apply elem_of_replicate in Hin as [? _]. }
    assert (Hrun : forall sels,
               exists rn' r, proposePeerDeletion req false sels rn = (rn', r) /\
                             (proposePeerDeletion req false sels rn).2 = r).
    { intros sels. destruct (proposePeerDeletion req false sels rn) as [rn' r].
      by exists rn', r. }
    split_and!.
    + destruct (Hrun (replicate n TimedOut)) as (rn' & r & Heq & Hr).
      rewrite Hr. pose proof (proposePeerDeletion_spec _ _ _ _ _ Heq) as Hspec.
      destruct r as [[]|e|msg|]; [|by destruct (Hnofail (replicate n TimedOut) e)|done|done].
      destruct Hspec as (m & rest & Hs & _). by destruct (Hnot n m rest).
    + destruct (Hrun (replicate n TimedOut)) as (rn' & r & Heq & Hr).
      rewrite Heq. pose proof (proposePeerDeletion_spec _ _ _ _ _ Heq) as Hspec.
      destruct r as [[]|e|msg|]; [|by destruct (Hnofail (replicate n TimedOut) e)|done|].
      * destruct Hspec as (m & rest & Hs & _). by destruct (Hnot n m rest).
      * destruct Hspec as (m & Hs & Htr).
        apply (f_equal length) in Hs. rewrite !length_replicate in Hs. by subst m.
    + intros rest.
      destruct (Hrun (replicate n TimedOut ++ Observed :: rest)) as (rn' & r & Heq & Hr).
      rewrite Hr. pose proof (proposePeerDeletion_spec _ _ _ _ _ Heq) as Hspec.
      destruct r as [[]|e|msg|];
        [done|by destruct (Hnofail (replicate n TimedOut ++ Observed :: rest) e)|done|].
      destruct Hspec as (m & Hs & _). by destruct (Hnot m n rest).
Qed.

End LoopFacts.

(** ** Snapshot metadata *)

Section CodecFacts.

Context {C : Collaborators}.

Lemma foldl_insert_list_to_map `{Countable K} {V : Type} (l : list (K * V)) :
  NoDup l.*1 ->
  foldl (fun (m : gmap K V) kv => <[kv.1 := kv.2]> m) ∅ l = list_to_map l.
Proof.
  induction l as [|[i x] l IH] using rev_ind; [done|].
  rewrite fmap_app. intros (Hnd & Hdisj & _)%NoDup_app.
  rewrite foldl_app. cbn. rewrite IH by done.
  rewrite list_to_map_snoc; [done|].
  intros Hin. apply (Hdisj i Hin). cbn. constructor.
Qed.

Lemma renderKey_NoDup (l : list (N * confChangeNodeContext)) :
  NoDup l.*1 -> Forall (fun kv => kv.1 < 2 ^ 64) l -> NoDup (renderKey <$> l).*1.
Proof.
  intros Hnd Hall.
  replace ((renderKey <$> l).*1) with (strconv.FormatUint <$> l.*1)
    by (rewrite <- !list_fmap_compose; done).
  apply NoDup_fmap_2_strong; [|done].
  intros x y [[x1 x2] [-> Hx]]%list_elem_of_fmap [[y1 y2] [-> Hy]]%list_elem_of_fmap.
  rewrite Forall_forall in Hall.
  apply FormatUint_inj; [apply (Hall _ Hx) | apply (Hall _ Hy)].
Qed.

(** The string-keyed map built by the loop of [MarshalJSON], whatever the
    order in which the map iteration yields the pairs. *)
Lemma MarshalJSON_loop_list_to_map (kvs : list (N * confChangeNodeContext)) :
  NoDup kvs.*1 -> Forall (fun kv => kv.1 < 2 ^ 64) kvs ->
  MarshalJSON_loop kvs = list_to_map (renderKey <$> kvs).
Proof.
  intros Hnd Hall. unfold MarshalJSON_loop.
  rewrite <- (foldl_insert_list_to_map (renderKey <$> kvs))
    by (by apply renderKey_NoDup).
  by rewrite foldl_fmap.
Qed.

Lemma MarshalJSON_loop_order (m : gmap N confChangeNodeContext)
  (kvs : list (N * confChangeNodeContext)) :
  map_Forall (fun k _ => k < 2 ^ 64) m ->
  kvs ≡ₚ map_to_list m ->
  MarshalJSON_loop kvs = MarshalJSON_loop (map_to_list m).
Proof.
  intros Hm Hperm.
  assert (Hall : Forall (fun kv => kv.1 < 2 ^ 64) (map_to_list m)).
  { apply map_Forall_to_list in Hm. eapply Forall_impl; [exact Hm|]. by intros []. }
  pose proof (NoDup_fst_map_to_list m) as Hnd.
  rewrite !MarshalJSON_loop_list_to_map; try done.
  - apply list_to_map_proper; [|by rewrite Hperm].
    apply renderKey_NoDup; by rewrite Hperm.
  - by rewrite Hperm.
  - by rewrite Hperm.
Qed.

Lemma UnmarshalJSON_loop_rendered (l : list (N * confChangeNodeContext))
  (acc : gmap N confChangeNodeContext) :
  Forall (fun kv => kv.1 < 2 ^ 64) l ->
  UnmarshalJSON_loop (renderKey <$> l) acc
  = inr (foldl (fun m kv => <[kv.1 := kv.2]> m) acc l).
Proof.
  revert acc. induction l as [|[k v] l IH]; intros acc Hall; [done|].
  apply Forall_cons in Hall as [Hk Hall]. cbn in Hk.
  cbn [fmap list_fmap renderKey UnmarshalJSON_loop fst snd].
  rewrite ParseUint_FormatUint by done. by rewrite IH.
Qed.

(** The loop of [UnmarshalJSON] over the string-keyed map, whatever the
    order in which the map iteration yields the pairs. *)
Lemma UnmarshalJSON_loop_order (m : gmap N confChangeNodeContext)
  (kvs : list (string * confChangeNodeContext)) :
  map_Forall (fun k _ => k < 2 ^ 64) m ->
  kvs ≡ₚ map_to_list (MarshalJSON_loop (map_to_list m)) ->
  UnmarshalJSON_loop kvs ∅ = inr m.
Proof.
  intros Hm Hperm.
  assert (Hall : Forall (fun kv => kv.1 < 2 ^ 64) (map_to_list m)).
  { apply map_Forall_to_list in Hm. eapply Forall_impl; [exact Hm|]. by intros []. }
  pose proof (NoDup_fst_map_to_list m) as Hnd.
  rewrite MarshalJSON_loop_list_to_map in Hperm by done.
  rewrite map_to_list_to_map in Hperm by (by apply renderKey_NoDup).
  apply Permutation_map_inv in Hperm as (l & -> & Hl).
  assert (Hall' : Forall (fun kv => kv.1 < 2 ^ 64) l) by (by rewrite <- Hl).
  rewrite (UnmarshalJSON_loop_rendered l ∅ Hall'). f_equal.
  rewrite foldl_insert_list_to_map by (by rewrite <- Hl).
  transitivity (list_to_map (map_to_list m) : gmap N confChangeNodeContext);
    [|apply list_to_map_to_list].
  apply list_to_map_proper; [by rewrite <- Hl | done].
Qed.

(** C7.  Snapshot metadata round trip.  For a peer map [m] keyed by
    64-bit ids, [MarshalJSON] hands to the JSON encoder a string-keyed map
    whose keys are exactly the decimal renderings of the ids of [m], each
    with the record [m] has for that id; and if the JSON encoder and
    decoder carry that map through the bytes [b], then [UnmarshalJSON] of
    what [MarshalJSON] returned is [m] again. *)
Theorem snapshotMetadata_roundtrip (m : gmap N confChangeNodeContext) (b : bytes) :
  map_Forall (fun k _ => k < 2 ^ 64) m ->
  json_Marshal_peers (MarshalJSON_loop (map_to_list m)) = inr b ->
  json_Unmarshal_peers b = inr (MarshalJSON_loop (map_to_list m)) ->
  MarshalJSON m = inr b /\
  (forall s v,
      MarshalJSON_loop (map_to_list m) !! s = Some v <->
      exists k, s = strconv.FormatUint k /\ m !! k = Some v) /\
  UnmarshalJSON b = inr m.
Proof.
  intros Hm Henc Hdec.
  assert (Hall : Forall (fun kv => kv.1 < 2 ^ 64) (map_to_list m)).
  { apply map_Forall_to_list in Hm. eapply Forall_impl; [exact Hm|]. by intros []. }
  pose proof (NoDup_fst_map_to_list m) as Hnd.
  split_and!.
  - done.
  - intros s v. rewrite MarshalJSON_loop_list_to_map by done.
    rewrite <- elem_of_list_to_map by (by apply renderKey_NoDup).
    rewrite list_elem_of_fmap. split.
    + intros ([k v'] & [= -> ->] & Hin). exists k. split; [done|].
      by apply elem_of_map_to_list.
    + intros (k & -> & Hk). exists (k, v). split; [done|].
      by apply elem_of_map_to_list.
  - unfold UnmarshalJSON. rewrite Hdec. by apply UnmarshalJSON_loop_order.
Qed.

End CodecFacts.

(** *** Runs on the small instance *)

(** A run is known by its result once the result has been computed. *)
Lemma run_returns {A B : Type} (p : A * B) (b : B) : p.2 = b -> p = (p.1, b).
Proof. destruct p. cbn. by intros ->. Qed.

Lemma publishEntries_observes_every_entry_witness :
  observed (trace (publishEntries (C := Sim.collab) Sim.mixed Sim.node1).1) =
  observed (trace Sim.node1) ++ Sim.mixed.
Proof.
  apply (publishEntries_observes_every_entry (C := Sim.collab) Sim.mixed Sim.node1).
  apply run_returns. vm_compute. reflexivity.
Defined.

Lemma publishEntries_peerMap_witness :
  peerMap (publishEntries (C := Sim.collab) Sim.mixed Sim.node1).1 =
  peerMapAfter (C := Sim.collab) (id Sim.node1) (peerMap Sim.node1) Sim.mixed.
Proof.
  apply (publishEntries_peerMap (C := Sim.collab) Sim.mixed Sim.node1).
  apply run_returns. vm_compute. reflexivity.
Defined.

(** What the mixed batch does: two payloads applied, three changes to the
    transport's peers. *)
Example mixed_run_calls :
  fsmApplies (trace (publishEntries (C := Sim.collab) Sim.mixed Sim.node1).1)
    = [[x61]; [x62]] /\
  peerCalls (trace (publishEntries (C := Sim.collab) Sim.mixed Sim.node1).1)
    = [EvAddPeer 2 ["http://1:7001"]; EvAddPeer 3 ["http://2:7001"]; EvRemovePeer 2].
Proof. vm_compute. done. Qed.

(** The map left by the mixed batch: node 3 as added, node 2 added and
    removed again. *)
Example mixed_run_peerMap :
  peerMap (publishEntries (C := Sim.collab) Sim.mixed Sim.node1).1 =
  {[ 3 := {| IP := "2"; RaftPort := 7001; APIPort := 8001 |} ]}.
Proof. vm_compute. reflexivity. Qed.

(** The claim C1 as first stated fails on a batch in which the node's own
    removal comes before a normal entry: [Apply] is not called for the
    entry after the removal. *)
Lemma publishEntries_applies_not_whole_list :
  fsmApplies (trace (publishEntries (C := Sim.collab) Sim.removedThenNormal Sim.node1).1) <>
  fsmApplies (trace Sim.node1) ++ appliedPayloads Sim.removedThenNormal.
Proof. vm_compute. discriminate. Qed.

Lemma publishEntries_applies_reached_entries_witness :
  (publishEntries (C := Sim.collab) Sim.withRejected Sim.node1).2 = Fail Sim.rejected /\
  fsmApplies (trace (publishEntries (C := Sim.collab) Sim.withRejected Sim.node1).1) =
    [[x61]; [x00]].
Proof.
  destruct (publishEntries_applies_reached_entries (C := Sim.collab)
              Sim.withRejected Sim.node1
              (publishEntries (C := Sim.collab) Sim.withRejected Sim.node1).1
              (publishEntries (C := Sim.collab) Sim.withRejected Sim.node1).2)
    as [_ Herr].
  { apply run_returns. reflexivity. }
  destruct (Herr [Sim.normal 1 [x61]] (Sim.normal 2 [x00]) [Sim.normal 3 [x62]]
              (publishEntries (C := Sim.collab) [Sim.normal 1 [x61]] Sim.node1).1
              [[x61]] Sim.rejected) as [Hr Hrn].
  - reflexivity.
  - apply run_returns. vm_compute. reflexivity.
  - reflexivity.
  - vm_compute. reflexivity.
  - split; [exact Hr|]. rewrite Hrn. vm_compute. reflexivity.
Defined.

(** The claim C2 as first stated fails on a batch in which an entry the
    FSM rejects comes before the node's own removal: the error returned
    is the FSM's, not [ErrorRemovedFromCluster]. *)
Lemma publishEntries_self_removal_not_always_sentinel :
  (exists e, e ∈ Sim.rejectedThenRemoved /\
             isSelfRemoval (C := Sim.collab) (id Sim.node1) e = true) /\
  (publishEntries (C := Sim.collab) Sim.rejectedThenRemoved Sim.node1).2
    <> Fail ErrorRemovedFromCluster.
Proof.
  split.
  - exists (Sim.confChange 2 x01 x01 []). split; [|reflexivity].
    unfold Sim.rejectedThenRemoved. set_solver.
  - vm_compute. discriminate.
Qed.

Lemma publishEntries_self_removal_stops_witness :
  (publishEntries (C := Sim.collab) Sim.removedInMiddle Sim.node1).2 =
    Fail ErrorRemovedFromCluster /\
  fsm (publishEntries (C := Sim.collab) Sim.removedInMiddle Sim.node1).1 = [[x61]].
Proof.
  destruct (publishEntries_self_removal_stops (C := Sim.collab)
              [Sim.normal 1 [x61]] [Sim.normal 3 [x62]]
              (Sim.confChange 2 x01 x01 []) Sim.node1)
    as (_ & _ & Hfirst).
  { reflexivity. }
  destruct (Hfirst (publishEntries (C := Sim.collab) [Sim.normal 1 [x61]] Sim.node1).1)
    as (rn' & Hrun & Hfsm & _).
  { apply run_returns. vm_compute. reflexivity. }
  change (publishEntries (C := Sim.collab) Sim.removedInMiddle Sim.node1)
    with (publishEntries (C := Sim.collab)
            ([Sim.normal 1 [x61]] ++ Sim.confChange 2 x01 x01 [] :: [Sim.normal 3 [x62]])
            Sim.node1).
  rewrite Hrun. split; [reflexivity|]. cbn [fst]. rewrite Hfsm. vm_compute. reflexivity.
Defined.

Lemma createSnapAndCompact_unforced_noop_witness :
  createSnapAndCompact (C := Sim.collab) (P := Sim.pkg) false Sim.node1 = (Sim.node1, Ok tt).
Proof.
  apply (createSnapAndCompact_unforced_noop (C := Sim.collab) (P := Sim.pkg)
           Sim.node1 Sim.emptySnapshot).
  - vm_compute. reflexivity.
  - vm_compute. discriminate.
Defined.

Lemma Start_started_noop_witness :
  Start (C := Sim.collab) (P := Sim.pkg) Sim.startedNode = (Sim.startedNode, Ok tt).
Proof.
  apply (Start_started_noop (C := Sim.collab) (P := Sim.pkg) Sim.startedNode).
  vm_compute. reflexivity.
Defined.

Lemma NewNode_identity_witness :
  exists args' rn,
    NewNode (C := Sim.collab) 99 Sim.anonymousConfig = (args', Ok rn) /\
    id rn = 99 /\ id rn <> 0 /\ cid rn = 256 /\ bootstrapPeers rn = [].
Proof.
  destruct (NewNode_identity (C := Sim.collab) 99 Sim.anonymousConfig)
    as (args' & rn & Heq & Hid & _ & Hnz & Hcid & _ & Hpeers & _).
  exists args', rn. split_and!.
  - exact Heq.
  - apply Hid. reflexivity.
  - apply Hnz. discriminate.
  - apply Hcid. reflexivity.
  - apply Hpeers. reflexivity.
Defined.

(** C3.  On a node with a data directory and the default snapshot
    configuration (interval -1 minute), [scanReady] does not return a
    configuration error: the error value it builds is dropped,
    [snapTicker] stays nil, the initial snapshot is taken, and the first
    [select] panics on the nil ticker. *)
Theorem scanReady_default_config_with_data_dir :
  (Interval (snapshotConfig Sim.persistentNode) <= 0)%Z /\
  walDir Sim.persistentNode = "/var/lib/canoe/wal" /\
  scanReady_snapTicker Sim.persistentNode = None /\
  (scanReady (C := Sim.collab) (P := Sim.pkg) [RecvStop] Sim.persistentNode).2
    = Panic "invalid memory address or nil pointer dereference" /\
  trace (scanReady (C := Sim.collab) (P := Sim.pkg) [RecvStop] Sim.persistentNode).1
    = [EvFsmSnapshot; EvCreateSnapshot 0 None []; EvCompact 0;
       EvCall "persistSnapshot"; EvWalClose] /\
  (* without the data directory the same configuration runs *)
  scanReady_snapTicker Sim.node1 = Some StoppedTicker /\
  (scanReady (C := Sim.collab) (P := Sim.pkg) [RecvSnapTick; RecvTick; RecvStop]
     Sim.node1).2 = Ok tt.
Proof.
  split_and!; try (vm_compute; reflexivity). vm_compute. discriminate.
Qed.

Lemma proposals_on_timeout_witness :
  (proposePeerAddition (C := Sim.collab) Sim.request false (Some TimedOut) Sim.node1).2
    = Fail ErrTimedOutWaitingForConfigChange /\
  (proposePeerDeletion (C := Sim.collab) Sim.request false (replicate 2 TimedOut) Sim.node1).2
    = Blocked /\
  (proposePeerDeletion (C := Sim.collab) Sim.request false [TimedOut; TimedOut; Observed]
     Sim.node1).2 = Ok tt.
Proof.
  destruct (proposals_on_timeout (C := Sim.collab) Sim.request Sim.node1)
    as (_ & Hadd & _ & Hdel).
  destruct Hadd as [Hto _]; [reflexivity|].
  destruct (Hdel (fun _ _ => eq_refl) 2%nat) as (Hblocked & _ & Hobserved).
  split_and!; [exact Hto | exact Hblocked | exact (Hobserved [])].
Defined.

Lemma Sim_bytes_to_pos_to_bytes (p : positive) :
  Sim.bytes_to_pos (Sim.pos_to_bytes p) = p.
Proof. induction p as [p IH|p IH|]; cbn; by rewrite ?IH. Qed.

Lemma Sim_peers_codec (t : gmap string confChangeNodeContext) :
  Sim.unmarshalPeers (Sim.pos_to_bytes (encode t)) = inr t.
Proof.
  unfold Sim.unmarshalPeers. by rewrite Sim_bytes_to_pos_to_bytes, decode_encode.
Qed.

Lemma snapshotMetadata_roundtrip_witness :
  exists b,
    MarshalJSON (C := Sim.collab) Sim.peers = inr b /\
    UnmarshalJSON (C := Sim.collab) b = inr Sim.peers.
Proof.
  exists (Sim.pos_to_bytes (encode (MarshalJSON_loop (map_to_list Sim.peers)))).
  destruct (snapshotMetadata_roundtrip (C := Sim.collab) Sim.peers
              (Sim.pos_to_bytes (encode (MarshalJSON_loop (map_to_list Sim.peers)))))
    as (Henc & _ & Hdec).
  - unfold Sim.peers. apply map_Forall_insert_2; [reflexivity|].
    apply map_Forall_singleton. reflexivity.
  - reflexivity.
  - apply Sim_peers_codec.
  - split; [exact Henc | exact Hdec].
Defined.

(** The keys that [MarshalJSON] gives the two peers. *)
Example peers_keys :
  MarshalJSON_loop (map_to_list Sim.peers) !! "18446744073709551615"
    = Some {| IP := "10.0.0.2"; RaftPort := 7002; APIPort := 8002 |} /\
  MarshalJSON_loop (map_to_list Sim.peers) !! "1"
    = Some {| IP := "10.0.0.1"; RaftPort := 7001; APIPort := 8001 |} /\
  size (MarshalJSON_loop (map_to_list Sim.peers)) = 2%nat.
Proof. vm_compute. done. Qed.

(** * Further properties *)

(** ** Committed-entry publication, continued *)

Section MorePublishFacts.

Context {C : Collaborators}.

Ltac run_switch :=
  unfold call_fsm_Apply, call_ApplyConfChange, call_AddPeer, call_RemovePeer,
    bind, emit, modify, get, ret, fail, check in *; cbn in *.

Lemma engineCalls_app (t1 t2 : list Event) :
  engineCalls (t1 ++ t2) = engineCalls t1 ++ engineCalls t2.
Proof. apply omap_app. Qed.

Lemma keptByPublish_refl (rn : Node) : keptByPublish rn rn.
Proof. by repeat split. Qed.

Lemma keptByPublish_trans (rn1 rn2 rn3 : Node) :
  keptByPublish rn1 rn2 -> keptByPublish rn2 rn3 -> keptByPublish rn1 rn3.
Proof.
  unfold keptByPublish. intros H1 H2. destruct_and!.
  repeat split; congruence.
Qed.

(** The switch, field by field. *)
Lemma switch_frame (e : Entry) (rn rn1 : Node) (r1 : Res unit) :
  publishEntry_switch e rn = (rn1, r1) ->
  keptByPublish rn rn1 /\
  observers rn1 = observers rn /\
  exists tr,
    trace rn1 = trace rn ++ tr /\
    Forall (notSelfPeerCall (id rn)) tr /\
    match Entry_Type e with
    | EntryNormal =>
        node rn1 = node rn /\ peerMap rn1 = peerMap rn /\
        transport rn1 = transport rn /\ lastConfState rn1 = lastConfState rn /\
        engineCalls tr = []
    | EntryConfChange =>
        let cc := ConfChange_Unmarshal (Entry_Data e) in
        node rn1 = (raft_ApplyConfChange (node rn) cc).1 /\
        lastConfState rn1 = (raft_ApplyConfChange (node rn) cc).2 /\
        fsm rn1 = fsm rn /\
        engineCalls tr = [cc]
    end.
Proof.
  unfold publishEntry_switch, keptByPublish. intros H. run_switch.
  repeat (case_match; run_switch; simplify_eq); cbn.
  all: (split; [by repeat split|]); (split; [done|]).
  all: first [ exists []; split; [by rewrite app_nil_r|]
             | rewrite <- ?app_assoc; eexists; split; [reflexivity|] ].
  all: cbn; try match goal with
                | H : raft_ApplyConfChange _ _ = _ |- _ => rewrite H; cbn
                end.
  all: split_and!; try done; repeat constructor; cbn; try done.
  all: apply N.eqb_neq;
    match goal with
    | H : negb _ = true |- _ => cbn in H; by apply negb_true_iff in H
    | H : (_ =? _) = false |- _ => exact H
    end.
Qed.

Lemma runFilter_normal (f : FilterFn) (e : Entry) (rn : Node) :
  isNormal e -> exists b, runFilter f e rn = (rn, Ok b).
Proof.
  unfold isNormal. intros He. destruct f; cbn; rewrite ?He; by eexists.
Qed.

Lemma observe_each_normal (obs : list (N * Observer)) (e : Entry) (rn : Node) :
  isNormal e -> exists o, observe_each obs e rn = (set_observers o rn, Ok tt).
Proof.
  intros He. revert rn. induction obs as [|[k ob] obs IH]; intros rn.
  - exists (observers rn). by destruct rn.
  - cbn [observe_each]. unfold bind at 1.
    destruct (runFilter_normal (obs_filter ob) e rn He) as [b ->].
    unfold bind at 1.
    destruct b; unfold modify, ret.
    + destruct (IH (set_observers (<[k:=trySend e ob]> (observers rn)) rn)) as [o ->].
      by exists o.
    + apply IH.
Qed.

(** Observers of a normal entry change nothing but themselves. *)
Lemma observe_normal (e : Entry) (rn : Node) :
  isNormal e ->
  exists o,
    observe e rn = (set_observers o (set_trace (trace rn ++ [EvObserve e]) rn), Ok tt).
Proof.
  intros He. unfold observe, bind, emit, modify, get. cbv beta iota.
  destruct (observe_each_normal
              (map_to_list (observers (set_trace (trace rn ++ [EvObserve e]) rn))) e
              (set_trace (trace rn ++ [EvObserve e]) rn) He) as [o ->].
  by exists o.
Qed.

(** One turn of the loop, field by field. *)
Lemma publishEntry_frame (e : Entry) (rn rn' : Node) (r : Res unit) :
  publishEntry e rn = (rn', r) ->
  keptByPublish rn rn' /\
  exists tr,
    trace rn' = trace rn ++ tr /\
    Forall (notSelfPeerCall (id rn)) tr /\
    (isNormal e ->
     node rn' = node rn /\ peerMap rn' = peerMap rn /\
     transport rn' = transport rn /\ lastConfState rn' = lastConfState rn /\
     engineCalls tr = []).
Proof.
  unfold publishEntry, bind.
  destruct (publishEntry_switch e rn) as [rn1 r1] eqn:Hsw.
  destruct (switch_frame _ _ _ _ Hsw) as (Hkept & Hobs & tr & Htr & Hpeer & Hty).
  destruct r1 as [[]|err|msg|]; try (intros [= <- <-]; split; [done|];
    exists tr; split_and!; try done; intros He; unfold isNormal in He;
    rewrite He in Hty; by destruct_and!).
  destruct (observe_spec e rn1) as (o & r' & tr' & Hobserve & Htr').
  rewrite Hobserve. intros [= <- <-]. split.
  - eapply keptByPublish_trans; [exact Hkept|]. unfold touch. by repeat split.
  - exists (tr ++ EvObserve e :: tr'). unfold touch. cbn.
    rewrite Htr, <- app_assoc. split_and!; [done| |].
    + apply Forall_app. split; [done|]. constructor; [done|].
      eapply Forall_impl; [exact Htr'|]. by intros [].
    + intros He. destruct (observe_normal e rn1 He) as [o' Hobs'].
      rewrite Hobs' in Hobserve.
      unfold isNormal in He. rewrite He in Hty. destruct_and!.
      pose proof (f_equal (fun p => node p.1) Hobserve) as Hnode.
      pose proof (f_equal (fun p => trace p.1) Hobserve) as Htrace.
      unfold touch in Hnode, Htrace. cbn in Hnode, Htrace.
      apply app_inv_head in Htrace. injection Htrace as <-.
      rewrite engineCalls_app. cbn. rewrite app_nil_r.
      split_and!; congruence.
Qed.

(** X1.  Batch boundaries do not matter to [publishEntries]: publishing
    a batch and then, if it returned nil, a second batch on the node it
    left is the same as publishing the two batches as one list; if the
    first batch returned an error, the concatenation returns that error
    from the same node. *)
Theorem publishEntries_concatenation (ents1 ents2 : list Entry) (rn : Node) :
  publishEntries (ents1 ++ ents2) rn =
  match publishEntries ents1 rn with
  | (rn1, Ok _) => publishEntries ents2 rn1
  | (rn1, r) => (rn1, r)
  end.
Proof.
  destruct (publishEntries_result ents1 rn) as [[rn1 H] | (rn1 & err & H)]; rewrite H.
  - by apply publishEntries_app_ok.
  - by apply publishEntries_app_stop.
Qed.

(** X2.  Whatever the batch and however the call ends, [publishEntries]
    leaves alone everything in the node but the FSM, the Raft engine, the
    transport, the PeerMap, [lastConfState], the observers and the trace:
    the identity, the configuration, the lifecycle flags, the Raft
    storage, the WAL and the snapshotter are as before. *)
Theorem publishEntries_keeps_the_rest (ents : list Entry) (rn : Node) :
  keptByPublish rn (publishEntries ents rn).1.
Proof.
  revert rn. induction ents as [|e ents IH]; intros rn.
  - apply keptByPublish_refl.
  - rewrite publishEntries_cons.
    destruct (publishEntry e rn) as [rn1 r1] eqn:He.
    destruct (publishEntry_frame _ _ _ _ He) as (Hkept & _).
    destruct r1 as [[]|err|msg|]; try done.
    eapply keptByPublish_trans; [exact Hkept | apply IH].
Qed.

(** X3.  [publishEntries] never makes a transport call about the node
    itself: every [AddPeer] and [RemovePeer] it issues, in a run that
    returns nil or in one that is cut short, names another node. *)
Theorem publishEntries_no_transport_call_for_self (ents : list Entry) (rn : Node) :
  exists tr,
    trace (publishEntries ents rn).1 = trace rn ++ tr /\
    Forall (notSelfPeerCall (id rn)) tr.
Proof.
  revert rn. induction ents as [|e ents IH]; intros rn.
  - exists []. by rewrite app_nil_r.
  - rewrite publishEntries_cons.
    destruct (publishEntry e rn) as [rn1 r1] eqn:He.
    destruct (publishEntry_frame _ _ _ _ He) as (Hkept & tr & Htr & Hpeer & _).
    destruct r1 as [[]|err|msg|]; try by exists tr.
    destruct (IH rn1) as (tr' & Htr' & Hpeer').
    exists (tr ++ tr'). rewrite Htr', Htr, <- app_assoc. split; [done|].
    apply Forall_app. split; [done|].
    unfold keptByPublish in Hkept. destruct_and!.
    by replace (id rn) with (id rn1).
Qed.

(** X5.  A batch of normal entries leaves the membership state alone:
    whether it goes through or stops at an FSM error, the PeerMap, the
    transport, [lastConfState] and the Raft engine are as before, and
    [ApplyConfChange] is not called. *)
Theorem publishEntries_normal_batch (ents : list Entry) (rn : Node) :
  Forall isNormal ents ->
  peerMap (publishEntries ents rn).1 = peerMap rn /\
  transport (publishEntries ents rn).1 = transport rn /\
  lastConfState (publishEntries ents rn).1 = lastConfState rn /\
  node (publishEntries ents rn).1 = node rn /\
  exists tr,
    trace (publishEntries ents rn).1 = trace rn ++ tr /\ engineCalls tr = [].
Proof.
  intros Hall. revert rn. induction Hall as [|e ents He _ IH]; intros rn.
  - split_and!; try done. exists []. by rewrite app_nil_r.
  - rewrite publishEntries_cons.
    destruct (publishEntry e rn) as [rn1 r1] eqn:Hstep.
    destruct (publishEntry_frame _ _ _ _ Hstep) as (_ & tr & Htr & _ & Hn).
    destruct (Hn He) as (Hnode & Hpm & Htp & Hlcs & Heng).
    destruct r1 as [[]|err|msg|]; try (split_and!; try done; by exists tr).
    destruct (IH rn1) as (Hpm' & Htp' & Hlcs' & Hnode' & tr' & Htr' & Heng').
    split_and!; try congruence.
    exists (tr ++ tr'). rewrite Htr', Htr, <- app_assoc, engineCalls_app, Heng, Heng'.
    done.
Qed.

Lemma peerMapAfter_keeps_self (self : N) (m : gmap N confChangeNodeContext)
  (ents : list Entry) :
  is_Some (m !! self) -> is_Some (peerMapAfter self m ents !! self).
Proof.
  unfold peerMapAfter. revert m. induction ents as [|e ents IH]; intros m Hm; [done|].
  cbn. apply IH. unfold peerMapStep.
  repeat case_match; try done.
  - rewrite lookup_insert_is_Some.
    destruct (decide (CC_NodeID (ConfChange_Unmarshal (Entry_Data e)) = self)); auto.
  - rewrite lookup_delete_ne; [done|]. by apply N.eqb_neq.
Qed.

(** X4.  [publishEntries] never drops the node's own record from the
    PeerMap: if the node is in its PeerMap before the call, it is in it
    afterwards, whatever the batch and however the call ends (a committed
    removal of the node itself stops the loop before the map is
    touched). *)
Theorem publishEntries_keeps_own_record (ents : list Entry) (rn : Node) :
  is_Some (peerMap rn !! id rn) ->
  is_Some (peerMap (publishEntries ents rn).1 !! id rn).
Proof.
  intros Hself.
  destruct (publishEntries_result ents rn) as [[rn' H] | (rn' & err & H)]; rewrite H; cbn.
  - destruct (publishEntries_ok_spec _ _ _ H) as (_ & _ & _ & -> & _).
    by apply peerMapAfter_keeps_self.
  - destruct (publishEntries_failed_run_peerMap _ _ _ _ H) as (pre & x & post & _ & ->).
    by apply peerMapAfter_keeps_self.
Qed.

(** X6.  Every committed configuration change reaches the Raft engine
    and is recorded, whatever becomes of it afterwards: when the entries
    before it went through, the entry is passed to [ApplyConfChange] and
    [lastConfState] is what that call returned, also for an UpdateNode,
    for an AddNode without context, and for the changes that then stop the
    loop (an AddNode whose context does not decode, a removal of the node
    itself). *)
Theorem publishEntries_records_conf_state (pre : list Entry) (e : Entry) (rn rn1 : Node) :
  publishEntries pre rn = (rn1, Ok tt) ->
  Entry_Type e = EntryConfChange ->
  lastConfState (publishEntries (pre ++ [e]) rn).1
    = (raft_ApplyConfChange (node rn1) (ConfChange_Unmarshal (Entry_Data e))).2 /\
  exists tr,
    trace (publishEntries (pre ++ [e]) rn).1
      = trace rn1 ++ EvApplyConfChange (ConfChange_Unmarshal (Entry_Data e)) :: tr.
Proof.
  intros Hpre He.
  rewrite (publishEntries_app_ok _ _ _ _ Hpre), publishEntries_cons.
  unfold publishEntry, bind.
  destruct (publishEntry_switch e rn1) as [rn2 r2] eqn:Hsw.
  assert (Hhead : exists tr, trace rn2 = trace rn1
                    ++ EvApplyConfChange (ConfChange_Unmarshal (Entry_Data e)) :: tr).
  { revert Hsw. unfold publishEntry_switch. rewrite He. run_switch.
    destruct (raft_ApplyConfChange _ _) as [r cs]. run_switch.
    repeat (case_match; run_switch; simplify_eq); intros [= <- <-]; cbn;
      rewrite <- ?app_assoc; cbn; by eexists. }
  destruct Hhead as [tr Htr].
  destruct (switch_frame _ _ _ _ Hsw) as (_ & _ & tr0 & _ & _ & Hty).
  rewrite He in Hty. cbv zeta in Hty. destruct Hty as (_ & Hlcs & _).
  destruct r2 as [[]|err|msg|]; [|cbn; split; [done | by exists tr]..].
  destruct (observe_spec e rn2) as (o & r' & tr' & Hobs & _). rewrite Hobs.
  unfold touch. cbn.
  split; [done|]. exists (tr ++ EvObserve e :: tr').
  by rewrite Htr, <- app_assoc.
Qed.

End MorePublishFacts.

(** ** Snapshots, continued *)

Section MoreSnapshotFacts.

Context {C : Collaborators} {P : @Package C}.

Lemma trace_set_trace (t : list Event) (n : Node) : trace (set_trace t n) = t.
Proof. reflexivity. Qed.

Lemma set_trace_set_trace (t t' : list Event) (n : Node) :
  set_trace t (set_trace t' n) = set_trace t n.
Proof. reflexivity. Qed.

Lemma set_raftStorage_set_trace (s : storageT) (t : list Event) (n : Node) :
  set_raftStorage s (set_trace t n) = set_trace t (set_raftStorage s n).
Proof. reflexivity. Qed.

Lemma set_raftStorage_set_raftStorage (s s' : storageT) (n : Node) :
  set_raftStorage s (set_raftStorage s' n) = set_raftStorage s n.
Proof. reflexivity. Qed.

Lemma set_raftStorage_set_fsm (s : storageT) (f : fsmT) (n : Node) :
  set_raftStorage s (set_fsm f n) = set_fsm f (set_raftStorage s n).
Proof. reflexivity. Qed.

Lemma set_fsm_set_trace (f : fsmT) (t : list Event) (n : Node) :
  set_fsm f (set_trace t n) = set_trace t (set_fsm f n).
Proof. reflexivity. Qed.

(** Brings a chain of updates into the order trace, FSM, storage. *)
Ltac update_order :=
  with_strategy opaque [set_trace set_fsm set_raftStorage]
    (repeat first
       [ progress rewrite set_raftStorage_set_trace
       | progress rewrite set_fsm_set_trace
       | progress rewrite set_trace_set_trace
       | progress rewrite set_raftStorage_set_raftStorage
       | progress rewrite set_raftStorage_set_fsm
       | progress rewrite trace_set_trace ]).

Ltac run_snapshot :=
  unfold call_fsm_Snapshot, call_fsm_Restore, call_CreateSnapshot, call_Compact,
    call_ApplySnapshot, call_AddPeer, call_pkg, bind, emit, modify, get, ret, fail,
    check, panic in *;
  cbv beta iota zeta in *;
  cbn [fsm node raftStorage peerMap lastConfState trace transport
       set_fsm set_trace set_raftStorage set_transport fst snd] in *.

(** X7.  A failing FSM snapshot stops [createSnapAndCompact] before
    anything happens to the Raft storage: when the call goes on to the FSM
    (it is forced, or the applied index is past the last snapshot) and the
    FSM's [Snapshot] returns an error, the call returns that error, the
    FSM is as that call left it, and no Raft snapshot is created,
    compacted or persisted. *)
Theorem createSnapAndCompact_fsm_error
  (force : bool) (rn : Node) (lastSnap : RaftSnapshot) (f : fsmT) (err : error) :
  storage_Snapshot (raftStorage rn) = inr lastSnap ->
  force = true \/ SM_Index (Snap_Metadata lastSnap) < raft_Status_Applied (node rn) ->
  fsm_Snapshot (fsm rn) = (f, inl err) ->
  createSnapAndCompact force rn
    = (set_fsm f (set_trace (trace rn ++ [EvFsmSnapshot]) rn), Fail err).
Proof.
  intros Hsnap Hgo Hfsm. unfold createSnapAndCompact, bind at 1, get. cbv beta iota.
  rewrite Hsnap.
  assert ((raft_Status_Applied (node rn) <=? SM_Index (Snap_Metadata lastSnap))
          && negb force = false) as ->.
  { destruct Hgo as [-> | Hlt]; [apply andb_false_r|].
    apply andb_false_intro1. by apply N.leb_gt. }
  run_snapshot. by rewrite Hfsm.
Qed.

(** X8.  In [createSnapAndCompact] the in-memory log is compacted before
    the snapshot is persisted, and a snapshot that cannot be compacted is
    never persisted.  When the FSM snapshot and its envelope are obtained
    and the Raft snapshot is created, the storage is compacted at the
    index of the snapshot just created; if that fails the call returns the
    error without calling [persistSnapshot], otherwise [persistSnapshot]
    runs on a node whose storage is already compacted and its outcome is
    the outcome of the call. *)
Theorem createSnapAndCompact_compacts_before_persisting
  (force : bool) (rn : Node) (lastSnap raftSnap : RaftSnapshot) (f : fsmT)
  (fsmData meta data : bytes) (s1 s2 : storageT) (e : option error) :
  storage_Snapshot (raftStorage rn) = inr lastSnap ->
  force = true \/ SM_Index (Snap_Metadata lastSnap) < raft_Status_Applied (node rn) ->
  fsm_Snapshot (fsm rn) = (f, inr fsmData) ->
  MarshalJSON (peerMap rn) = inr meta ->
  json_Marshal_snapshot meta fsmData = inr data ->
  storage_CreateSnapshot (raftStorage rn) (raft_Status_Applied (node rn))
    (lastConfState rn) data = (s1, inr raftSnap) ->
  storage_Compact s1 (SM_Index (Snap_Metadata raftSnap)) = (s2, e) ->
  let compacted :=
    set_raftStorage s2
      (set_fsm f
         (set_trace
            (trace rn ++
             [EvFsmSnapshot;
              EvCreateSnapshot (raft_Status_Applied (node rn)) (lastConfState rn) data;
              EvCompact (SM_Index (Snap_Metadata raftSnap))]) rn)) in
  createSnapAndCompact force rn =
  match e with
  | Some err => (compacted, Fail err)
  | None =>
      persistSnapshot raftSnap
        (set_trace (trace compacted ++ [EvCall "persistSnapshot"]) compacted)
  end.
Proof.
  intros Hsnap Hgo Hfsm Hmeta Hjson Hcreate Hcompact.
  unfold createSnapAndCompact, bind at 1, get. cbv beta iota.
  rewrite Hsnap.
  assert ((raft_Status_Applied (node rn) <=? SM_Index (Snap_Metadata lastSnap))
          && negb force = false) as ->.
  { destruct Hgo as [-> | Hlt]; [apply andb_false_r|].
    apply andb_false_intro1. by apply N.leb_gt. }
  run_snapshot. rewrite Hfsm. run_snapshot. rewrite Hmeta, Hjson. run_snapshot.
  rewrite Hcreate. run_snapshot. rewrite Hcompact. run_snapshot.
  destruct e; cbv beta iota; update_order; rewrite <- !app_assoc; reflexivity.
Qed.



(** X10.  [restoreFSMFromSnapshot] is all or nothing on the envelope: an
    empty snapshot, a snapshot whose data is not an envelope, and an
    envelope whose metadata is missing or does not decode all leave the
    node exactly as it was (no peer added, FSM not restored); the transport
    and the FSM are reached only when the snapshot is not empty and both
    the envelope and its metadata decode. *)
Theorem restoreFSMFromSnapshot_all_or_nothing (raftSnap : RaftSnapshot) (rn : Node) :
  (restoreFSMFromSnapshot raftSnap rn).1 = rn \/
  (raft_IsEmptySnap raftSnap = false /\
   exists raw data peers,
     json_Unmarshal_snapshot (Snap_Data raftSnap) = inr (Some raw, data) /\
     UnmarshalJSON raw = inr peers).
Proof.
  unfold restoreFSMFromSnapshot.
  destruct (raft_IsEmptySnap raftSnap); [by left|].
  destruct (json_Unmarshal_snapshot _) as [err|[[raw|] data]]; [by left| |by left].
  destruct (UnmarshalJSON raw) as [err|peers] eqn:Hmeta; [by left|].
  right. split; [done|]. by exists raw, data, peers.
Qed.

End MoreSnapshotFacts.

(** ** The Ready loop, continued *)

Section MoreLoopFacts.

Context {C : Collaborators} {P : @Package C}.

Ltac run_switch :=
  unfold call_fsm_Apply, call_ApplyConfChange, call_AddPeer, call_RemovePeer,
    bind, emit, modify, get, ret, fail, check in *; cbn in *.

Lemma switch_events (e : Entry) (rn rn1 : Node) (r1 : Res unit) :
  publishEntry_switch e rn = (rn1, r1) ->
  exists tr, trace rn1 = trace rn ++ tr /\ Forall isPublishEvent tr.
Proof.
  unfold publishEntry_switch. intros H. run_switch.
  repeat (case_match; run_switch; simplify_eq); cbn.
  all: first [ exists []; split; [by rewrite app_nil_r | constructor]
             | rewrite <- ?app_assoc; eexists; split; [reflexivity|];
               by repeat constructor ].
Qed.

Lemma publishEntries_events (ents : list Entry) (rn : Node) :
  exists tr,
    trace (publishEntries ents rn).1 = trace rn ++ tr /\ Forall isPublishEvent tr.
Proof.
  revert rn. induction ents as [|e ents IH]; intros rn.
  - exists []. by rewrite app_nil_r.
  - rewrite publishEntries_cons. unfold publishEntry, bind.
    destruct (publishEntry_switch e rn) as [rn1 r1] eqn:Hsw.
    destruct (switch_events _ _ _ _ Hsw) as (tr & Htr & Hev).
    destruct r1 as [[]|err|msg|]; try by exists tr.
    destruct (observe_spec e rn1) as (o & r' & tr' & -> & Htr').
    destruct (IH (touch o r' (EvObserve e :: tr') rn1)) as (tr'' & Htr'' & Hev'').
    exists (tr ++ (EvObserve e :: tr') ++ tr'').
    rewrite Htr''. unfold touch. cbn. rewrite Htr, <- !app_assoc.
    split; [done|]. apply Forall_app; split; [done|].
    constructor; [done|]. apply Forall_app; split; [|done].
    eapply Forall_impl; [exact Htr'|]. by intros [].
Qed.

(** The Ready case when the batch carries no snapshot. *)
Lemma scanReady_ready_no_snapshot (rd : Ready) (rn : Node) :
  raft_IsEmptySnap (Rd_Snapshot rd) = true ->
  scanReady_ready rd rn
  = (publishEntries (Rd_CommittedEntries rd) ;;; call_Advance) (persistedAndSent rd rn).
Proof.
  intros Hempty. unfold scanReady_ready, persistedAndSent.
  unfold bind at 1, get. cbv beta iota.
  destruct (wal rn) as [w|] eqn:Hw;
    unfold call_storage_Append, call_transport_Send, bind, emit, modify, ret;
    cbv beta iota; rewrite Hempty; reflexivity.
Qed.

(** X11.  Durability before transport, publication before advance.  For
    a Ready batch without snapshot, the batch is first saved to the WAL
    (when the node has one), then appended to the Raft storage, then its
    messages are handed to the transport, and only then are the committed
    entries published.  [Advance] is the last call and is made exactly
    when publication returned nil, after every committed entry was
    observed; when the batch ends in an error, [Advance] is not called. *)
Theorem scanReady_ready_order (rd : Ready) (rn : Node) :
  raft_IsEmptySnap (Rd_Snapshot rd) = true ->
  exists tr,
    trace (scanReady_ready rd rn).1
    = trace rn
      ++ match wal rn with
         | Some _ => [EvWalSave (Rd_HardState rd) (Rd_Entries rd)]
         | None => []
         end
      ++ [EvStorageAppend (Rd_Entries rd); EvTransportSend (Rd_Messages rd)]
      ++ tr /\
    ((scanReady_ready rd rn).2 = Ok tt ->
     exists pub,
       tr = pub ++ [EvAdvance] /\ Forall isPublishEvent pub /\
       observed pub = Rd_CommittedEntries rd) /\
    (forall err, (scanReady_ready rd rn).2 = Fail err -> Forall isPublishEvent tr).
Proof.
  intros Hempty. rewrite scanReady_ready_no_snapshot by done.
  set (rn0 := persistedAndSent rd rn).
  assert (Hpre : trace rn0
                 = trace rn
                   ++ match wal rn with
                      | Some _ => [EvWalSave (Rd_HardState rd) (Rd_Entries rd)]
                      | None => []
                      end
                   ++ [EvStorageAppend (Rd_Entries rd); EvTransportSend (Rd_Messages rd)]).
  { unfold rn0, persistedAndSent. destruct (wal rn); cbn; by rewrite <- ?app_assoc. }
  destruct (publishEntries_events (Rd_CommittedEntries rd) rn0) as (pub & Hpub & Hev).
  unfold bind.
  destruct (publishEntries_result (Rd_CommittedEntries rd) rn0)
    as [[rn1 Hrun] | (rn1 & err & Hrun)]; rewrite Hrun in *; cbn [fst snd] in *.
  - exists (pub ++ [EvAdvance]). unfold call_Advance, bind, emit, modify. cbn.
    rewrite Hpub, Hpre, <- !app_assoc. split_and!; [done | | done].
    intros _. exists pub. split_and!; [done | done |].
    destruct (publishEntries_ok_spec _ _ _ Hrun) as (_ & _ & Hobs & _).
    rewrite Hpub, observed_app in Hobs. by apply app_inv_head in Hobs.
  - exists pub. rewrite Hpub, Hpre, <- !app_assoc. split_and!; done.
Qed.

(** X12.  Whenever [scanReady] returns, by the stop signal, with an
    error or through a panic, its deferred calls have run: the node's
    [running] flag is cleared and closing the WAL is the last thing that
    happened. *)
Theorem scanReady_returned_not_running (sel : list SelectCase) (rn : Node) :
  (scanReady sel rn).2 <> Blocked ->
  running (scanReady sel rn).1 = false /\
  exists tr, trace (scanReady sel rn).1 = tr ++ [EvWalClose].
Proof.
  unfold scanReady, defer.
  match goal with
  | |- context [match ?body rn with _ => _ end] => destruct (body rn) as [rn' r]
  end.
  destruct r as [[]|err|msg|]; cbn; try done; intros _; split; eauto.
Qed.

Lemma scanReady_loop_drop_snap_ticks (sel : list SelectCase) (rn : Node) :
  scanReady_loop StoppedTicker sel rn
  = scanReady_loop StoppedTicker (dropSnapTicks sel) rn.
Proof.
  revert rn. induction sel as [|c sel IH]; intros rn; [done|].
  unfold dropSnapTicks. rewrite filter_cons. fold (dropSnapTicks sel).
  destruct c; cbn [notSnapTick]; case_decide; try done; cbn [scanReady_loop];
    try done; try apply IH.
  all: unfold bind;
    match goal with
    | |- context [let (_, _) := ?m ?st in _] => destruct (m st) as [rn1 [[]| | |]]
    end; try done; apply IH.
Qed.

(** X13.  With snapshots disabled and no data directory, snapshot ticks
    are without any effect on the Ready loop: [scanReady] behaves on a
    sequence of select cases exactly as on the sequence with the snapshot
    ticks taken out, so the only snapshot such a node ever takes is the
    forced one on entry. *)
Theorem scanReady_ignores_snap_ticks (sel : list SelectCase) (rn : Node) :
  (Interval (snapshotConfig rn) <= 0)%Z -> walDir rn = "" ->
  scanReady sel rn = scanReady (dropSnapTicks sel) rn.
Proof.
  intros Hi Hw. unfold scanReady, defer, bind at 1 3, get. cbv beta iota.
  rewrite (scanReady_snapTicker_disabled rn Hi Hw).
  unfold bind.
  destruct (ignore_error (createSnapAndCompact true) rn) as [rn1 [[]| | |]]; try done.
  by rewrite scanReady_loop_drop_snap_ticks.
Qed.

(** X14.  A committed removal of the node itself ends the Ready loop.
    When a Ready batch without snapshot commits, after entries that go
    through, a RemoveNode of the node itself, the loop returns
    [ErrorRemovedFromCluster] from that batch: the entries before the
    removal were observed, nothing after it was, [Advance] is not called,
    and no later select case is looked at. *)
Theorem scanReady_loop_self_removal
  (tk : Ticker) (rd : Ready) (rest : list SelectCase)
  (pre post : list Entry) (e : Entry) (rn rn1 : Node) :
  raft_IsEmptySnap (Rd_Snapshot rd) = true ->
  Rd_CommittedEntries rd = pre ++ e :: post ->
  publishEntries pre (persistedAndSent rd rn) = (rn1, Ok tt) ->
  isSelfRemoval (id rn) e = true ->
  (scanReady_loop tk (RecvReady rd :: rest) rn).2 = Fail ErrorRemovedFromCluster /\
  scanReady_loop tk (RecvReady rd :: rest) rn = scanReady_loop tk [RecvReady rd] rn /\
  observed (trace (scanReady_loop tk (RecvReady rd :: rest) rn).1)
    = observed (trace rn) ++ pre /\
  fsm (scanReady_loop tk (RecvReady rd :: rest) rn).1 = fsm rn1 /\
  EvAdvance ∉ drop (length (trace rn)) (trace (scanReady_loop tk (RecvReady rd :: rest) rn).1).
Proof.
  intros Hempty Hents Hpre Hself.
  assert (Hid : id (persistedAndSent rd rn) = id rn).
  { unfold persistedAndSent. by destruct (wal rn). }
  assert (Hobs0 : observed (trace (persistedAndSent rd rn)) = observed (trace rn)).
  { unfold persistedAndSent. destruct (wal rn); cbn; rewrite !observed_app; cbn;
      by rewrite ?app_nil_r. }
  destruct (publishEntries_ok_spec _ _ _ Hpre) as (Hid1 & _ & Hobs1 & _).
  assert (Hrun : scanReady_ready rd rn
                 = (let cc := ConfChange_Unmarshal (Entry_Data e) in
                    set_lastConfState (raft_ApplyConfChange (node rn1) cc).2
                      (set_node (raft_ApplyConfChange (node rn1) cc).1
                         (set_trace (trace rn1 ++ [EvApplyConfChange cc]) rn1)),
                    Fail ErrorRemovedFromCluster)).
  { rewrite scanReady_ready_no_snapshot by done. unfold bind at 1.
    rewrite Hents, (publishEntries_app_ok _ _ _ _ Hpre), publishEntries_cons.
    unfold publishEntry, bind. rewrite switch_self_removal; [done|].
    by rewrite Hid1, Hid. }
  assert (Hloop : forall tl, scanReady_loop tk (RecvReady rd :: tl) rn
                             = scanReady_ready rd rn).
  { intros tl. cbn [scanReady_loop]. unfold bind. by rewrite Hrun. }
  rewrite !Hloop, Hrun. cbn [fst snd]. cbv zeta.
  cbn [trace fsm set_lastConfState set_node set_trace].
  split_and!; try done.
  - rewrite observed_app. cbn. by rewrite app_nil_r, Hobs1, Hobs0.
  - destruct (publishEntries_events (Rd_CommittedEntries rd) (persistedAndSent rd rn))
      as (pub & Hpub & Hev).
    pose proof (scanReady_ready_no_snapshot rd rn Hempty) as Hready.
    rewrite Hrun in Hready. unfold bind in Hready.
    destruct (publishEntries (Rd_CommittedEntries rd) (persistedAndSent rd rn))
      as [rn2 [[]|err|msg|]] eqn:Hall; try done.
    injection Hready as Hrn2 _. cbn [fst] in Hpub.
    assert (Htr : trace rn1 ++ [EvApplyConfChange (ConfChange_Unmarshal (Entry_Data e))]
                  = trace rn2) by (by rewrite <- Hrn2).
    rewrite Htr, Hpub.
    assert (Hpre0 : exists tr0, trace (persistedAndSent rd rn) = trace rn ++ tr0
                                /\ EvAdvance ∉ tr0).
    { unfold persistedAndSent. destruct (wal rn); cbn; rewrite <- ?app_assoc;
        eexists; (split; [reflexivity|]);
        repeat (apply not_elem_of_cons; split; [done|]); apply not_elem_of_nil. }
    destruct Hpre0 as (tr0 & -> & Hno). rewrite <- app_assoc, drop_app_length.
    intros [Hin|Hin]%elem_of_app; [done|].
    rewrite Forall_forall in Hev. by apply Hev in Hin.
Qed.

End MoreLoopFacts.
(** ** Start, Stop and construction, continued *)

Section MoreNodeFacts.

Context {C : Collaborators} {P : @Package C}.

Lemma tickTimes_spec (n : nat) (rn : Node) :
  tickTimes n rn
  = (set_node (ticked n (node rn)) (set_trace (trace rn ++ replicate n EvTick) rn), Ok tt).
Proof.
  revert rn. induction n as [|n IH]; intros rn.
  - cbn. rewrite app_nil_r. by destruct rn.
  - cbn [tickTimes]. unfold bind at 1, call_Tick, bind, emit, modify. cbv beta iota.
    rewrite IH. cbn. by rewrite <- app_assoc.
Qed.

Lemma walDir_in_memory (rn : Node) : dataDir rn = "" -> walDir rn = "".
Proof. intros H. unfold walDir. by rewrite H. Qed.

Lemma walDir_persistent (rn : Node) : dataDir rn <> "" -> walDir rn <> "".
Proof.
  intros H. unfold walDir. destruct (decide (dataDir rn = "")); [done|].
  by destruct (dataDir rn).
Qed.

Ltac node_fields :=
  cbn [fst snd node raftStorage transport bootstrapPeers bootstrapNode peerMap id cid
       raftPort apiPort raftConfig started initialized running fsm observers
       initBackoffArgs snapshotConfig dataDir ss wal lastConfState stopc logger
       nextObserverID trace set_node set_raftStorage set_transport set_peerMap set_id
       set_cid set_raftConfig set_started set_initialized set_running set_fsm
       set_observers set_wal set_lastConfState set_stopc set_nextObserverID set_trace]
    in *.

Ltac run_start :=
  unfold attachTransport, call_transport_Start, advanceTicksForElection, withRaftConfig,
    call_transport_Stop, close_stopc, await_not_running,
    bind, emit, modify, get, ret, fail, check, panic, blocked in *;
  cbv beta iota zeta in *; node_fields.

(** The run of [Stop] on an open stop channel. *)
Lemma Stop_open_run (rn : Node) :
  stopc rn = Some false ->
  Stop rn
  = (let stopped :=
       set_transport (transport_Stop (transport rn))
         (set_trace (trace rn ++ [EvTransportStop]) (set_stopc (Some true) rn)) in
     if running rn then (stopped, Blocked)
     else (set_initialized false (set_started false stopped), Ok tt)).
Proof.
  intros Hc. unfold Stop. run_start. rewrite Hc. run_start.
  destruct (running rn); reflexivity.
Qed.

(** What [NewNode] leaves in the fields the Ready loop and [Stop] read. *)
Lemma NewNode_fields (uuid : N) (args args' : NodeConfig) (rn : Node) :
  NewNode uuid args = (args', Ok rn) ->
  stopc rn = None /\
  dataDir rn = NC_DataDir args /\
  snapshotConfig rn = default DefaultSnapshotConfig (NC_SnapshotConfig args).
Proof.
  destruct args as [i c f rp ap bp bn dd ib sc lg].
  unfold NewNode, nonInitNode.
  destruct bn, ib, sc; cbn;
    destruct (i =? 0); cbn; destruct (c =? 0); cbn;
    intros [= <- <-]; by split_and!.
Qed.

(** X15.  Starting a bootstrap node that keeps nothing on disk.  On an
    unstarted bootstrap node without data directory whose transport
    starts, [Start] returns nil with [started], [initialized] and
    [running] set and the stop channel open; the Raft engine is started
    with the node itself as only peer and ticked [ElectionTick - 1] times;
    the three goroutines are launched; and neither the persistent storage
    nor the join or rejoin handshake is touched. *)
Theorem Start_bootstrap_in_memory (rn : Node) (cfg : RaftConfig) (t : transportT) :
  started rn = false ->
  dataDir rn = "" ->
  bootstrapNode rn = true ->
  raftConfig rn = Some cfg ->
  transport_Start (transport_New (id rn) (cid rn) (ss rn)) = (t, None) ->
  (Start rn).2 = Ok tt /\
  started (Start rn).1 = true /\
  initialized (Start rn).1 = true /\
  running (Start rn).1 = true /\
  stopc (Start rn).1 = Some false /\
  transport (Start rn).1 = t /\
  node (Start rn).1
    = ticked (Z.to_nat (ElectionTick cfg - 1)) (raft_StartNode cfg [id rn]) /\
  peerMap (Start rn).1 = peerMap rn /\
  trace (Start rn).1
    = trace rn ++ [EvTransportStart]
      ++ replicate (Z.to_nat (ElectionTick cfg - 1)) EvTick
      ++ [EvGo "scanReady"; EvGo "serveHTTP"; EvGo "serveRaft"].
Proof.
  intros Hst Hdir Hboot Hcfg Htr.
  eassert (Heq : Start rn = (_, Ok tt)).
  { unfold Start, bind at 1, get. cbv beta iota zeta.
    unfold shouldRejoinCluster. rewrite (walDir_in_memory rn Hdir), Hst.
    rewrite bool_decide_eq_false_2 by (by intros ?). rewrite andb_false_r.
    run_start. rewrite Htr. run_start. rewrite Hboot. run_start. rewrite Hcfg.
    run_start. rewrite Hcfg. rewrite tickTimes_spec. run_start. rewrite Hboot.
    run_start. reflexivity. }
  rewrite Heq. node_fields. rewrite <- !app_assoc. by split_and!.
Qed.

(** X16.  A transport that does not start stops [Start] early.  On an
    unstarted node without data directory, if the transport's [Start]
    returns an error, [Start] returns that error; the Raft engine is not
    started, no goroutine is launched, and [started], [initialized] and
    [running] stay clear, although the stop channel has been made. *)
Theorem Start_transport_error (rn : Node) (t : transportT) (err : error) :
  started rn = false ->
  dataDir rn = "" ->
  transport_Start (transport_New (id rn) (cid rn) (ss rn)) = (t, Some err) ->
  (Start rn).2 = Fail err /\
  started (Start rn).1 = false /\
  initialized (Start rn).1 = initialized rn /\
  running (Start rn).1 = running rn /\
  node (Start rn).1 = node rn /\
  stopc (Start rn).1 = Some false /\
  trace (Start rn).1 = trace rn ++ [EvTransportStart].
Proof.
  intros Hst Hdir Htr.
  eassert (Heq : Start rn = (_, Fail err)).
  { unfold Start, bind at 1, get. cbv beta iota zeta.
    unfold shouldRejoinCluster. rewrite (walDir_in_memory rn Hdir), Hst.
    rewrite bool_decide_eq_false_2 by (by intros ?). rewrite andb_false_r.
    run_start. rewrite Htr. run_start. reflexivity. }
  rewrite Heq. node_fields. by split_and!.
Qed.

(** X17.  [Stop] on an initialized node (its transport is attached) with
    an open stop channel closes the channel and stops the transport, then
    waits for the Ready loop: while [running] is set the call has not
    returned and [started] and [initialized] are as before; once [running]
    is clear it returns nil with [started] and [initialized] cleared. *)
Theorem Stop_open_channel (rn : Node) :
  initialized rn = true ->
  stopc rn = Some false ->
  (Stop rn).2 = (if running rn then Blocked else Ok tt) /\
  stopc (Stop rn).1 = Some true /\
  transport (Stop rn).1 = transport_Stop (transport rn) /\
  trace (Stop rn).1 = trace rn ++ [EvTransportStop] /\
  started (Stop rn).1 = (if running rn then started rn else false) /\
  initialized (Stop rn).1 = (if running rn then initialized rn else false) /\
  running (Stop rn).1 = running rn.
Proof.
  intros _ Hc. rewrite (Stop_open_run rn Hc). cbv zeta.
  destruct (running rn) eqn:Hr; node_fields; by split_and!.
Qed.

(** X18.  [Stop] needs an open stop channel.  On a node fresh from
    [NewNode], which has no channel yet, [Stop] panics; and when [Stop]
    has been called on a node with an open channel, a second [Stop] on the
    node it leaves panics on the closed channel.  In both cases the
    panicking call changes nothing. *)
Theorem Stop_without_open_channel :
  (forall uuid args args' rn,
      NewNode uuid args = (args', Ok rn) ->
      Stop rn = (rn, Panic "close of nil channel")) /\
  (forall rn,
      stopc rn = Some false ->
      Stop (Stop rn).1 = ((Stop rn).1, Panic "close of closed channel")).
Proof.
  split.
  - intros uuid args args' rn Hnew.
    destruct (NewNode_fields _ _ _ _ Hnew) as (Hc & _).
    unfold Stop, close_stopc, bind, get, panic. cbv beta iota. by rewrite Hc.
  - intros rn Hc.
    assert (Hc' : stopc (Stop rn).1 = Some true).
    { rewrite (Stop_open_run rn Hc). cbv zeta. by destruct (running rn). }
    unfold Stop at 1 3, close_stopc, bind, get, panic. cbv beta iota. by rewrite Hc'.
Qed.

(** X19.  What [NewNode] sets up besides the identity.  The call never
    fails.  The Raft configuration carries the node's final id (the
    generated one when none was supplied) with the fixed hyperparameters;
    the node is neither started, initialized nor running, has an empty
    PeerMap and observer registry, no WAL, no snapshotter and no stop
    channel; missing backoff and snapshot configurations are replaced by
    the defaults, in the node and in the caller's config alike. *)
Theorem NewNode_defaults (uuid : N) (args : NodeConfig) :
  exists args' rn,
    NewNode uuid args = (args', Ok rn) /\
    raftConfig rn
      = Some {| Cfg_ID := id rn; ElectionTick := 10; HeartbeatTick := 1;
                MaxSizePerMsg := 1048576; MaxInflightMsgs := 256;
                CheckQuorum := true |} /\
    started rn = false /\ initialized rn = false /\ running rn = false /\
    peerMap rn = ∅ /\ observers rn = ∅ /\
    wal rn = None /\ ss rn = None /\ stopc rn = None /\ lastConfState rn = None /\
    dataDir rn = NC_DataDir args /\
    snapshotConfig rn = default DefaultSnapshotConfig (NC_SnapshotConfig args) /\
    initBackoffArgs rn = default DefaultInitializationBackoffArgs (NC_InitBackoff args) /\
    NC_SnapshotConfig args' = Some (snapshotConfig rn) /\
    NC_InitBackoff args' = Some (initBackoffArgs rn).
Proof.
  destruct args as [i c f rp ap bp bn dd ib sc lg].
  unfold NewNode, nonInitNode.
  destruct bn, ib, sc; cbn;
    destruct (i =? 0); cbn; destruct (c =? 0); cbn;
    (eexists _, _; split; [reflexivity|]); cbn; by split_and!.
Qed.

(** X20.  The default snapshot configuration and a data directory do not
    go together.  On the node [NewNode] builds from a config that names a
    data directory and either no snapshot configuration or one with an
    interval [<= 0], [scanReady] never returns nil and never returns an
    error, whatever the select cases: it panics, or is still in its
    initial snapshot. *)
Theorem NewNode_data_dir_without_interval
  (uuid : N) (args args' : NodeConfig) (rn : Node) (sel : list SelectCase) :
  NewNode uuid args = (args', Ok rn) ->
  NC_DataDir args <> "" ->
  (Interval (default DefaultSnapshotConfig (NC_SnapshotConfig args)) <= 0)%Z ->
  (exists msg, (scanReady sel rn).2 = Panic msg) \/ (scanReady sel rn).2 = Blocked.
Proof.
  intros Hnew Hdir Hint.
  destruct (NewNode_fields _ _ _ _ Hnew) as (_ & Hdd & Hsc).
  apply scanReady_nil_ticker.
  - by rewrite Hsc.
  - apply walDir_persistent. by rewrite Hdd.
Qed.

(** X21.  [commitsSinceLastSnap] subtracts on [uint64].  When the
    storage answers, the call changes nothing and returns the last index
    minus the snapshot index when the snapshot is not ahead of the log,
    and that difference wrapped around [2^64] when it is. *)
Theorem commitsSinceLastSnap_wraps (rn : Node) (raftSnap : RaftSnapshot) (curIndex : N) :
  storage_Snapshot (raftStorage rn) = inr raftSnap ->
  storage_LastIndex (raftStorage rn) = inr curIndex ->
  curIndex < 2 ^ 64 ->
  SM_Index (Snap_Metadata raftSnap) < 2 ^ 64 ->
  exists n,
    commitsSinceLastSnap rn = (rn, Ok n) /\
    n < 2 ^ 64 /\
    (SM_Index (Snap_Metadata raftSnap) <= curIndex ->
     n = curIndex - SM_Index (Snap_Metadata raftSnap)) /\
    (curIndex < SM_Index (Snap_Metadata raftSnap) ->
     n = 2 ^ 64 - (SM_Index (Snap_Metadata raftSnap) - curIndex)).
Proof.
  intros Hsnap Hlast Hcur Hidx.
  unfold commitsSinceLastSnap, bind, get, ret. cbv beta iota. rewrite Hsnap, Hlast.
  eexists. split; [reflexivity|].
  revert Hcur Hidx. generalize (SM_Index (Snap_Metadata raftSnap)). intros idx Hcur Hidx.
  change (2 ^ 64) with 18446744073709551616 in *.
  split_and!.
  - by apply N.mod_upper_bound.
  - intros Hle.
    replace (curIndex + 18446744073709551616 - idx)
      with (curIndex - idx + 1 * 18446744073709551616) by lia.
    rewrite N.Div0.mod_add. apply N.mod_small. lia.
  - intros Hlt. rewrite N.mod_small by lia. lia.
Qed.

End MoreNodeFacts.

(** ** Snapshot metadata, continued *)

Section MoreCodecFacts.

Import strconv.

Context {C : Collaborators}.

Lemma parseDigits_bound (s : string) (n k : N) :
  parseDigits s n = inr k -> n < 2 ^ 64 -> k < 2 ^ 64.
Proof.
  revert n. induction s as [|c s IH]; intros n; cbn [parseDigits].
  - by intros [= ->].
  - destruct (digitVal c) as [d|]; [|done].
    destruct (_ <=? n); [done|]. cbv zeta.
    destruct (_ || _); [done|].
    intros Hk _. apply (IH _ Hk). by apply N.mod_upper_bound.
Qed.

Lemma ParseUint_bound (s : string) (k : N) : ParseUint s = inr k -> k < 2 ^ 64.
Proof.
  unfold ParseUint. destruct s; [done|]. intros Hk. by apply (parseDigits_bound _ _ _ Hk).
Qed.

Lemma UnmarshalJSON_loop_bad_key (l : list (string * confChangeNodeContext))
  (acc : gmap N confChangeNodeContext) (s : string) (v : confChangeNodeContext)
  (e : error) :
  (s, v) ∈ l -> ParseUint s = inl e -> exists err, UnmarshalJSON_loop l acc = inl err.
Proof.
  intros Hin Hs. revert acc. induction l as [|[s' v'] l IH]; intros acc.
  - by apply elem_of_nil in Hin.
  - cbn [UnmarshalJSON_loop]. apply elem_of_cons in Hin as [[= <- <-]|Hin].
    + rewrite Hs. by eexists.
    + destruct (ParseUint s'); [by eexists|]. by apply IH.
Qed.

Lemma UnmarshalJSON_loop_keys (l : list (string * confChangeNodeContext))
  (acc m : gmap N confChangeNodeContext) :
  UnmarshalJSON_loop l acc = inr m ->
  (forall k v, m !! k = Some v ->
     acc !! k = Some v \/ exists s, (s, v) ∈ l /\ ParseUint s = inr k) /\
  (forall k, is_Some (acc !! k) -> is_Some (m !! k)) /\
  (forall s v, (s, v) ∈ l -> exists k, ParseUint s = inr k /\ is_Some (m !! k)).
Proof.
  revert acc. induction l as [|[s v] l IH]; intros acc; cbn [UnmarshalJSON_loop].
  - intros [= ->]. split_and!; [by left | done |].
    intros s v Hin. by apply elem_of_nil in Hin.
  - destruct (ParseUint s) as [|k0] eqn:Hs; [done|]. intros Hrun.
    destruct (IH _ Hrun) as (Hfrom & Hmono & Hall). split_and!.
    + intros k v' Hk. destruct (Hfrom k v' Hk) as [Hacc | (s' & Hin & Hs')].
      * apply lookup_insert_Some in Hacc as [[<- <-] | [_ Hacc]]; [|by left].
        right. exists s. split; [apply elem_of_cons; by left | done].
      * right. exists s'. split; [apply elem_of_cons; by right | done].
    + intros k Hk. apply Hmono. rewrite lookup_insert_is_Some.
      destruct (decide (k0 = k)); auto.
    + intros s' v' [[= -> ->] | Hin]%elem_of_cons; [|by apply (Hall s' v')].
      exists k0. split; [done|]. apply Hmono. rewrite lookup_insert_is_Some. auto.
Qed.

(** X22.  One bad key spoils the whole document: if the decoded JSON
    object has a key that [ParseUint] does not accept, [UnmarshalJSON]
    returns an error, whichever other keys there are and in whatever order
    the map iteration yields them. *)
Theorem UnmarshalJSON_bad_key
  (data : bytes) (tmpPeers : gmap string confChangeNodeContext)
  (s : string) (v : confChangeNodeContext) (e : error) :
  json_Unmarshal_peers data = inr tmpPeers ->
  tmpPeers !! s = Some v ->
  ParseUint s = inl e ->
  exists err, UnmarshalJSON data = inl err.
Proof.
  intros Hdec Hs He. unfold UnmarshalJSON. rewrite Hdec.
  apply (UnmarshalJSON_loop_bad_key _ _ s v e); [|done].
  by apply elem_of_map_to_list.
Qed.

(** X23.  What a successful [UnmarshalJSON] returns: every id of the
    peer map is below [2^64] and is what [ParseUint] makes of a key of the
    JSON object, with the record of that key; and every key of the JSON
    object parses to an id that the map has. *)
Theorem UnmarshalJSON_keys_parsed
  (data : bytes) (peers : gmap N confChangeNodeContext) :
  UnmarshalJSON data = inr peers ->
  exists tmpPeers,
    json_Unmarshal_peers data = inr tmpPeers /\
    (forall k v, peers !! k = Some v ->
       k < 2 ^ 64 /\ exists s, tmpPeers !! s = Some v /\ ParseUint s = inr k) /\
    (forall s v, tmpPeers !! s = Some v ->
       exists k, ParseUint s = inr k /\ is_Some (peers !! k)).
Proof.
  unfold UnmarshalJSON. destruct (json_Unmarshal_peers data) as [|tmpPeers]; [done|].
  intros Hrun. exists tmpPeers. split; [done|].
  destruct (UnmarshalJSON_loop_keys _ _ _ Hrun) as (Hfrom & _ & Hall). split.
  - intros k v Hk. destruct (Hfrom k v Hk) as [Hacc | (s & Hin & Hs)]; [done|].
    split; [by apply (ParseUint_bound s)|].
    exists s. split; [by apply elem_of_map_to_list | done].
  - intros s v Hs. apply (Hall s v). by apply elem_of_map_to_list.
Qed.

(** X24.  The order in which Go iterates over the two maps does not
    matter to the round trip: for a peer map keyed by 64-bit ids,
    whichever order the loop of [MarshalJSON] sees the peers in, it builds
    the same string-keyed map, and whichever order the loop of
    [UnmarshalJSON] sees that map in, it gives the peer map back. *)
Theorem snapshotMetadata_iteration_order
  (m : gmap N confChangeNodeContext)
  (kvs : list (N * confChangeNodeContext))
  (kvs' : list (string * confChangeNodeContext)) :
  map_Forall (fun k _ => k < 2 ^ 64) m ->
  kvs ≡ₚ map_to_list m ->
  kvs' ≡ₚ map_to_list (MarshalJSON_loop kvs) ->
  MarshalJSON_loop kvs = MarshalJSON_loop (map_to_list m) /\
  UnmarshalJSON_loop kvs' ∅ = inr m.
Proof.
  intros Hm Hkvs Hkvs'.
  pose proof (MarshalJSON_loop_order m kvs Hm Hkvs) as Heq.
  split; [done|]. apply UnmarshalJSON_loop_order; [done|]. by rewrite <- Heq.
Qed.

(** X25.  Keys that denote the same id make the result depend on the
    iteration order: when two keys of the JSON object parse to the same
    id (as 1 and 01 do), the record of the key that the loop of
    [UnmarshalJSON] sees last is the one kept. *)
Theorem UnmarshalJSON_loop_colliding_keys
  (s1 s2 : string) (k : N) (v1 v2 : confChangeNodeContext) :
  ParseUint s1 = inr k ->
  ParseUint s2 = inr k ->
  UnmarshalJSON_loop [(s1, v1); (s2, v2)] ∅ = inr {[ k := v2 ]} /\
  UnmarshalJSON_loop [(s2, v2); (s1, v1)] ∅ = inr {[ k := v1 ]}.
Proof.
  intros H1 H2. cbn [UnmarshalJSON_loop]. rewrite H1, H2.
  by rewrite !insert_insert_eq, !insert_empty.
Qed.

End MoreCodecFacts.

(** ** The filters of waiting proposals *)

Section MoreObserverFacts.

Context {C : Collaborators}.

Lemma runFilter_wait (f : FilterFn) (e : Entry) (rn : Node) :
  isWaitFilter f = true ->
  Entry_Type e = EntryConfChange ->
  exists b,
    runFilter f e rn
    = (set_node (raft_ApplyConfChange (node rn) (ConfChange_Unmarshal (Entry_Data e))).1
         (set_trace (trace rn ++ [EvApplyConfChange (ConfChange_Unmarshal (Entry_Data e))])
            rn),
       Ok b).
Proof.
  intros Hf He. destruct f as [nodeID|nodeID|g]; [| |done];
    cbn [runFilter]; rewrite He; cbv zeta;
    unfold bind, call_ApplyConfChange, bind, emit, modify, get, ret; cbv beta iota;
    cbn [node trace set_trace set_node];
    destruct (raft_ApplyConfChange (node rn) _) as [r cs]; cbn [fst snd];
    destruct (CC_Type _); by eexists.
Qed.

(** X26.  The filter of a waiting proposal applies the change itself.
    On a committed configuration change, the filter that
    [proposePeerAddition] or [proposePeerDeletion] installs calls
    [ApplyConfChange] on the Raft engine before it answers, and drops the
    configuration state that call returns: the engine moves on,
    [lastConfState] does not.  It accepts exactly a change of its own kind
    for the node it waits for.  On a normal entry it answers no and
    touches nothing. *)
Theorem wait_filter_applies_conf_change (nodeID : N) (e : Entry) (rn : Node) :
  let cc := ConfChange_Unmarshal (Entry_Data e) in
  let applied :=
    set_node (raft_ApplyConfChange (node rn) cc).1
      (set_trace (trace rn ++ [EvApplyConfChange cc]) rn) in
  (Entry_Type e = EntryConfChange ->
   runFilter (FilterAddNode nodeID) e rn
   = (applied, Ok (match CC_Type cc with
                   | ConfChangeAddNode => nodeID =? CC_NodeID cc
                   | _ => false
                   end)) /\
   runFilter (FilterRemoveNode nodeID) e rn
   = (applied, Ok (match CC_Type cc with
                   | ConfChangeRemoveNode => nodeID =? CC_NodeID cc
                   | _ => false
                   end)) /\
   lastConfState applied = lastConfState rn) /\
  (Entry_Type e = EntryNormal ->
   runFilter (FilterAddNode nodeID) e rn = (rn, Ok false) /\
   runFilter (FilterRemoveNode nodeID) e rn = (rn, Ok false)).
Proof.
  cbv zeta. split; intros He; cbn [runFilter]; rewrite He; [|done].
  cbv zeta. unfold bind, call_ApplyConfChange, bind, emit, modify, get, ret.
  cbv beta iota. cbn [node trace set_trace set_node lastConfState].
  destruct (raft_ApplyConfChange (node rn) _) as [r cs]. cbn [fst snd].
  by destruct (CC_Type _).
Qed.

(** What a filter does on a committed configuration change. *)
Lemma runFilter_conf_change (f : FilterFn) (e : Entry) (rn : Node) :
  Entry_Type e = EntryConfChange ->
  let cc := ConfChange_Unmarshal (Entry_Data e) in
  let w := if isWaitFilter f then 1%nat else 0%nat in
  exists b,
    runFilter f e rn
    = (touch (observers rn) (applyTimes w cc (node rn))
         (replicate w (EvApplyConfChange cc)) rn, Ok b).
Proof.
  intros He cc w. destruct (isWaitFilter f) eqn:Hw; subst w.
  - destruct (runFilter_wait f e rn Hw He) as [b ->]. exists b.
    unfold touch, applyTimes. cbn [Nat.iter replicate]. by destruct rn.
  - destruct f as [n|n|g]; [done..|]. exists (g e). cbn [runFilter replicate].
    unfold ret, applyTimes. change (Nat.iter 0 _ (node rn)) with (node rn).
    by rewrite touch_id.
Qed.

Lemma waiting_cons (k : N) (o : Observer) (obs : list (N * Observer)) :
  waiting ((k, o) :: obs)
  = ((if isWaitFilter (obs_filter o) then 1 else 0) + waiting obs)%nat.
Proof.
  unfold waiting. rewrite filter_cons. cbn [snd].
  destruct (isWaitFilter (obs_filter o)); by case_decide.
Qed.

Lemma observe_each_conf_change (obs : list (N * Observer)) (e : Entry) (rn : Node) :
  Entry_Type e = EntryConfChange ->
  let cc := ConfChange_Unmarshal (Entry_Data e) in
  exists o,
    observe_each obs e rn
    = (touch o (applyTimes (waiting obs) cc (node rn))
         (replicate (waiting obs) (EvApplyConfChange cc)) rn, Ok tt).
Proof.
  intros He cc. revert rn. induction obs as [|[k ob] obs IH]; intros rn.
  - exists (observers rn). cbn. by rewrite touch_id.
  - cbn [observe_each]. unfold bind at 1.
    destruct (runFilter_conf_change (obs_filter ob) e rn He) as [b ->].
    fold cc. rewrite waiting_cons.
    set (w := if isWaitFilter (obs_filter ob) then 1%nat else 0%nat).
    set (rn1 := touch (observers rn) _ _ rn).
    assert (Hstep : exists o1,
               (if b then modify (fun rn => set_observers
                                    (<[k := trySend e ob]> (observers rn)) rn)
                else ret tt) rn1
               = (touch o1 (applyTimes w cc (node rn))
                    (replicate w (EvApplyConfChange cc)) rn, Ok tt)).
    { destruct b; eexists; reflexivity. }
    destruct Hstep as [o1 Hstep]. unfold bind at 1. rewrite Hstep.
    destruct (IH (touch o1 (applyTimes w cc (node rn))
                    (replicate w (EvApplyConfChange cc)) rn)) as [o2 ->].
    exists o2. rewrite touch_touch. unfold touch at 2. cbn [node set_observers set_node].
    rewrite replicate_add. unfold applyTimes.
    by rewrite (Nat.add_comm w), Nat.iter_add.
Qed.

(** X27.  A committed configuration change is applied to the Raft
    engine once by [publishEntries] and once more for every proposal that
    is waiting: when the switch lets the entry through, what follows it in
    the iteration is the observation and one [ApplyConfChange] of the same
    change per waiting proposal, and the engine has been through the
    change that many times more. *)
Theorem publishEntry_applies_once_per_waiter (e : Entry) (rn rn1 : Node) :
  Entry_Type e = EntryConfChange ->
  publishEntry_switch e rn = (rn1, Ok tt) ->
  let cc := ConfChange_Unmarshal (Entry_Data e) in
  let n := waiting (map_to_list (observers rn)) in
  (publishEntry e rn).2 = Ok tt /\
  trace (publishEntry e rn).1
    = trace rn1 ++ EvObserve e :: replicate n (EvApplyConfChange cc) /\
  node (publishEntry e rn).1 = applyTimes (S n) cc (node rn) /\
  lastConfState (publishEntry e rn).1 = (raft_ApplyConfChange (node rn) cc).2.
Proof.
  intros He Hsw cc n.
  destruct (switch_frame _ _ _ _ Hsw) as (_ & Hobs & tr & _ & _ & Hty).
  rewrite He in Hty. cbv zeta in Hty. destruct Hty as (Hnode & Hlcs & _).
  unfold publishEntry, bind. rewrite Hsw.
  unfold observe, bind, emit, modify, get. cbv beta iota.
  set (rn2 := set_trace (trace rn1 ++ [EvObserve e]) rn1).
  change (observers rn2) with (observers rn1). rewrite Hobs. fold n.
  destruct (observe_each_conf_change (map_to_list (observers rn)) e rn2 He) as [o ->].
  fold cc n. unfold touch. subst rn2.
  cbn [fst snd trace node lastConfState set_observers set_node set_trace].
  split_and!; [done | by rewrite <- app_assoc | | done].
  rewrite Hnode. unfold applyTimes. by rewrite Nat.iter_succ_r.
Qed.

End MoreObserverFacts.

(** ** Ready batches that carry a snapshot *)

Section MoreReadyFacts.

Context {C : Collaborators} {P : @Package C}.

(** X28.  A Ready batch whose snapshot cannot be decoded ends the Ready
    case with the decoding error after the batch has been saved to the
    WAL, appended to the Raft storage and sent: the FSM is not restored,
    the snapshot is neither persisted nor applied to the storage, no
    committed entry is published and [Advance] is not called.  This holds
    when the envelope does not decode and when the peer metadata inside it
    does not. *)
Theorem scanReady_ready_undecodable_snapshot (rd : Ready) (rn : Node) (err : error) :
  raft_IsEmptySnap (Rd_Snapshot rd) = false ->
  json_Unmarshal_snapshot (Snap_Data (Rd_Snapshot rd)) = inl err \/
  (exists raw data,
      json_Unmarshal_snapshot (Snap_Data (Rd_Snapshot rd)) = inr (Some raw, data) /\
      UnmarshalJSON raw = inl err) ->
  scanReady_ready rd rn = (persistedAndSent rd rn, Fail err).
Proof.
  intros Hne Hbad.
  assert (Hrestore : forall st, restoreFSMFromSnapshot (Rd_Snapshot rd) st = (st, Fail err)).
  { intros st. unfold restoreFSMFromSnapshot. rewrite Hne.
    destruct Hbad as [-> | (raw & data & -> & ->)]; reflexivity. }
  unfold scanReady_ready, persistedAndSent.
  unfold bind at 1, get. cbv beta iota.
  destruct (wal rn) as [w|] eqn:Hw;
    unfold call_storage_Append, call_transport_Send, processSnapshot,
      bind, emit, modify, ret;
    cbv beta iota; rewrite Hne; cbn [negb]; rewrite Hrestore; reflexivity.
Qed.

End MoreReadyFacts.

(** *** Further runs on the small instance *)

Lemma Sim_peers_bound : map_Forall (fun k _ => k < 2 ^ 64) Sim.peers.
Proof.
  unfold Sim.peers. apply map_Forall_insert_2; [reflexivity|].
  apply map_Forall_singleton. reflexivity.
Qed.

Lemma Sim_peers_decode :
  UnmarshalJSON (C := Sim.collab)
    (Sim.pos_to_bytes (encode (MarshalJSON_loop (map_to_list Sim.peers))))
  = inr Sim.peers.
Proof.
  unfold UnmarshalJSON.
  assert (json_Unmarshal_peers (Collaborators := Sim.collab)
            (Sim.pos_to_bytes (encode (MarshalJSON_loop (map_to_list Sim.peers))))
          = inr (MarshalJSON_loop (map_to_list Sim.peers))) as ->
    by apply Sim_peers_codec.
  apply UnmarshalJSON_loop_order; [apply Sim_peers_bound | done].
Qed.

Lemma Sim_badKeys_decode :
  UnmarshalJSON (C := Sim.collab) (Sim.pos_to_bytes (encode Sim.badKeys))
  = inl strconv.ErrSyntax.
Proof.
  unfold UnmarshalJSON.
  assert (json_Unmarshal_peers (Collaborators := Sim.collab)
            (Sim.pos_to_bytes (encode Sim.badKeys)) = inr Sim.badKeys) as ->
    by apply Sim_peers_codec.
  vm_compute. reflexivity.
Qed.

Lemma publishEntries_keeps_own_record_witness :
  is_Some (peerMap (publishEntries (C := Sim.collab) Sim.removedInMiddle Sim.selfListed).1
             !! id Sim.selfListed).
Proof.
  apply (publishEntries_keeps_own_record (C := Sim.collab)
           Sim.removedInMiddle Sim.selfListed).
  vm_compute. eauto.
Defined.

Lemma publishEntries_normal_batch_witness :
  peerMap (publishEntries (C := Sim.collab) Sim.withRejected Sim.node1).1
    = peerMap Sim.node1 /\
  node (publishEntries (C := Sim.collab) Sim.withRejected Sim.node1).1 = node Sim.node1.
Proof.
  destruct (publishEntries_normal_batch (C := Sim.collab) Sim.withRejected Sim.node1)
    as (Hpm & _ & _ & Hnode & _).
  { repeat constructor. }
  split; [exact Hpm | exact Hnode].
Defined.

Lemma publishEntries_records_conf_state_witness :
  lastConfState
    (publishEntries (C := Sim.collab)
       ([Sim.normal 1 [x61]] ++ [Sim.confChange 2 x01 x01 []]) Sim.node1).1
  = Some {| CS_Nodes := [] |}.
Proof.
  destruct (publishEntries_records_conf_state (C := Sim.collab)
              [Sim.normal 1 [x61]] (Sim.confChange 2 x01 x01 []) Sim.node1
              (publishEntries (C := Sim.collab) [Sim.normal 1 [x61]] Sim.node1).1)
    as [Hlcs _].
  { apply run_returns. vm_compute. reflexivity. }
  { reflexivity. }
  rewrite Hlcs. vm_compute. reflexivity.
Defined.

Lemma createSnapAndCompact_fsm_error_witness :
  (createSnapAndCompact (C := Sim.faulty) (P := Sim.faultyPkg) true Sim.faultyNode).2
  = Fail Sim.rejected.
Proof.
  rewrite (createSnapAndCompact_fsm_error (C := Sim.faulty) (P := Sim.faultyPkg)
             true Sim.faultyNode Sim.emptySnapshot [] Sim.rejected).
  - reflexivity.
  - vm_compute. reflexivity.
  - by left.
  - vm_compute. reflexivity.
Defined.

Lemma createSnapAndCompact_compacts_before_persisting_witness :
  trace (createSnapAndCompact (C := Sim.collab) (P := Sim.pkg) true Sim.node1).1
  = [EvFsmSnapshot; EvCreateSnapshot 0 None []; EvCompact 0; EvCall "persistSnapshot"].
Proof.
  rewrite (createSnapAndCompact_compacts_before_persisting
             (C := Sim.collab) (P := Sim.pkg) true Sim.node1
             Sim.emptySnapshot Sim.emptySnapshot [] [] [] []
             Sim.emptySnapshot Sim.emptySnapshot None).
  - vm_compute. reflexivity.
  - vm_compute. reflexivity.
  - by left.
  - vm_compute. reflexivity.
  - vm_compute. reflexivity.
  - vm_compute. reflexivity.
  - vm_compute. reflexivity.
  - vm_compute. reflexivity.
Defined.


Lemma scanReady_ready_order_witness :
  exists tr,
    trace (scanReady_ready (C := Sim.collab) (P := Sim.pkg) (Sim.ready Sim.mixed)
             Sim.node1).1
    = trace Sim.node1
      ++ match wal Sim.node1 with
         | Some _ => [EvWalSave (Rd_HardState (Sim.ready Sim.mixed))
                        (Rd_Entries (Sim.ready Sim.mixed))]
         | None => []
         end
      ++ [EvStorageAppend (Rd_Entries (Sim.ready Sim.mixed));
          EvTransportSend (Rd_Messages (Sim.ready Sim.mixed))]
      ++ tr.
Proof.
  destruct (scanReady_ready_order (C := Sim.collab) (P := Sim.pkg)
              (Sim.ready Sim.mixed) Sim.node1)
    as (tr & Htr & _).
  - reflexivity.
  - exists tr. exact Htr.
Defined.

Lemma scanReady_returned_not_running_witness :
  running (scanReady (C := Sim.collab) (P := Sim.pkg) [RecvTick; RecvStop] Sim.node1).1
  = false.
Proof.
  destruct (scanReady_returned_not_running (C := Sim.collab) (P := Sim.pkg)
              [RecvTick; RecvStop] Sim.node1) as [Hrun _].
  - vm_compute. discriminate.
  - exact Hrun.
Defined.

Lemma scanReady_ignores_snap_ticks_witness :
  scanReady (C := Sim.collab) (P := Sim.pkg) [RecvSnapTick; RecvTick; RecvStop] Sim.node1
  = scanReady (C := Sim.collab) (P := Sim.pkg)
      (dropSnapTicks [RecvSnapTick; RecvTick; RecvStop]) Sim.node1.
Proof.
  apply (scanReady_ignores_snap_ticks (C := Sim.collab) (P := Sim.pkg)
           [RecvSnapTick; RecvTick; RecvStop] Sim.node1).
  - vm_compute. discriminate.
  - vm_compute. reflexivity.
Defined.

Lemma scanReady_loop_self_removal_witness :
  (scanReady_loop (C := Sim.collab) (P := Sim.pkg) StoppedTicker
     [RecvReady (Sim.ready Sim.removedInMiddle); RecvTick] Sim.node1).2
  = Fail ErrorRemovedFromCluster.
Proof.
  destruct (scanReady_loop_self_removal (C := Sim.collab) (P := Sim.pkg)
              StoppedTicker (Sim.ready Sim.removedInMiddle) [RecvTick]
              [Sim.normal 1 [x61]] [Sim.normal 3 [x62]] (Sim.confChange 2 x01 x01 [])
              Sim.node1
              (publishEntries (C := Sim.collab) [Sim.normal 1 [x61]]
                 (persistedAndSent (Sim.ready Sim.removedInMiddle) Sim.node1)).1)
    as (Hres & _).
  - reflexivity.
  - reflexivity.
  - apply run_returns. vm_compute. reflexivity.
  - vm_compute. reflexivity.
  - exact Hres.
Defined.

Lemma Start_bootstrap_in_memory_witness :
  (Start (C := Sim.collab) (P := Sim.pkg) Sim.node1).2 = Ok tt /\
  running (Start (C := Sim.collab) (P := Sim.pkg) Sim.node1).1 = true /\
  trace (Start (C := Sim.collab) (P := Sim.pkg) Sim.node1).1
  = [EvTransportStart] ++ replicate 9 EvTick
    ++ [EvGo "scanReady"; EvGo "serveHTTP"; EvGo "serveRaft"].
Proof.
  destruct (Start_bootstrap_in_memory (C := Sim.collab) (P := Sim.pkg) Sim.node1
              {| Cfg_ID := 1; ElectionTick := 10; HeartbeatTick := 1;
                 MaxSizePerMsg := 1048576; MaxInflightMsgs := 256;
                 CheckQuorum := true |} ∅)
    as (Hres & _ & _ & Hrun & _ & _ & _ & _ & Htr).
  - vm_compute. reflexivity.
  - vm_compute. reflexivity.
  - vm_compute. reflexivity.
  - vm_compute. reflexivity.
  - vm_compute. reflexivity.
  - split_and!; [exact Hres | exact Hrun | rewrite Htr; reflexivity].
Defined.

Lemma Start_transport_error_witness :
  (Start (C := Sim.faulty) (P := Sim.faultyPkg) Sim.faultyNode).2 = Fail Sim.busy /\
  started (Start (C := Sim.faulty) (P := Sim.faultyPkg) Sim.faultyNode).1 = false.
Proof.
  destruct (Start_transport_error (C := Sim.faulty) (P := Sim.faultyPkg)
              Sim.faultyNode ∅ Sim.busy)
    as (Hres & Hst & _).
  - vm_compute. reflexivity.
  - vm_compute. reflexivity.
  - vm_compute. reflexivity.
  - split; [exact Hres | exact Hst].
Defined.

Lemma Stop_open_channel_witness :
  (Stop (C := Sim.collab) Sim.startedNode).2 = Blocked /\
  stopc (Stop (C := Sim.collab) Sim.startedNode).1 = Some true.
Proof.
  destruct (Stop_open_channel (C := Sim.collab) Sim.startedNode)
    as (Hres & Hc & _).
  - vm_compute. reflexivity.
  - vm_compute. reflexivity.
  - split; [rewrite Hres; vm_compute; reflexivity | exact Hc].
Defined.

Lemma Stop_without_open_channel_witness :
  Stop (C := Sim.collab) Sim.node1 = (Sim.node1, Panic "close of nil channel") /\
  (Stop (C := Sim.collab) (Stop (C := Sim.collab) Sim.startedNode).1).2
  = Panic "close of closed channel".
Proof.
  destruct (Stop_without_open_channel (C := Sim.collab)) as [Hnil Hclosed]. split.
  - apply (Hnil 99 Sim.config (NewNode (C := Sim.collab) 99 Sim.config).1 Sim.node1).
    reflexivity.
  - rewrite (Hclosed Sim.startedNode); [reflexivity|]. vm_compute. reflexivity.
Defined.

Lemma NewNode_data_dir_without_interval_witness :
  (exists msg,
      (scanReady (C := Sim.collab) (P := Sim.pkg) [RecvStop] Sim.persistentNode).2
      = Panic msg) \/
  (scanReady (C := Sim.collab) (P := Sim.pkg) [RecvStop] Sim.persistentNode).2 = Blocked.
Proof.
  apply (NewNode_data_dir_without_interval (C := Sim.collab) (P := Sim.pkg)
           99 Sim.persistentConfig
           (NewNode (C := Sim.collab) 99 Sim.persistentConfig).1
           Sim.persistentNode [RecvStop]).
  - reflexivity.
  - discriminate.
  - vm_compute. discriminate.
Defined.

Lemma commitsSinceLastSnap_wraps_witness :
  exists n,
    commitsSinceLastSnap (C := Sim.collab) Sim.node1 = (Sim.node1, Ok n) /\ n < 2 ^ 64.
Proof.
  destruct (commitsSinceLastSnap_wraps (C := Sim.collab) Sim.node1 Sim.emptySnapshot 0)
    as (n & Hrun & Hn & _).
  - vm_compute. reflexivity.
  - vm_compute. reflexivity.
  - reflexivity.
  - reflexivity.
  - exists n. split; [exact Hrun | exact Hn].
Defined.

Lemma UnmarshalJSON_bad_key_witness :
  exists err,
    UnmarshalJSON (C := Sim.collab) (Sim.pos_to_bytes (encode Sim.badKeys)) = inl err.
Proof.
  apply (UnmarshalJSON_bad_key (C := Sim.collab)
           (Sim.pos_to_bytes (encode Sim.badKeys)) Sim.badKeys "0x2"
           {| IP := "10.0.0.2"; RaftPort := 7002; APIPort := 8002 |}
           strconv.ErrSyntax).
  - apply Sim_peers_codec.
  - vm_compute. reflexivity.
  - vm_compute. reflexivity.
Defined.

Lemma UnmarshalJSON_keys_parsed_witness :
  exists tmpPeers,
    json_Unmarshal_peers (Collaborators := Sim.collab)
      (Sim.pos_to_bytes (encode (MarshalJSON_loop (map_to_list Sim.peers))))
    = inr tmpPeers /\
    (forall k v, Sim.peers !! k = Some v -> k < 2 ^ 64).
Proof.
  destruct (UnmarshalJSON_keys_parsed (C := Sim.collab)
              (Sim.pos_to_bytes (encode (MarshalJSON_loop (map_to_list Sim.peers))))
              Sim.peers)
    as (tmpPeers & Hdec & Hkeys & _).
  - apply Sim_peers_decode.
  - exists tmpPeers. split; [exact Hdec|].
    intros k v Hk. exact (proj1 (Hkeys k v Hk)).
Defined.

Lemma snapshotMetadata_iteration_order_witness :
  UnmarshalJSON_loop
    (reverse (map_to_list (MarshalJSON_loop (reverse (map_to_list Sim.peers))))) ∅
  = inr Sim.peers.
Proof.
  destruct (snapshotMetadata_iteration_order Sim.peers
              (reverse (map_to_list Sim.peers))
              (reverse (map_to_list (MarshalJSON_loop (reverse (map_to_list Sim.peers))))))
    as [_ Hdec].
  - apply Sim_peers_bound.
  - apply reverse_Permutation.
  - apply reverse_Permutation.
  - exact Hdec.
Defined.

Lemma UnmarshalJSON_loop_colliding_keys_witness :
  UnmarshalJSON_loop
    [("1", {| IP := "10.0.0.1"; RaftPort := 7001; APIPort := 8001 |});
     ("01", {| IP := "10.0.0.2"; RaftPort := 7002; APIPort := 8002 |})] ∅
  = inr {[ 1 := {| IP := "10.0.0.2"; RaftPort := 7002; APIPort := 8002 |} ]} /\
  UnmarshalJSON_loop
    [("01", {| IP := "10.0.0.2"; RaftPort := 7002; APIPort := 8002 |});
     ("1", {| IP := "10.0.0.1"; RaftPort := 7001; APIPort := 8001 |})] ∅
  = inr {[ 1 := {| IP := "10.0.0.1"; RaftPort := 7001; APIPort := 8001 |} ]}.
Proof.
  apply (UnmarshalJSON_loop_colliding_keys "1" "01" 1).
  - vm_compute. reflexivity.
  - vm_compute. reflexivity.
Defined.

Lemma wait_filter_applies_conf_change_witness :
  (runFilter (C := Sim.collab) (FilterAddNode 2) (Sim.confChange 3 x00 x02 [x31])
     Sim.node1).2 = Ok true /\
  (runFilter (C := Sim.collab) (FilterRemoveNode 2) (Sim.confChange 3 x00 x02 [x31])
     Sim.node1).2 = Ok false /\
  runFilter (C := Sim.collab) (FilterAddNode 2) (Sim.normal 1 [x61]) Sim.node1
  = (Sim.node1, Ok false).
Proof.
  pose proof (wait_filter_applies_conf_change (C := Sim.collab) 2
                (Sim.confChange 3 x00 x02 [x31]) Sim.node1) as Hcc.
  pose proof (wait_filter_applies_conf_change (C := Sim.collab) 2
                (Sim.normal 1 [x61]) Sim.node1) as Hn.
  cbv zeta in Hcc, Hn.
  destruct Hcc as [Hcc _]. destruct (Hcc eq_refl) as (Hadd & Hrem & _).
  destruct Hn as [_ Hn]. destruct (Hn eq_refl) as (Hnormal & _).
  split_and!; [rewrite Hadd; reflexivity | rewrite Hrem; reflexivity | exact Hnormal].
Defined.

Lemma publishEntry_applies_once_per_waiter_witness :
  node (publishEntry (C := Sim.collab) (Sim.confChange 3 x00 x02 [x31])
          Sim.waitingNode).1
  = {| Sim.applied := 0; Sim.members := [2; 2] |}.
Proof.
  pose proof (publishEntry_applies_once_per_waiter (C := Sim.collab)
                (Sim.confChange 3 x00 x02 [x31]) Sim.waitingNode
                (publishEntry_switch (C := Sim.collab) (Sim.confChange 3 x00 x02 [x31])
                   Sim.waitingNode).1) as H.
  cbv zeta in H. destruct H as (_ & _ & Hnode & _).
  - reflexivity.
  - apply run_returns. vm_compute. reflexivity.
  - rewrite Hnode. vm_compute. reflexivity.
Defined.

Lemma scanReady_ready_undecodable_snapshot_witness :
  scanReady_ready (C := Sim.collab) (P := Sim.pkg) Sim.badReady Sim.node1
  = (persistedAndSent Sim.badReady Sim.node1, Fail strconv.ErrSyntax).
Proof.
  apply (scanReady_ready_undecodable_snapshot (C := Sim.collab) (P := Sim.pkg)
           Sim.badReady Sim.node1 strconv.ErrSyntax).
  - reflexivity.
  - right. exists (Sim.pos_to_bytes (encode Sim.badKeys)), [].
    split; [reflexivity | apply Sim_badKeys_decode].
Defined.
